(** * pgsqlite: SQLite to PostgreSQL schema translation and bulk load

    A shallow embedding of [pgsqlite/pgsqlite.py] (class [PGSqlite]) and
    the properties its design document states about it.

    Python [str] values are modelled as [string]: sequences of code points
    below 256.  A function that computes a value returns a [res]: the value
    or the exception raised.  A method that works on the object and the
    target ends in an [outcome]: returned or raised, with the object as it
    is then.  What the target engine answers and how the event loop times
    the load tasks are a parameter, [Env]; a property stated for every
    [Env] holds whatever the target does. *)

From Stdlib Require Import String Ascii ZArith List Bool Lia Sorted.
From Stdlib Require PrimFloat.
From stdpp Require Import gmap strings list pretty.

Local Open Scope string_scope.
Local Open Scope list_scope.
Set Warnings "-register-all".

(** ** Python string primitives *)

Module PyStr.

(** [s.startswith(p)] *)
Fixpoint prefix (p s : string) : bool :=
  match p with
  | EmptyString => true
  | String a p' =>
      match s with
      | EmptyString => false
      | String b s' => Ascii.eqb a b && prefix p' s'
      end
  end.

(** [sub in s] *)
Fixpoint contains (sub s : string) : bool :=
  prefix sub s ||
  match s with
  | EmptyString => false
  | String _ s' => contains sub s'
  end.

(** [s[n:]] *)
Fixpoint drop (n : nat) (s : string) : string :=
  match n, s with
  | O, _ => s
  | S _, EmptyString => EmptyString
  | S k, String _ s' => drop k s'
  end.

(** The scan of [s.replace(old, new)] for a non-empty [old]: [skip]
    counts the characters of a matched occurrence still to pass over. *)
Fixpoint replace_from (old new : string) (skip : nat) (s : string) : string :=
  match s with
  | EmptyString => EmptyString
  | String c s' =>
      match skip with
      | S k => replace_from old new k s'
      | O =>
          if prefix old s
          then new +:+ replace_from old new (String.length old - 1) s'
          else String c (replace_from old new 0 s')
      end
  end.

(** [s.replace("", new)]: [new] before every character and at the end. *)
Fixpoint intersperse_str (new s : string) : string :=
  match s with
  | EmptyString => new
  | String c s' => new +:+ String c (intersperse_str new s')
  end.

(** [s.replace(old, new)] *)
Definition replace (old new s : string) : string :=
  match old with
  | EmptyString => intersperse_str new s
  | String _ _ => replace_from old new 0 s
  end.

(** [s.split(sep)] for a one-character separator *)
Fixpoint split_on (sep : ascii) (s : string) : list string :=
  match s with
  | EmptyString => [EmptyString]
  | String c s' =>
      if Ascii.eqb c sep then EmptyString :: split_on sep s'
      else match split_on sep s' with
           | h :: t => String c h :: t
           | [] => [String c EmptyString]
           end
  end.

(** [s.find(sub)], [None] standing for -1 *)
Fixpoint find (sub s : string) : option nat :=
  if prefix sub s then Some 0
  else match s with
       | EmptyString => None
       | String _ s' => option_map S (find sub s')
       end.

(** [s.rfind(sub)], [None] standing for -1 *)
Fixpoint rfind (sub s : string) : option nat :=
  match s with
  | EmptyString => if prefix sub EmptyString then Some 0 else None
  | String _ s' =>
      match rfind sub s' with
      | Some i => Some (S i)
      | None => if prefix sub s then Some 0 else None
      end
  end.

(** [c.isspace()] on code points below 256 *)
Definition is_space (c : ascii) : bool :=
  let n := nat_of_ascii c in
  (((9 <=? n) && (n <=? 13)) || ((28 <=? n) && (n <=? 32))
  || (n =? 133) || (n =? 160))%nat.

(** [s.lstrip()] *)
Fixpoint lstrip (s : string) : string :=
  match s with
  | EmptyString => EmptyString
  | String c s' => if is_space c then lstrip s' else s
  end.

(** [s.rstrip(chars)], the set [chars] given as a predicate *)
Fixpoint rstrip_with (p : ascii -> bool) (s : string) : string :=
  match s with
  | EmptyString => EmptyString
  | String c s' =>
      match rstrip_with p s' with
      | EmptyString => if p c then EmptyString else String c EmptyString
      | r => String c r
      end
  end.

(** [s.strip()] *)
Definition strip (s : string) : string := rstrip_with is_space (lstrip s).

(** [c.lower()] on code points below 256 *)
Definition lower_char (c : ascii) : ascii :=
  let n := nat_of_ascii c in
  if (((65 <=? n) && (n <=? 90))
      || ((192 <=? n) && (n <=? 222) && negb (n =? 215)))%nat
  then ascii_of_nat (n + 32) else c.

(** [s.lower()] *)
Fixpoint lower (s : string) : string :=
  match s with
  | EmptyString => EmptyString
  | String c s' => String (lower_char c) (lower s')
  end.

Definition nl : string := String "010"%char EmptyString.
Definition dquote : string := String "034"%char EmptyString.

End PyStr.

(** ** Exceptions and results *)

(** The exceptions met in the program: Python's own, the errors of the
    [psycopg] driver by class name ([UndefinedTable], [DuplicateObject],
    [OperationalError], ...), and the cancellation of a task. *)
Inductive exn : Type :=
| Exception (msg : string)
| AttributeError
| ValueError
| KeyError (key : string)
| IndexError
| NameError
| TypeError
| PsycopgError (name : string)
| CancelledError.

Inductive res (A : Type) : Type :=
| Ok (a : A)
| Err (e : exn).
Arguments Ok {A} a.
Arguments Err {A} e.

Definition res_bind {A B} (r : res A) (k : A -> res B) : res B :=
  match r with
  | Ok a => k a
  | Err e => Err e
  end.

Notation "'let*' x ':=' e 'in' k" := (res_bind e (fun x => k))
  (at level 10, x pattern, e at level 100, k at level 200).

Definition is_ok {A} (r : res A) : bool :=
  match r with Ok _ => true | Err _ => false end.

(** Runs [f] over a sequence in order, stopping at the first exception. *)
Fixpoint mapM {A B} (f : A -> res B) (l : list A) : res (list B) :=
  match l with
  | [] => Ok []
  | x :: xs => let* y := f x in let* ys := mapM f xs in Ok (y :: ys)
  end.

(** ** Source values *)

(** What a [sqlite3] cursor yields in a row. *)
Inductive value : Type :=
| VNone
| VInt (z : Z)
| VFloat (f : PrimFloat.float)
| VStr (s : string)
| VBytes (b : list Byte.byte).

(** [bool(v)] *)
Definition truthy (v : value) : bool :=
  match v with
  | VNone => false
  | VInt z => negb (Z.eqb z 0)
  | VFloat f => negb (PrimFloat.eqb f PrimFloat.zero)
  | VStr s => negb (String.eqb s EmptyString)
  | VBytes b => match b with [] => false | _ :: _ => true end
  end.

(** [v == 0] *)
Definition eq_zero (v : value) : bool :=
  match v with
  | VInt z => Z.eqb z 0
  | VFloat f => PrimFloat.eqb f PrimFloat.zero
  | _ => false
  end.

(** [v == 1] *)
Definition eq_one (v : value) : bool :=
  match v with
  | VInt z => Z.eqb z 1
  | VFloat f => PrimFloat.eqb f PrimFloat.one
  | _ => false
  end.

(** [v.lower() == t] for a text [t]: only [str] and [bytes] have [lower],
    and a [bytes] value never equals a [str]. *)
Definition lower_eq (v : value) (t : string) : res bool :=
  match v with
  | VStr s => Ok (String.eqb (PyStr.lower s) t)
  | VBytes _ => Ok false
  | VNone | VInt _ | VFloat _ => Err AttributeError
  end.

(** ** The SQL composition objects of [psycopg.sql] *)

Inductive Composable : Type :=
| SQL (s : string)
| Identifier (s : string)
| Literal (v : value)
| Composed (l : list Composable).

Module Sql.

(** The elements of a sequence with [sep] between each two of them *)
Fixpoint sep_by (sep : Composable) (seq : list Composable) : list Composable :=
  match seq with
  | [] => []
  | [x] => [x]
  | x :: rest => x :: sep :: sep_by sep rest
  end.

(** [SQL(sep).join(seq)] *)
Definition join (sep : string) (seq : list Composable) : Composable :=
  Composed (sep_by (SQL sep) seq).

(** [a + b] *)
Definition add (a b : Composable) : Composable :=
  let l := match a with Composed l => l | _ => [a] end in
  match b with
  | Composed l' => Composed (l ++ l')
  | _ => Composed (l ++ [b])
  end.

(** *** [SQL(template).format(name=obj, ...)]

    The template is read by Python's [string.Formatter.parse], one chunk
    at a time: literal text up to a brace, then a replacement field.  The
    scanner below is that reader as a state machine over the characters;
    accumulators hold text in reverse. *)

Inductive mode : Type :=
| InLit (lit : string)
| SawOpen (lit : string)
| SawClose (lit : string)
| InName (lit name : string) (bracket : bool)
| AfterBang (lit name : string)
| AfterConv (lit name : string) (conv : ascii)
| InSpec (lit name : string) (conv : option ascii) (spec : string) (depth : nat).

(** A chunk [(literal, field)], the field being [(name, spec, conversion)]. *)
Definition chunk : Type := string * option (string * string * option ascii).

Inductive step_result : Type :=
| Continue (m : mode)
| Emit (c : chunk) (m : mode)
| Fail (e : exn).

Fixpoint rev_string (acc s : string) : string :=
  match s with
  | EmptyString => acc
  | String c s' => rev_string (String c acc) s'
  end.

Definition unrev (s : string) : string := rev_string EmptyString s.

Definition conv_of (c : ascii) : option ascii :=
  if Ascii.eqb c Ascii.zero then None else Some c.

(** One character of a field name: [parse_field]'s first loop. *)
Definition step_name (lit name : string) (bracket : bool) (c : ascii) : step_result :=
  if bracket then Continue (InName lit (String c name) (negb (Ascii.eqb c "]")))
  else if Ascii.eqb c "{" then Fail ValueError
  else if Ascii.eqb c "[" then Continue (InName lit (String c name) true)
  else if Ascii.eqb c "}" then Emit (unrev lit, Some (unrev name, EmptyString, None)) (InLit EmptyString)
  else if Ascii.eqb c ":" then Continue (InSpec lit name None EmptyString 1)
  else if Ascii.eqb c "!" then Continue (AfterBang lit name)
  else Continue (InName lit (String c name) false).

Definition step (m : mode) (c : ascii) : step_result :=
  match m with
  | InLit lit =>
      if Ascii.eqb c "{" then Continue (SawOpen lit)
      else if Ascii.eqb c "}" then Continue (SawClose lit)
      else Continue (InLit (String c lit))
  | SawOpen lit =>
      if Ascii.eqb c "{" then Emit (unrev (String "{" lit), None) (InLit EmptyString)
      else step_name lit EmptyString false c
  | SawClose lit =>
      if Ascii.eqb c "}" then Emit (unrev (String "}" lit), None) (InLit EmptyString)
      else Fail ValueError
  | InName lit name bracket => step_name lit name bracket c
  | AfterBang lit name => Continue (AfterConv lit name c)
  | AfterConv lit name conv =>
      if Ascii.eqb c "}" then Emit (unrev lit, Some (unrev name, EmptyString, conv_of conv)) (InLit EmptyString)
      else if Ascii.eqb c ":" then Continue (InSpec lit name (conv_of conv) EmptyString 1)
      else Fail ValueError
  | InSpec lit name conv spec depth =>
      if Ascii.eqb c "{" then Continue (InSpec lit name conv (String c spec) (S depth))
      else if Ascii.eqb c "}" then
        match depth with
        | 0 | 1 => Emit (unrev lit, Some (unrev name, unrev spec, conv)) (InLit EmptyString)
        | S d => Continue (InSpec lit name conv (String c spec) d)
        end
      else Continue (InSpec lit name conv (String c spec) depth)
  end.

(** [name.isdigit()], and whether [int(name)] then succeeds *)
Definition is_digit (c : ascii) : bool :=
  let n := nat_of_ascii c in
  (((48 <=? n) && (n <=? 57)) || (n =? 178) || (n =? 179) || (n =? 185))%nat.

Definition is_decimal (c : ascii) : bool :=
  let n := nat_of_ascii c in ((48 <=? n) && (n <=? 57))%nat.

Fixpoint all_chars (p : ascii -> bool) (s : string) : bool :=
  match s with
  | EmptyString => true
  | String c s' => p c && all_chars p s'
  end.

Fixpoint lookup_kw (kwargs : list (string * Composable)) (name : string) : option Composable :=
  match kwargs with
  | [] => None
  | (k, v) :: rest => if String.eqb k name then Some v else lookup_kw rest name
  end.

(** What [format]'s loop body appends for one chunk; no positional
    arguments are ever passed, so a numbered or empty field finds none. *)
Definition place (kwargs : list (string * Composable)) (c : chunk) : res (list Composable) :=
  let '(pre, field) := c in
  let pre_sql := match pre with EmptyString => [] | _ => [SQL pre] end in
  match field with
  | None => Ok pre_sql
  | Some (name, spec, conv) =>
      match spec, conv with
      | String _ _, _ => Err ValueError
      | EmptyString, Some _ => Err ValueError
      | EmptyString, None =>
          match name with
          | EmptyString => Err IndexError
          | String _ _ =>
              if all_chars is_digit name then
                if all_chars is_decimal name then Err IndexError else Err ValueError
              else match lookup_kw kwargs name with
                   | Some obj => Ok (pre_sql ++ [obj])
                   | None => Err (KeyError name)
                   end
          end
      end
  end.

(** End of the template. *)
Definition finish (m : mode) : res (list Composable) :=
  match m with
  | InLit EmptyString => Ok []
  | InLit lit => Ok [SQL (unrev lit)]
  | _ => Err ValueError
  end.

Fixpoint format_from (kwargs : list (string * Composable)) (m : mode) (template : string)
  : res (list Composable) :=
  match template with
  | EmptyString => finish m
  | String c rest =>
      match step m c with
      | Fail e => Err e
      | Continue m' => format_from kwargs m' rest
      | Emit ch m' =>
          let* items := place kwargs ch in
          let* more := format_from kwargs m' rest in
          Ok (items ++ more)
      end
  end.

Definition format (template : string) (kwargs : list (string * Composable)) : res Composable :=
  let* items := format_from kwargs (InLit EmptyString) template in
  Ok (Composed items).

End Sql.

(** ** The source catalog, as [sqlite_utils] presents it *)

Module Column.
Record t : Type := mk {
  cid : nat;
  name : string;
  type : string;
  notnull : bool;
  default_value : option string;
  is_pk : bool
}.
End Column.

Module ForeignKey.
(** [other_column] is [None] for a key declared without a parent column
    ([REFERENCES parent]): the catalog reports no column for it. *)
Record t : Type := mk {
  table : string;
  column : string;
  other_table : string;
  other_column : option string
}.
End ForeignKey.

Module XIndexColumn.
(** [name] is [None] for an expression entry. *)
Record t : Type := mk {
  seqno : nat;
  name : option string;
  desc : bool
}.
End XIndexColumn.

Module XIndex.
Record t : Type := mk {
  name : string;
  columns : list XIndexColumn.t
}.
End XIndex.

Module Table.
Record t : Type := mk {
  name : string;
  columns : list Column.t;
  pks : list string;
  use_rowid : bool;
  foreign_keys : list ForeignKey.t;
  xindexes : list XIndex.t
}.
End Table.

(** A table of the source file: its catalog entry, the text of its
    definition in [sqlite_master], and its rows in default order. *)
Module SourceTable.
Record t : Type := mk {
  table : Table.t;
  sql : string;
  rows : list (list value)
}.
End SourceTable.

Module Database.
Record t : Type := mk {
  tables : list SourceTable.t;
  views : list string;
  triggers : list string
}.
End Database.

(** ** The transfer summary and the loader object *)

Inductive sval : Type :=
| SStr (s : string)
| SNum (n : nat).

Module Summary.
(** [summary["tables"][category][table name][field]], then views and triggers *)
Record t : Type := mk {
  columns : gmap string (gmap string sval);
  pks : gmap string (gmap string sval);
  fks : gmap string (gmap string sval);
  checks : gmap string (gmap string sval);
  data : gmap string (gmap string sval);
  indexes : gmap string (gmap string sval);
  views : gmap string (gmap string sval);
  triggers : gmap string (gmap string sval)
}.

Definition empty : t := mk ∅ ∅ ∅ ∅ ∅ ∅ ∅ ∅.

Definition with_columns f (s : t) : t :=
  mk (f (columns s)) (pks s) (fks s) (checks s) (data s) (indexes s) (views s) (triggers s).
Definition with_pks f (s : t) : t :=
  mk (columns s) (f (pks s)) (fks s) (checks s) (data s) (indexes s) (views s) (triggers s).
Definition with_fks f (s : t) : t :=
  mk (columns s) (pks s) (f (fks s)) (checks s) (data s) (indexes s) (views s) (triggers s).
Definition with_checks f (s : t) : t :=
  mk (columns s) (pks s) (fks s) (f (checks s)) (data s) (indexes s) (views s) (triggers s).
Definition with_data f (s : t) : t :=
  mk (columns s) (pks s) (fks s) (checks s) (f (data s)) (indexes s) (views s) (triggers s).
Definition with_indexes f (s : t) : t :=
  mk (columns s) (pks s) (fks s) (checks s) (data s) (f (indexes s)) (views s) (triggers s).
Definition with_views f (s : t) : t :=
  mk (columns s) (pks s) (fks s) (checks s) (data s) (indexes s) (f (views s)) (triggers s).
Definition with_triggers f (s : t) : t :=
  mk (columns s) (pks s) (fks s) (checks s) (data s) (indexes s) (views s) (f (triggers s)).

(** [cat[name] = {}; cat[name]["status"] = status; cat[name][field] = n] *)
Definition prepared (name status field : string) (n : nat)
    (cat : gmap string (gmap string sval)) : gmap string (gmap string sval) :=
  <[name := <[field := SNum n]> (<["status" := SStr status]> ∅)]> cat.

(** [cat[name]["status"] = status], a [KeyError] when [name] has no entry *)
Definition set_status (name status : string)
    (cat : gmap string (gmap string sval)) : res (gmap string (gmap string sval)) :=
  match cat !! name with
  | Some entry => Ok (<[name := <["status" := SStr status]> entry]> cat)
  | None => Err (KeyError name)
  end.
End Summary.

(** ** The target engine

    What the loader asks of the target through [psycopg], one constructor
    per call that reaches the engine.  [PgCopy] is the entry into a
    [cursor.copy(command)] block, [PgCopyEnd] its normal exit and
    [PgCopyAbort] its exit by an exception; [PgCommit] and [PgRollback] are
    what leaving a [with connect(...)] block asks for, normally and by an
    exception. *)
Inductive pg_request : Type :=
| PgConnect
| PgExecute (statement : Composable)
| PgCopy (command : string)
| PgWriteRow (row : list value)
| PgCopyEnd
| PgCopyAbort
| PgCommit
| PgRollback.

(** The log of a run.  Connections the program opens one after the other
    are [Session]s, in order.  The load tasks of [asyncio.gather] hold one
    connection each at the same time: they make one [Gathered] entry, with
    the requests of each task's connection in that connection's own order
    and the tasks in the order they were given.  How the requests of
    different tasks interleave is up to the event loop and is not recorded. *)
Inductive activity : Type :=
| Session (requests : list pg_request)
| Gathered (sessions : list (list pg_request)).

(** Who holds a connection: the main program, or the n-th task of a gather. *)
Inductive client : Type :=
| Main
| Task (n : nat).

(** What the program does not decide.  [answer log who sent request] is
    how the call that makes [request] ends, on a connection of [who] that
    has sent [sent] so far and was opened when the log was [log]: [None]
    when the call returns, [Some e] when it raises [e] (an error of the
    engine or, in a task, the cancellation the event loop delivers there).
    [earliest log results] names, among gathered tasks that ended with
    [results], the one whose exception came first. *)
Record Env : Type := mkEnv {
  answer : list activity -> client -> list pg_request -> pg_request -> option exn;
  earliest : list activity -> list (option exn) -> nat
}.

(** The attributes of a [PGSqlite] object.  [target] is not one of them:
    it logs what the object has asked of the target engine. *)
Record PGSqlite : Type := mkPGSqlite {
  tables_sql : list Composable;
  fks_sql : list Composable;
  indexes_sql : list Composable;
  checks_sql_by_table : gmap string (list Composable);
  summary : Summary.t;
  transformers : gmap string (value -> bool -> res value);
  show_sample_data : bool;
  target : list activity
}.

Definition with_tables_sql f (self : PGSqlite) : PGSqlite :=
  mkPGSqlite (f (tables_sql self)) (fks_sql self) (indexes_sql self) (checks_sql_by_table self)
    (summary self) (transformers self) (show_sample_data self) (target self).
Definition with_fks_sql f (self : PGSqlite) : PGSqlite :=
  mkPGSqlite (tables_sql self) (f (fks_sql self)) (indexes_sql self) (checks_sql_by_table self)
    (summary self) (transformers self) (show_sample_data self) (target self).
Definition with_indexes_sql f (self : PGSqlite) : PGSqlite :=
  mkPGSqlite (tables_sql self) (fks_sql self) (f (indexes_sql self)) (checks_sql_by_table self)
    (summary self) (transformers self) (show_sample_data self) (target self).
Definition with_checks_sql_by_table f (self : PGSqlite) : PGSqlite :=
  mkPGSqlite (tables_sql self) (fks_sql self) (indexes_sql self) (f (checks_sql_by_table self))
    (summary self) (transformers self) (show_sample_data self) (target self).
Definition with_summary f (self : PGSqlite) : PGSqlite :=
  mkPGSqlite (tables_sql self) (fks_sql self) (indexes_sql self) (checks_sql_by_table self)
    (f (summary self)) (transformers self) (show_sample_data self) (target self).
Definition with_target f (self : PGSqlite) : PGSqlite :=
  mkPGSqlite (tables_sql self) (fks_sql self) (indexes_sql self) (checks_sql_by_table self)
    (summary self) (transformers self) (show_sample_data self) (f (target self)).

Definition _IGNORE_CHECKS : bool := true.
Definition _IGNORE_TRIGGERS : bool := true.
Definition _IGNORE_VIEWS : bool := true.

(** ** Type mapper *)

(** [PGSqlite.remap_column_type] *)
Definition remap_column_type (column_type : string) : string :=
  if PyStr.contains "STRING" column_type then "TEXT"
  else if PyStr.contains "NVARCHAR" column_type then
    PyStr.replace "NVARCHAR" "VARCHAR" column_type
  else if PyStr.contains "DATETIME" column_type then "TIMESTAMP"
  else if PyStr.contains "BLOB" column_type then "BYTEA"
  else column_type.

(** Whether one of the four rewrite rules applies to a type string. *)
Definition matches_rule (s : string) : bool :=
  PyStr.contains "STRING" s || PyStr.contains "NVARCHAR" s
  || PyStr.contains "DATETIME" s || PyStr.contains "BLOB" s.

(** ** Value transformer *)

(** [PGSqlite.boolean_transformer] *)
Definition boolean_transformer (val : value) (nullable : bool) : res value :=
  if nullable && negb (truthy val) then Ok VNone
  else if negb nullable && negb (truthy val) then
    Err (Exception "Value is None but column is not nullable")
  else
    let* is_true :=
      if eq_one val then Ok true else lower_eq val "true" in
    if is_true then Ok (VStr "TRUE") else Ok (VStr "FALSE").

(** [PGSqlite.__init__] *)
Definition init (show_sample_data : bool) : PGSqlite :=
  {| tables_sql := [];
     fks_sql := [];
     indexes_sql := [];
     checks_sql_by_table := ∅;
     summary := Summary.empty;
     transformers := {[ "BOOLEAN" := boolean_transformer ]};
     show_sample_data := show_sample_data;
     target := [] |}.

(** ** DDL synthesizer *)

(** The body of the column loop of [get_table_sql]. *)
Definition column_sql (column : Column.t) : res Composable :=
  let column_type := remap_column_type (Column.type column) in
  let* column_sql :=
    Sql.format ("    {name} " +:+ column_type) [("name", Identifier (Column.name column))] in
  let column_sql :=
    if Column.notnull column then Sql.join " " [column_sql; SQL "NOT NULL"]
    else column_sql in
  match Column.default_value column with
  | Some (String _ _ as default_value) =>
      let* default_sql :=
        Sql.format "DEFAULT {default_value}" [("default_value", Literal (VStr default_value))] in
      Ok (Sql.join " " [column_sql; default_sql])
  | _ => Ok column_sql
  end.

Definition nonempty {A} (l : list A) : bool :=
  match l with [] => false | _ :: _ => true end.

(** The primary-key clause of [get_table_sql]. *)
Definition pk_sql (table : Table.t) : res Composable :=
  let pk_name := "PK_" +:+ String.concat "" (Table.pks table) in
  Sql.format "    CONSTRAINT {pk_name} PRIMARY KEY ({pks})"
    [("table_name", Identifier (Table.name table));
     ("pk_name", Identifier pk_name);
     ("pks", Sql.join ", " (map Identifier (Table.pks table)))].

(** [PGSqlite.get_table_sql] *)
Definition get_table_sql (table : Table.t) (self : PGSqlite) : res (Composable * PGSqlite) :=
  let name := Table.name table in
  let* create_sql :=
    Sql.format "CREATE TABLE {table_name} (" [("table_name", Identifier name)] in
  let* columns_sql := mapM column_sql (Table.columns table) in
  let self :=
    with_summary (Summary.with_columns
      (Summary.prepared name "PREPARED" "count" (length (Table.columns table)))) self in
  let all_column_sql := Sql.join ("," +:+ PyStr.nl) columns_sql in
  let* all_column_sql :=
    if nonempty (Table.pks table) && negb (Table.use_rowid table) then
      let all_column_sql := Sql.add all_column_sql (SQL ("," +:+ PyStr.nl)) in
      let* pk_sql := pk_sql table in
      Ok (Sql.join "    " [all_column_sql; pk_sql])
    else Ok all_column_sql in
  let self :=
    with_summary (Summary.with_pks
      (Summary.prepared name "PREPARED" "count" (length (Table.pks table)))) self in
  match checks_sql_by_table self !! name with
  | None => Err (KeyError name)
  | Some checks =>
      let '(all_column_sql, status) :=
        if nonempty checks && negb _IGNORE_CHECKS then
          (Sql.join "" [Sql.add all_column_sql (SQL ("," +:+ PyStr.nl));
                        Sql.join ("," +:+ PyStr.nl) checks], "PREPARED")
        else (all_column_sql, "IGNORED") in
      let self :=
        with_summary (Summary.with_checks
          (Summary.prepared name status "count" (length checks))) self in
      Ok (Sql.join PyStr.nl [create_sql; all_column_sql; SQL ");"], self)
  end.

(** *** Reading a synthesized statement back *)

(** [c._obj] of a [Composed] *)
Definition children (c : Composable) : list Composable :=
  match c with Composed l => l | _ => [] end.

(** The identifier a clause starts with, below any wrapping of the clause
    by [join]. *)
Fixpoint clause_column (clause : Composable) : option string :=
  match clause with
  | Composed (SQL _ :: Identifier name :: _) => Some name
  | Composed (inner :: _) => clause_column inner
  | _ => None
  end.

(** Whether a clause is a named primary-key constraint. *)
Definition is_pk_clause (clause : Composable) : bool :=
  match clause with
  | Composed (SQL intro :: rest) =>
      if String.eqb intro "    CONSTRAINT " then
        match rest with
        | Identifier _ :: SQL kind :: _ => String.eqb kind " PRIMARY KEY ("
        | _ => false
        end
      else false
  | _ => false
  end.

(** The table a [CREATE TABLE] statement creates. *)
Definition created_table (ddl : Composable) : option string :=
  match ddl with
  | Composed (Composed (SQL intro :: Identifier name :: _) :: _) =>
      if String.eqb intro "CREATE TABLE " then Some name else None
  | _ => None
  end.

(** The clause [CONSTRAINT "PK_<columns>" PRIMARY KEY (<columns>)]. *)
Definition pk_clause (table : Table.t) : Composable :=
  Composed [SQL "    CONSTRAINT ";
            Identifier ("PK_" +:+ String.concat "" (Table.pks table));
            SQL " PRIMARY KEY (";
            Composed (Sql.sep_by (SQL ", ") (map Identifier (Table.pks table)));
            SQL ")"].

(** Whether a format template is plain text. *)
Definition brace_free (s : string) : bool :=
  Sql.all_chars (fun c => negb (Ascii.eqb c "{") && negb (Ascii.eqb c "}")) s.

(** [PGSqlite.get_fk_sql].  ["FK_" + fk.other_column] is a [TypeError]
    when the key has no parent column. *)
Definition get_fk_sql (table : Table.t) (self : PGSqlite) : res (list Composable * PGSqlite) :=
  let* sql :=
    mapM (fun fk =>
      let* other_column :=
        match ForeignKey.other_column fk with
        | Some other_column => Ok other_column
        | None => Err TypeError
        end in
      let fk_name := "FK_" +:+ other_column in
      Sql.format
        "ALTER TABLE {table_name} ADD CONSTRAINT {key_name}  FOREIGN KEY ({column}) REFERENCES {other_table} ({other_column})"
        [("table_name", Identifier (Table.name table));
         ("column", Identifier (ForeignKey.column fk));
         ("key_name", Identifier fk_name);
         ("other_table", Identifier (ForeignKey.other_table fk));
         ("other_column", Identifier other_column)])
      (Table.foreign_keys table) in
  let self :=
    with_summary (Summary.with_fks
      (Summary.prepared (Table.name table) "PREPARED" "count"
         (length (Table.foreign_keys table)))) self in
  Ok (sql, self).

(** The inner loop of [get_index_sql]: one entry per named column. *)
Fixpoint index_col_sql (columns : list XIndexColumn.t) : res (list Composable) :=
  match columns with
  | [] => Ok []
  | col :: rest =>
      match XIndexColumn.name col with
      | None | Some EmptyString => index_col_sql rest
      | Some name =>
          let order := if XIndexColumn.desc col then "DESC" else "ASC" in
          let* c :=
            Sql.format "{name} {sort_order}"
              [("name", Identifier name); ("sort_order", SQL order)] in
          let* cs := index_col_sql rest in
          Ok (c :: cs)
      end
  end.

(** The named entries of an index, each with its descending flag. *)
Fixpoint named_columns (columns : list XIndexColumn.t) : list (string * bool) :=
  match columns with
  | [] => []
  | col :: rest =>
      match XIndexColumn.name col with
      | None | Some EmptyString => named_columns rest
      | Some name => (name, XIndexColumn.desc col) :: named_columns rest
      end
  end.

(** The entry [<name> ASC] or [<name> DESC] of an index column list. *)
Definition sort_entry (entry : string * bool) : Composable :=
  Composed [Identifier (fst entry); SQL " "; SQL (if snd entry then "DESC" else "ASC")].

(** Whether an index entry has no usable name. *)
Definition unnamed (col : XIndexColumn.t) : bool :=
  match XIndexColumn.name col with
  | None | Some EmptyString => true
  | Some _ => false
  end.

(** The body of the outer loop of [get_index_sql]. *)
Definition index_sql (table : Table.t) (index : XIndex.t) : res Composable :=
  let* col_sql := index_col_sql (XIndex.columns index) in
  Sql.format "CREATE INDEX {index_name} ON {table_name} ({columns})"
    [("index_name", Identifier (XIndex.name index));
     ("table_name", Identifier (Table.name table));
     ("columns", Sql.join "," col_sql)].

(** [PGSqlite.get_index_sql] *)
Definition get_index_sql (table : Table.t) (self : PGSqlite) : res (list Composable * PGSqlite) :=
  let* sql := mapM (index_sql table) (Table.xindexes table) in
  let self :=
    with_summary (Summary.with_indexes
      (Summary.prepared (Table.name table) "PREPARED" "count"
         (length (Table.xindexes table)))) self in
  Ok (sql, self).

(** ** Sample catalog *)

Definition users : Table.t :=
  Table.mk "Users"
    [Column.mk 0 "id" "INTEGER" false None true;
     Column.mk 1 "active" "BOOLEAN" true None false;
     Column.mk 2 "nickname" "NVARCHAR(20)" false None false]
    ["id"] false [] [].

(** A table whose only index is over an expression. *)
Definition events : Table.t :=
  Table.mk "events"
    [Column.mk 0 "at" "DATETIME" false None false]
    ["rowid"] true []
    [XIndex.mk "events_day" [XIndexColumn.mk 0 None false]].

(** A definition with a bracket-quoted column under a check. *)
Definition measures : SourceTable.t :=
  SourceTable.mk
    (Table.mk "measures" [Column.mk 0 "level" "INTEGER" false None false]
       ["rowid"] true [] [])
    ("CREATE TABLE measures (" +:+ PyStr.nl +:+
     "  [level] INTEGER," +:+ PyStr.nl +:+
     "  CHECK ([level] > 0)" +:+ PyStr.nl +:+
     ")")
    [].

(** A definition whose first line holds the letters CHECK in the table name. *)
Definition checklist : SourceTable.t :=
  SourceTable.mk
    (Table.mk "CHECKLIST" [Column.mk 0 "id" "INTEGER" false None false]
       ["rowid"] true [] [])
    ("CREATE TABLE CHECKLIST (" +:+ PyStr.nl +:+
     "  id INTEGER" +:+ PyStr.nl +:+
     ")")
    [].

Definition sqlite_sequence : Table.t :=
  Table.mk "sqlite_sequence"
    [Column.mk 0 "name" "" false None false;
     Column.mk 1 "seq" "" false None false]
    ["rowid"] true [] [].

Definition users_source : SourceTable.t :=
  SourceTable.mk users
    ("CREATE TABLE Users (" +:+ PyStr.nl +:+
     "  id INTEGER PRIMARY KEY AUTOINCREMENT," +:+ PyStr.nl +:+
     "  active BOOLEAN NOT NULL," +:+ PyStr.nl +:+
     "  nickname NVARCHAR(20)" +:+ PyStr.nl +:+
     ")")
    [[VInt 1; VInt 1; VStr ""]].

Definition sequence_source : SourceTable.t :=
  SourceTable.mk sqlite_sequence "CREATE TABLE sqlite_sequence(name,seq)"
    [[VStr "Users"; VInt 1]].

Definition sample_db : Database.t :=
  Database.mk [users_source; sequence_source] [] [].

(** ** Check-constraint extractor *)

(** [s.index(sub)] and [s.rindex(sub)] *)
Definition index (sub s : string) : res nat :=
  match PyStr.find sub s with Some i => Ok i | None => Err ValueError end.

Definition rindex (sub s : string) : res nat :=
  match PyStr.rfind sub s with Some i => Ok i | None => Err ValueError end.

Definition is_comma (c : ascii) : bool := Ascii.eqb c ",".

(** The body of the line loop of [get_check_constraints], on the pair of
    the table's check list and the [transpile] text. *)
Definition scan_line (acc : list Composable * string) (line : string)
  : res (list Composable * string) :=
  let '(checks, transpile) := acc in
  if PyStr.contains "CHECK" line then
    let* start := index "(" line in
    let* end_ := rindex ")" line in
    let sql_expr := String.substring (start + 1) (end_ - (start + 1)) line in
    let clean_check_str := "    " +:+ PyStr.rstrip_with is_comma (PyStr.strip line) in
    Ok (checks ++ [SQL clean_check_str], transpile)
  else Ok (checks, transpile +:+ PyStr.nl +:+ line).

Fixpoint scan_lines (acc : list Composable * string) (lines : list string)
  : res (list Composable * string) :=
  match lines with
  | [] => Ok acc
  | line :: rest => let* acc := scan_line acc line in scan_lines acc rest
  end.

(** The identifier rewriting applied to [transpile] once the lines are read. *)
Definition normalize_quotes (transpile : string) : string :=
  PyStr.replace "`" PyStr.dquote
    (PyStr.replace "]" PyStr.dquote (PyStr.replace "[" PyStr.dquote transpile)).

(** One row of [sqlite_master]: the table's check list, and the final value
    of the local [transpile], which nothing reads afterwards. *)
Definition scan_table_sql (sql : string) : res (list Composable * string) :=
  let* (checks, transpile) := scan_lines ([], EmptyString) (PyStr.split_on "010" sql) in
  Ok (checks, normalize_quotes transpile).

Fixpoint scan_master (checks : gmap string (list Composable)) (master : list (string * string))
  : res (gmap string (list Composable)) :=
  match master with
  | [] => Ok checks
  | (name, sql) :: rest =>
      let* (table_checks, _) := scan_table_sql sql in
      scan_master (<[name := table_checks]> checks) rest
  end.

(** The check clauses of a table definition, read off its lines: every
    line containing "CHECK", indented, trimmed, trailing commas removed. *)
Definition check_clauses (sql : string) : list Composable :=
  map (fun line => SQL ("    " +:+ PyStr.rstrip_with is_comma (PyStr.strip line)))
    (List.filter (PyStr.contains "CHECK") (PyStr.split_on "010" sql)).

(** The other lines, each after a line break. *)
Definition other_lines (sql : string) : string :=
  String.concat EmptyString
    (map (fun line => PyStr.nl +:+ line)
       (List.filter (fun line => negb (PyStr.contains "CHECK" line))
          (PyStr.split_on "010" sql))).

(** Whether every line with "CHECK" has an opening and a closing parenthesis. *)
Definition checks_parenthesised (sql : string) : bool :=
  forallb (fun line =>
    implb (PyStr.contains "CHECK" line)
      (PyStr.contains "(" line && PyStr.contains ")" line))
    (PyStr.split_on "010" sql).

(** The checks map with the clauses of one more row of [sqlite_master]. *)
Definition record_checks (checks : gmap string (list Composable)) (row : string * string)
  : gmap string (list Composable) :=
  <[fst row := check_clauses (snd row)]> checks.

(** The rows of [select name, sql from sqlite_master where type=table] *)
Definition master_rows (db : Database.t) : list (string * string) :=
  map (fun st => (Table.name (SourceTable.table st), SourceTable.sql st)) (Database.tables db).

(** [PGSqlite.get_check_constraints] *)
Definition get_check_constraints (db : Database.t) : res (gmap string (list Composable)) :=
  scan_master ∅ (master_rows db).

(** ** Calls that raise *)

(** How a method of the loader ends: it returns or it raises, and either
    way the object is as the statements executed so far have left it. *)
Inductive outcome : Type :=
| Returned (self : PGSqlite)
| Raised (e : exn) (self : PGSqlite).

Definition and_then (o : outcome) (k : PGSqlite -> outcome) : outcome :=
  match o with
  | Returned self => k self
  | Raised e self => Raised e self
  end.

Notation "'let+' x ':=' o 'in' k" := (and_then o (fun x => k))
  (at level 10, x name, o at level 100, k at level 200).

Definition is_returned (o : outcome) : bool :=
  match o with Returned _ => true | Raised _ _ => false end.

(** The object a call leaves, returned or raised. *)
Definition left_by (o : outcome) : PGSqlite :=
  match o with Returned self | Raised _ self => self end.

(** A [for] loop over a sequence, stopping at the first exception. *)
Fixpoint for_each {A} (body : PGSqlite -> A -> outcome) (seq : list A) (self : PGSqlite)
  : outcome :=
  match seq with
  | [] => Returned self
  | x :: rest => let+ self := body self x in for_each body rest self
  end.

(** A call of a synthesizer: [at_raise] is the object as the call leaves it
    when it raises. *)
Definition attempt {A} (r : res (A * PGSqlite)) (at_raise : PGSqlite)
    (k : A -> PGSqlite -> outcome) : outcome :=
  match r with
  | Ok (a, self) => k a self
  | Err e => Raised e at_raise
  end.

(** ** Code that holds a connection

    Such code runs from what has been sent on the connection and the
    object, to what has been sent, the object, and a result or exception. *)
Definition conn (A : Type) : Type :=
  list pg_request -> PGSqlite -> list pg_request * PGSqlite * res A.

Definition ret {A} (a : A) : conn A := fun sent self => (sent, self, Ok a).

Definition conn_bind {A B} (c : conn A) (k : A -> conn B) : conn B :=
  fun sent self =>
    match c sent self with
    | (sent, self, Ok a) => k a sent self
    | (sent, self, Err e) => (sent, self, Err e)
    end.

Notation "'let!' x ':=' c 'in' k" := (conn_bind c (fun x => k))
  (at level 10, x pattern, c at level 100, k at level 200).

(** An expression that may raise, evaluated on the object. *)
Definition eval {A} (f : PGSqlite -> res A) : conn A :=
  fun sent self => (sent, self, f self).

(** An assignment to the object that may raise. *)
Definition assign (f : PGSqlite -> res PGSqlite) : conn unit :=
  fun sent self =>
    match f self with
    | Ok self' => (sent, self', Ok tt)
    | Err e => (sent, self, Err e)
    end.

(** An assignment that cannot raise. *)
Definition update (f : PGSqlite -> PGSqlite) : conn unit :=
  fun sent self => (sent, f self, Ok tt).

Section Connection.

(** The answers on the connection at hand. *)
Variable ask : list pg_request -> pg_request -> option exn.

(** A call of the driver: the request is made, and the call raises what
    the engine answers, if it answers with an exception. *)
Definition call (request : pg_request) : conn unit :=
  fun sent self =>
    (sent ++ [request], self,
     match ask sent request with Some e => Err e | None => Ok tt end).

(** A [with] block of the driver.  Entering makes the request [enter].
    When the body returns, leaving makes the request [leave], which can
    raise; when the body raises, leaving makes the request [escape] and the
    exception of the body goes on. *)
Definition block {A} (enter leave escape : pg_request) (body : conn A) : conn A :=
  let! _ := call enter in
  fun sent self =>
    match body sent self with
    | (sent, self, Ok a) => (let! _ := call leave in ret a) sent self
    | (sent, self, Err e) => (sent ++ [escape], self, Err e)
    end.

(** [with psycopg.connect(conninfo) as conn: body], also in its [async]
    form: the transaction is committed when the body returns and rolled
    back when it raises. *)
Definition connection {A} (body : conn A) : conn A :=
  block PgConnect PgCommit PgRollback body.

(** [async with pg_cur.copy(command) as copy: body] *)
Definition copying {A} (command : string) (body : conn A) : conn A :=
  block (PgCopy command) PgCopyEnd PgCopyAbort body.

(** [for statement in statements: cur.execute(statement)] *)
Fixpoint execute_all (statements : list Composable) : conn unit :=
  match statements with
  | [] => ret tt
  | statement :: rest => let! _ := call (PgExecute statement) in execute_all rest
  end.

End Connection.

(** A connection opened by the main program, from [connect] to the end of
    its [with] block: its requests make one [Session] of the log. *)
Definition session (env : Env)
    (body : (list pg_request -> pg_request -> option exn) -> conn unit) (self : PGSqlite)
  : outcome :=
  let ask := answer env (target self) Main in
  let '(sent, self', r) := connection ask (body ask) [] self in
  let self' := with_target (fun log => log ++ [Session sent]) self' in
  match r with
  | Ok _ => Returned self'
  | Err e => Raised e self'
  end.

(** ** Schema build *)

(** [db.tables] *)
Definition db_tables (db : Database.t) : list Table.t :=
  map SourceTable.table (Database.tables db).

(** The tables [load_schema] synthesizes DDL for. *)
Definition kept (table : Table.t) : bool :=
  negb (String.eqb (Table.name table) "sqlite_sequence").

(** The body of the loop of [_drop_tables]. *)
Definition drop_table (ask : list pg_request -> pg_request -> option exn) (table : Table.t)
  : conn unit :=
  let! statement :=
    eval (fun _ =>
      Sql.format "DROP TABLE IF EXISTS {table_name} CASCADE;"
        [("table_name", Identifier (Table.name table))]) in
  call ask (PgExecute statement).

Fixpoint drop_tables (ask : list pg_request -> pg_request -> option exn) (tables : list Table.t)
  : conn unit :=
  match tables with
  | [] => ret tt
  | table :: rest => let! _ := drop_table ask table in drop_tables ask rest
  end.

(** [PGSqlite._drop_tables] *)
Definition _drop_tables (env : Env) (db : Database.t) (self : PGSqlite) : outcome :=
  session env (fun ask => drop_tables ask (db_tables db)) self.

(** The object as a call of [get_table_sql] that raises leaves it.  A
    column clause that cannot be formatted raises before anything is
    assigned; the lookup in the checks map raises after the columns and pks
    entries of the summary are written and the table's checks entry is
    made empty. *)
Definition get_table_sql_raised (table : Table.t) (self : PGSqlite) : PGSqlite :=
  let name := Table.name table in
  if is_ok (mapM column_sql (Table.columns table)) then
    with_summary (Summary.with_checks (insert name ∅))
      (with_summary (Summary.with_pks
         (Summary.prepared name "PREPARED" "count" (length (Table.pks table))))
         (with_summary (Summary.with_columns
            (Summary.prepared name "PREPARED" "count" (length (Table.columns table)))) self))
  else self.

(** The body of the table loop of [load_schema].  [get_fk_sql] and
    [get_index_sql] assign to the object after their loops only, so a raise
    from them leaves it as they found it. *)
Definition load_table_schema (self : PGSqlite) (table : Table.t) : outcome :=
  if String.eqb (Table.name table) "sqlite_sequence" then Returned self
  else
    attempt (get_table_sql table self) (get_table_sql_raised table self)
      (fun table_sql self =>
         let self := with_tables_sql (fun l => l ++ [table_sql]) self in
         attempt (get_fk_sql table self) self
           (fun fks self =>
              let self := with_fks_sql (fun l => l ++ fks) self in
              attempt (get_index_sql table self) self
                (fun indexes self =>
                   Returned (with_indexes_sql (fun l => l ++ indexes) self)))).

Definition ignored : gmap string sval := {[ "status" := SStr "IGNORED" ]}.

(** [PGSqlite.load_schema] *)
Definition load_schema (env : Env) (db : Database.t) (drop_existing_postgres_tables : bool)
    (self : PGSqlite) : outcome :=
  let+ self :=
    if drop_existing_postgres_tables then _drop_tables env db self else Returned self in
  match get_check_constraints db with
  | Err e => Raised e self
  | Ok checks =>
      let self := with_checks_sql_by_table (fun _ => checks) self in
      let+ self := for_each load_table_schema (db_tables db) self in
      let+ self :=
        if negb _IGNORE_VIEWS then
          for_each (fun self view =>
            Returned (with_summary (Summary.with_views (insert view ignored)) self))
            (Database.views db) self
        else Returned self in
      if negb _IGNORE_TRIGGERS then
        for_each (fun self trigger =>
          Raised NameError (with_summary (Summary.with_triggers (insert trigger ∅)) self))
          (Database.triggers db) self
      else Returned self
  end.

(** ** Bulk loader *)

(** [row[idx]] *)
Definition getitem (row : list value) (idx : nat) : res value :=
  match row !! idx with Some v => Ok v | None => Err IndexError end.

(** The first statement of the column loop of [write_table_data]: the
    transformer registered for the column's type, if any. *)
Definition apply_transformer (transformers : gmap string (value -> bool -> res value))
    (c : Column.t) (idx : nat) (row : list value) : res (list value) :=
  match transformers !! Column.type c with
  | Some transformer =>
      let* v := getitem row idx in
      let* v' := transformer v (negb (Column.notnull c)) in
      Ok (<[idx := v']> row)
  | None => Ok row
  end.

(** The second statement: the empty-to-null rule of nullable columns. *)
Definition coerce_empty (c : Column.t) (idx : nat) (row : list value) : res (list value) :=
  if negb (Column.notnull c) then
    let* v := getitem row idx in
    if negb (eq_zero v) && negb (truthy v) then Ok (<[idx := VNone]> row)
    else Ok row
  else Ok row.

(** The column loop of [write_table_data] from index [idx] on. *)
Fixpoint transform_row (transformers : gmap string (value -> bool -> res value))
    (columns : list Column.t) (idx : nat) (row : list value) : res (list value) :=
  match columns with
  | [] => Ok row
  | c :: rest =>
      let* row := apply_transformer transformers c idx row in
      let* row := coerce_empty c idx row in
      transform_row transformers rest (S idx) row
  end.

(** What the type transformer of a column, if there is one, makes of a value. *)
Definition after_transformer (transformers : gmap string (value -> bool -> res value))
    (c : Column.t) (v : value) : res value :=
  match transformers !! Column.type c with
  | Some transformer => transformer v (negb (Column.notnull c))
  | None => Ok v
  end.

(** What the empty-to-null rule then leaves in the row. *)
Definition coerced (c : Column.t) (v : value) : value :=
  if negb (Column.notnull c) && (negb (eq_zero v) && negb (truthy v)) then VNone else v.

Definition loaded (rows_copied : nat) : string := "LOADED " +:+ pretty rows_copied.

Definition set_data_status (name status : string) (self : PGSqlite) : res PGSqlite :=
  let* data := Summary.set_status name status (Summary.data (summary self)) in
  Ok (with_summary (Summary.with_data (fun _ => data)) self).

Definition copy_command (table : Table.t) : string :=
  "COPY " +:+ PyStr.dquote +:+ Table.name table +:+ PyStr.dquote +:+ " FROM STDIN".

(** The row loop of [write_table_data], over the rows its source cursor
    yields. *)
Fixpoint copy_rows (ask : list pg_request -> pg_request -> option exn) (table : Table.t)
    (rows : list (list value)) (rows_copied : nat) : conn nat :=
  match rows with
  | [] => ret rows_copied
  | row :: rest =>
      let! row :=
        eval (fun self => transform_row (transformers self) (Table.columns table) 0 row) in
      let! _ := call ask (PgWriteRow row) in
      let rows_copied := S rows_copied in
      let! _ :=
        if (rows_copied mod 1000 =? 0)%nat
        then assign (set_data_status (Table.name table) (loaded rows_copied))
        else ret tt in
      copy_rows ask table rest rows_copied
  end.

(** [PGSqlite.write_table_data], given the rows of the table in the source
    and the answers on the connection it opens. *)
Definition write_table_data (ask : list pg_request -> pg_request -> option exn)
    (table : Table.t) (rows : list (list value)) : conn unit :=
  connection ask
    (copying ask (copy_command table)
       (let! rows_copied := copy_rows ask table rows 0 in
        assign (set_data_status (Table.name table) (loaded rows_copied)))).

(** The summary entry a table has once the load is prepared. *)
Definition prepared_entry (row_count : nat) : gmap string sval :=
  <["row_count" := SNum row_count]> (<["status" := SStr "PREPARED"]> ∅).

(** The body of the first loop of [load_data_to_postgres]. *)
Definition prepare_data (self : PGSqlite) (st : SourceTable.t) : PGSqlite :=
  with_summary (Summary.with_data
    (Summary.prepared (Table.name (SourceTable.table st)) "PREPARED" "row_count"
       (length (SourceTable.rows st)))) self.

(** A load task: the coroutine [self.write_table_data(table)] with the rows
    its cursor will read. *)
Record task : Type := mk_task {
  task_table : Table.t;
  task_rows : list (list value)
}.

(** [[self.write_table_data(table) for table in db.tables]] *)
Definition load_tasks (db : Database.t) : list task :=
  map (fun st => mk_task (SourceTable.table st) (SourceTable.rows st)) (Database.tables db).

(** The tasks of a gather from the n-th on, each run to its end on a
    connection of its own against the answers it gets there: the requests
    of each connection, how each task ended, and the object after all of
    them.  The tasks assign to the object under their own table's name
    only. *)
Fixpoint run_tasks (env : Env) (log : list activity) (n : nat) (tasks : list task)
    (self : PGSqlite) : list (list pg_request) * list (option exn) * PGSqlite :=
  match tasks with
  | [] => ([], [], self)
  | t :: rest =>
      let '(sent, self, r) :=
        write_table_data (answer env log (Task n)) (task_table t) (task_rows t) [] self in
      let '(sessions, results, self) := run_tasks env log (S n) rest self in
      (sent :: sessions, match r with Ok _ => None | Err e => Some e end :: results, self)
  end.

(** The exception [asyncio.gather] passes on: that of the task that raised
    first. *)
Definition raised_first (env : Env) (log : list activity) (results : list (option exn))
  : option exn :=
  match results !! earliest env log results with
  | Some (Some e) => Some e
  | _ => head (omap id results)
  end.

(** [asyncio.run(load_all_data())]: the tasks are gathered; when one of
    them raises, the others end as the event loop makes them (they go on or
    are cancelled at a call) and the first exception is raised. *)
Definition gather (env : Env) (tasks : list task) (self : PGSqlite) : outcome :=
  let '(sessions, results, self') := run_tasks env (target self) 0 tasks self in
  let self' := with_target (fun log => log ++ [Gathered sessions]) self' in
  match raised_first env (target self) results with
  | Some e => Raised e self'
  | None => Returned self'
  end.

Definition sample_query (table : Table.t) : Composable :=
  SQL ("SELECT * from " +:+ PyStr.dquote +:+ Table.name table +:+ PyStr.dquote +:+ " LIMIT 10").

(** The body of the last loop of [load_data_to_postgres]. *)
Definition show_sample (env : Env) (self : PGSqlite) (table : Table.t) : outcome :=
  session env (fun ask => call ask (PgExecute (sample_query table))) self.

(** [PGSqlite.load_data_to_postgres] *)
Definition load_data_to_postgres (env : Env) (db : Database.t) (self : PGSqlite) : outcome :=
  let self := fold_left prepare_data (Database.tables db) self in
  let+ self := gather env (load_tasks db) self in
  if show_sample_data self then for_each (show_sample env) (db_tables db) self
  else Returned self.

(** ** Orchestration *)

(** [PGSqlite.get_summary] *)
Definition get_summary (self : PGSqlite) : Summary.t := summary self.

(** The loops [for table in category: category[table]["status"] = "CREATED"] *)
Definition mark_created (category : gmap string (gmap string sval))
  : gmap string (gmap string sval) :=
  insert "status" (SStr "CREATED") <$> category.

(** [PGSqlite.populate_postgres], on the source file [db] the object was
    made for. *)
Definition populate_postgres (env : Env) (db : Database.t) (self : PGSqlite) : outcome :=
  let+ self :=
    session env (fun ask =>
      let! _ := execute_all ask (tables_sql self) in
      let! _ := update (with_summary (Summary.with_columns mark_created)) in
      update (with_summary (Summary.with_pks mark_created))) self in
  let+ self := load_data_to_postgres env db self in
  session env (fun ask =>
    let! _ := execute_all ask (fks_sql self) in
    let! _ := update (with_summary (Summary.with_fks mark_created)) in
    let! _ := execute_all ask (indexes_sql self) in
    update (with_summary (Summary.with_indexes mark_created))) self.

(** The script under [if __name__ == "__main__"], from the parsed
    arguments on. *)
Definition main (env : Env) (db : Database.t)
    (show_sample_data drop_tables drop_tables_after_import : bool) : outcome :=
  let loader := init show_sample_data in
  let+ loader := load_schema env db drop_tables loader in
  let+ loader := populate_postgres env db loader in
  let _ := get_summary loader in
  if drop_tables_after_import then _drop_tables env db loader else Returned loader.

(** ** Two environments *)

(** A target that refuses nothing. *)
Definition accepting : Env := mkEnv (fun _ _ _ _ => None) (fun _ _ => 0).

(** The statements of the sessions of a log that ended in a commit. *)
Definition committed (log : list activity) : list Composable :=
  flat_map (fun a =>
    match a with
    | Session requests =>
        match last requests with
        | Some PgCommit =>
            omap (fun r => match r with PgExecute s => Some s | _ => None end) requests
        | _ => []
        end
    | Gathered _ => []
    end) log.

(** A target that starts without tables, as far as copying goes: a copy
    into a table that no committed session has created is refused, all
    else is accepted. *)
Definition empty_target : Env :=
  mkEnv (fun log _ _ request =>
           match request with
           | PgCopy command =>
               if existsb (fun ddl =>
                    match created_table ddl with
                    | Some name =>
                        String.eqb command
                          ("COPY " +:+ PyStr.dquote +:+ name +:+ PyStr.dquote +:+ " FROM STDIN")
                    | None => false
                    end) (committed log)
               then None
               else Some (PsycopgError "UndefinedTable")
           | _ => None
           end)
        (fun _ _ => 0).

(** ** What the synthesizer builds, written out *)

(** The statement of [get_table_sql] over given column clauses. *)
Definition table_ddl (table : Table.t) (clauses : list Composable) : Composable :=
  Composed
    [Composed [SQL "CREATE TABLE "; Identifier (Table.name table); SQL " ("];
     SQL PyStr.nl;
     (if nonempty (Table.pks table) && negb (Table.use_rowid table)
      then Composed [Composed (Sql.sep_by (SQL ("," +:+ PyStr.nl)) clauses
                               ++ [SQL ("," +:+ PyStr.nl)]);
                     SQL "    "; pk_clause table]
      else Composed (Sql.sep_by (SQL ("," +:+ PyStr.nl)) clauses));
     SQL PyStr.nl;
     SQL ");"].

Definition table_statement (table : Table.t) : res Composable :=
  let* clauses := mapM column_sql (Table.columns table) in
  Ok (table_ddl table clauses).

(** The column clause for a type text without format braces. *)
Definition plain_column_clause (column : Column.t) : Composable :=
  let base :=
    Composed [SQL "    "; Identifier (Column.name column);
              SQL (" " +:+ remap_column_type (Column.type column))] in
  let base :=
    if Column.notnull column then Composed [base; SQL " "; SQL "NOT NULL"] else base in
  match Column.default_value column with
  | Some (String _ _ as default_value) =>
      Composed [base; SQL " "; Composed [SQL "DEFAULT "; Literal (VStr default_value)]]
  | _ => base
  end.

(** The statement for a foreign key whose parent column is [other_column]. *)
Definition fk_statement (table : Table.t) (fk : ForeignKey.t) (other_column : string)
  : Composable :=
  Composed [SQL "ALTER TABLE "; Identifier (Table.name table);
            SQL " ADD CONSTRAINT "; Identifier ("FK_" +:+ other_column);
            SQL "  FOREIGN KEY ("; Identifier (ForeignKey.column fk);
            SQL ") REFERENCES "; Identifier (ForeignKey.other_table fk);
            SQL " ("; Identifier other_column; SQL ")"].

(** The statements for the foreign keys of a table that name their parent
    column. *)
Definition fk_statements (table : Table.t) : list Composable :=
  omap (fun fk => fk_statement table fk <$> ForeignKey.other_column fk)
    (Table.foreign_keys table).

(** Whether every foreign key of a table names its parent column. *)
Definition parents_named (table : Table.t) : bool :=
  forallb (fun fk => bool_decide (is_Some (ForeignKey.other_column fk)))
    (Table.foreign_keys table).

(** The name a foreign-key statement gives its constraint. *)
Definition constraint_name (statement : Composable) : option string :=
  match statement with
  | Composed (_ :: _ :: _ :: Identifier name :: _) => Some name
  | _ => None
  end.

Definition index_statement (table : Table.t) (index : XIndex.t) : Composable :=
  Composed [SQL "CREATE INDEX "; Identifier (XIndex.name index);
            SQL " ON "; Identifier (Table.name table); SQL " (";
            Composed (Sql.sep_by (SQL ",")
                        (map sort_entry (named_columns (XIndex.columns index))));
            SQL ")"].

Definition index_statements (table : Table.t) : list Composable :=
  map (index_statement table) (Table.xindexes table).

Definition drop_statement (table : Table.t) : Composable :=
  Composed [SQL "DROP TABLE IF EXISTS "; Identifier (Table.name table); SQL " CASCADE;"].

(** The requests of a connection on which the given statements are
    executed and committed. *)
Definition statements_session (statements : list Composable) : list pg_request :=
  PgConnect :: map PgExecute statements ++ [PgCommit].

(** The requests of a connection on which the given rows are copied into a
    table and committed. *)
Definition copy_session (table : Table.t) (rows : list (list value)) : list pg_request :=
  PgConnect :: PgCopy (copy_command table) :: map PgWriteRow rows ++ [PgCopyEnd; PgCommit].

(** Whether the engine accepts each of a run of requests in turn. *)
Fixpoint accepted (ask : list pg_request -> pg_request -> option exn)
    (sent requests : list pg_request) : bool :=
  match requests with
  | [] => true
  | request :: rest =>
      match ask sent request with
      | None => accepted ask (sent ++ [request]) rest
      | Some _ => false
      end
  end.

(** A summary entry [{"status": status, field: n}]. *)
Definition entry (status field : string) (n : nat) : gmap string sval :=
  <[field := SNum n]> (<["status" := SStr status]> ∅).

(** The summary after the schema of one table is prepared, the table
    having [n_checks] extracted check clauses. *)
Definition note_table (n_checks : nat) (table : Table.t) (s : Summary.t) : Summary.t :=
  let name := Table.name table in
  Summary.mk
    (<[name := entry "PREPARED" "count" (length (Table.columns table))]> (Summary.columns s))
    (<[name := entry "PREPARED" "count" (length (Table.pks table))]> (Summary.pks s))
    (<[name := entry "PREPARED" "count" (length (Table.foreign_keys table))]> (Summary.fks s))
    (<[name := entry "IGNORED" "count" n_checks]> (Summary.checks s))
    (Summary.data s)
    (<[name := entry "PREPARED" "count" (length (Table.xindexes table))]> (Summary.indexes s))
    (Summary.views s) (Summary.triggers s).

(** The summary after the schemas of several tables are prepared in turn. *)
Definition note_tables (checks : gmap string (list Composable)) (tables : list Table.t)
    (s : Summary.t) : Summary.t :=
  fold_left
    (fun s table => note_table (length (default [] (checks !! Table.name table))) table s)
    tables s.

(** The object with more statements in its three lists and another
    summary, all else kept. *)
Definition built (ddls fks indexes : list Composable) (s : Summary.t) (self : PGSqlite)
  : PGSqlite :=
  mkPGSqlite (tables_sql self ++ ddls) (fks_sql self ++ fks) (indexes_sql self ++ indexes)
    (checks_sql_by_table self) s (transformers self) (show_sample_data self) (target self).

(** The object with another data summary and target log, all else kept. *)
Definition loading (log : list activity) (data : gmap string (gmap string sval))
    (self : PGSqlite) : PGSqlite :=
  mkPGSqlite (tables_sql self) (fks_sql self) (indexes_sql self) (checks_sql_by_table self)
    (Summary.mk (Summary.columns (summary self)) (Summary.pks (summary self))
       (Summary.fks (summary self)) (Summary.checks (summary self)) data
       (Summary.indexes (summary self)) (Summary.views (summary self))
       (Summary.triggers (summary self)))
    (transformers self) (show_sample_data self) log.

Definition source_name (st : SourceTable.t) : string := Table.name (SourceTable.table st).

(** The data summary once the load of the given tables is prepared. *)
Definition prepared_data (tables : list SourceTable.t) (data : gmap string (gmap string sval))
  : gmap string (gmap string sval) :=
  fold_left (fun d st => <[source_name st := prepared_entry (length (SourceTable.rows st))]> d)
    tables data.


(** The rows a table's copy channel receives. *)
Definition copied_rows (transformers : gmap string (value -> bool -> res value))
    (table : Table.t) (rows : list (list value)) : res (list (list value)) :=
  mapM (transform_row transformers (Table.columns table) 0) rows.

(** What the connection of a table's load task is asked when the load of
    the table goes through: the copy of its transformed rows. *)
Definition copies_table (transformers : gmap string (value -> bool -> res value))
    (st : SourceTable.t) (sent : list pg_request) : Prop :=
  exists rows',
    copied_rows transformers (SourceTable.table st) (SourceTable.rows st) = Ok rows'
    /\ sent = copy_session (SourceTable.table st) rows'.

(** The summary entry of a table whose load has finished. *)
Definition loaded_entry (n : nat) : gmap string sval :=
  <["status" := SStr (loaded n)]> (prepared_entry n).

Definition is_upper (c : ascii) : bool :=
  let n := nat_of_ascii c in ((65 <=? n) && (n <=? 90))%nat.

Definition is_number (v : value) : bool :=
  match v with VInt _ | VFloat _ => true | _ => false end.

(** ** More sample data *)

(** Two foreign keys to columns that are both called [id]. *)
Definition orders : Table.t :=
  Table.mk "orders"
    [Column.mk 0 "id" "INTEGER" true None true;
     Column.mk 1 "user_id" "INTEGER" true None false;
     Column.mk 2 "item_id" "INTEGER" true None false;
     Column.mk 3 "note" "STRING" false (Some "none") false]
    ["id"] false
    [ForeignKey.mk "orders" "item_id" "items" (Some "id");
     ForeignKey.mk "orders" "user_id" "Users" (Some "id")]
    [XIndex.mk "orders_by_user"
       [XIndexColumn.mk 0 (Some "user_id") false;
        XIndexColumn.mk 1 None false;
        XIndexColumn.mk 2 (Some "item_id") true]].

(** A foreign key declared as [REFERENCES parent], without a column. *)
Definition child : Table.t :=
  Table.mk "child"
    [Column.mk 0 "id" "INTEGER" false None false;
     Column.mk 1 "p" "INTEGER" false None false]
    ["rowid"] true
    [ForeignKey.mk "child" "p" "parent" None]
    [].

Definition child_source : SourceTable.t :=
  SourceTable.mk child "CREATE TABLE child (id INTEGER, p INTEGER REFERENCES parent)" [].

(** A column whose declared type, written in quotes, ends in a brace. *)
Definition odd : Table.t :=
  Table.mk "odd" [Column.mk 0 "a" "INT}" false None false] ["rowid"] true [] [].

(** * Properties *)

(** ** The embedding on the design's examples *)

Example remap_nvarchar_20 : remap_column_type "NVARCHAR(20)" = "VARCHAR(20)".
Proof. reflexivity. Qed.

Example users_row_loaded :
  transform_row (transformers (init false)) (Table.columns users) 0 [VInt 1; VInt 1; VStr ""]
  = Ok [VInt 1; VStr "TRUE"; VNone].
Proof. reflexivity. Qed.

Example zero_kept_in_nullable_column :
  transform_row (transformers (init false)) (Table.columns users) 0 [VInt 0; VInt 1; VInt 0]
  = Ok [VInt 0; VStr "TRUE"; VInt 0].
Proof. reflexivity. Qed.

Example required_boolean_without_value :
  transform_row (transformers (init false)) (Table.columns users) 0 [VInt 1; VInt 0; VStr "x"]
  = Err (Exception "Value is None but column is not nullable").
Proof. reflexivity. Qed.

Example sample_schema_statements :
  map created_table (tables_sql (left_by (load_schema accepting sample_db false (init false))))
  = [Some "Users"].
Proof. vm_compute. reflexivity. Qed.

Example sample_load_streams :
  target (left_by (load_data_to_postgres accepting sample_db (init false)))
  = [Gathered
       [[PgConnect; PgCopy (copy_command users); PgWriteRow [VInt 1; VStr "TRUE"; VNone];
         PgCopyEnd; PgCommit];
        [PgConnect; PgCopy (copy_command sqlite_sequence); PgWriteRow [VStr "Users"; VInt 1];
         PgCopyEnd; PgCommit]]].
Proof. vm_compute. reflexivity. Qed.

Example format_create :
  Sql.format "CREATE TABLE {table_name} (" [("table_name", Identifier "Users")]
  = Ok (Composed [SQL "CREATE TABLE "; Identifier "Users"; SQL " ("]).
Proof. reflexivity. Qed.

Example format_escape :
  Sql.format "a{{b{x}}}" [("x", Identifier "n")]
  = Ok (Composed [SQL "a{"; SQL "b"; Identifier "n"; SQL "}"]).
Proof. reflexivity. Qed.

Example format_lone_brace : Sql.format "    {name} }" [("name", Identifier "n")] = Err ValueError.
Proof. reflexivity. Qed.

Example users_ddl :
  (let* r := get_table_sql users
                (with_checks_sql_by_table (fun _ => {[ "Users" := [] ]}) (init false)) in
   Ok (fst r))
  = Ok (Composed
      [Composed [SQL "CREATE TABLE "; Identifier "Users"; SQL " ("];
       SQL PyStr.nl;
       Composed
         [Composed
            [Composed [SQL "    "; Identifier "id"; SQL " INTEGER"];
             SQL ("," +:+ PyStr.nl);
             Composed [Composed [SQL "    "; Identifier "active"; SQL " BOOLEAN"];
                       SQL " "; SQL "NOT NULL"];
             SQL ("," +:+ PyStr.nl);
             Composed [SQL "    "; Identifier "nickname"; SQL " VARCHAR(20)"];
             SQL ("," +:+ PyStr.nl)];
          SQL "    ";
          Composed [SQL "    CONSTRAINT "; Identifier "PK_id"; SQL " PRIMARY KEY (";
                    Composed [Identifier "id"]; SQL ")"]];
       SQL PyStr.nl;
       SQL ");"]).
Proof. vm_compute. reflexivity. Qed.

(** ** Facts about the string primitives *)

Section PyStrFacts.

Lemma str_app_cons c a b : String c a +:+ b = String c (a +:+ b).
Proof. reflexivity. Qed.

Lemma prefix_length p s :
  PyStr.prefix p s = true -> String.length p <= String.length s.
Proof.
  revert s. induction p as [|a p IH]; intros [|b s]; simpl; try lia; try discriminate.
  intros H. apply andb_true_iff in H as [_ H]. apply IH in H. lia.
Qed.

Lemma prefix_app_short p a b :
  String.length p <= String.length a ->
  PyStr.prefix p (a +:+ b) = PyStr.prefix p a.
Proof.
  revert a. induction p as [|x p IH]; intros a H; [reflexivity|].
  destruct a as [|y a]; simpl in H; [lia|].
  rewrite str_app_cons. simpl. f_equal. apply IH. lia.
Qed.

Lemma str_app_nil_r a : a +:+ "" = a.
Proof.
  induction a as [|x a IH]; [reflexivity|]. rewrite str_app_cons, IH. reflexivity.
Qed.

Lemma str_length_app a b :
  String.length (a +:+ b) = String.length a + String.length b.
Proof.
  induction a as [|x a IH]; [reflexivity|].
  rewrite str_app_cons. cbn [String.length]. rewrite IH. reflexivity.
Qed.

Lemma str_app_assoc a b c : (a +:+ b) +:+ c = a +:+ (b +:+ c).
Proof.
  induction a as [|x a IH]; [reflexivity|].
  rewrite !str_app_cons, IH. reflexivity.
Qed.

Variables old new : string.

Lemma replace_from_skip k s :
  PyStr.replace_from old new k s = PyStr.replace_from old new 0 (PyStr.drop k s).
Proof.
  revert k. induction s as [|c s IH]; intros [|k]; try reflexivity.
  simpl PyStr.drop. rewrite <- IH. reflexivity.
Qed.

Lemma replace_from_miss c s :
  PyStr.prefix old (String c s) = false ->
  PyStr.replace_from old new 0 (String c s) = String c (PyStr.replace_from old new 0 s).
Proof. intros H. cbn [PyStr.replace_from]. rewrite H. reflexivity. Qed.

Lemma replace_from_none s :
  PyStr.contains old s = false -> PyStr.replace_from old new 0 s = s.
Proof.
  induction s as [|c s IH]; [reflexivity|].
  cbn [PyStr.contains]. intros H. apply orb_false_iff in H as [Hp Hc].
  rewrite replace_from_miss by exact Hp. rewrite IH by exact Hc. reflexivity.
Qed.

(** A replacement shorter than the pattern shortens every text in which
    the pattern occurs. *)
Lemma replace_from_length s k :
  String.length new < String.length old ->
  String.length (PyStr.replace_from old new k s)
  + (if PyStr.contains old (PyStr.drop k s) then 1 else 0)
  <= String.length s - k.
Proof.
  intros Hlen. revert k. induction s as [|c s IH]; intros k.
  - destruct k; cbn [PyStr.replace_from PyStr.drop PyStr.contains].
    + destruct old; [simpl in Hlen; lia|]. simpl. lia.
    + destruct old; [simpl in Hlen; lia|]. simpl. lia.
  - destruct k as [|k].
    + cbn [PyStr.replace_from PyStr.drop PyStr.contains].
      destruct (PyStr.prefix old (String c s)) eqn:Hp.
      * apply prefix_length in Hp. cbn [String.length] in Hp.
        rewrite str_length_app. specialize (IH (String.length old - 1)).
        cbn [orb String.length].
        destruct (PyStr.contains old (PyStr.drop (String.length old - 1) s)); lia.
      * cbn [orb String.length]. specialize (IH 0).
        change (PyStr.drop 0 s) with s in IH.
        destruct (PyStr.contains old s); lia.
    + cbn [PyStr.replace_from PyStr.drop String.length]. specialize (IH k).
      destruct (PyStr.contains old (PyStr.drop k s)); lia.
Qed.

End PyStrFacts.

Lemma replace_nvarchar_changes s :
  PyStr.contains "NVARCHAR" s = true ->
  PyStr.replace "NVARCHAR" "VARCHAR" s <> s.
Proof.
  intros Hc Heq.
  pose proof (replace_from_length "NVARCHAR" "VARCHAR" s 0) as H.
  change (PyStr.drop 0 s) with s in H. rewrite Hc in H.
  change (PyStr.replace "NVARCHAR" "VARCHAR" s)
    with (PyStr.replace_from "NVARCHAR" "VARCHAR" 0 s) in Heq.
  rewrite Heq in H. simpl in H. lia.
Qed.

(** The leftmost occurrence is rewritten and the scan resumes after it. *)
Lemma replace_nvarchar_first pre suf :
  PyStr.contains "NVARCHAR" (pre +:+ "NVARCHA") = false ->
  PyStr.replace "NVARCHAR" "VARCHAR" (pre +:+ "NVARCHAR" +:+ suf)
  = pre +:+ "VARCHAR" +:+ PyStr.replace "NVARCHAR" "VARCHAR" suf.
Proof.
  change (PyStr.replace "NVARCHAR" "VARCHAR") with (PyStr.replace_from "NVARCHAR" "VARCHAR" 0).
  induction pre as [|c pre IH]; intros H.
  - unfold String.append. cbn. reflexivity.
  - rewrite str_app_cons in H. cbn [PyStr.contains] in H. apply orb_false_iff in H as [Hp Hc].
    rewrite !(str_app_cons c pre). rewrite replace_from_miss.
    + rewrite IH by exact Hc. reflexivity.
    + change ("NVARCHAR" +:+ suf) with ("NVARCHA" +:+ ("R" +:+ suf)).
      rewrite <- str_app_assoc.
      rewrite <- str_app_cons.
      rewrite prefix_app_short; [exact Hp|].
      cbn [String.length]. rewrite str_length_app. simpl. lia.
Qed.

Lemma prefix_app_self p q : PyStr.prefix p (p +:+ q) = true.
Proof.
  induction p as [|c p IH]; [reflexivity|].
  rewrite str_app_cons. simpl. rewrite Ascii.eqb_refl. exact IH.
Qed.

Lemma contains_app_r sub a b :
  PyStr.contains sub b = true -> PyStr.contains sub (a +:+ b) = true.
Proof.
  intros H. induction a as [|c a IH]; [exact H|].
  rewrite str_app_cons. cbn [PyStr.contains]. rewrite IH. apply orb_true_r.
Qed.

Lemma contains_occurrence sub a b : PyStr.contains sub (a +:+ sub +:+ b) = true.
Proof.
  apply contains_app_r. destruct sub as [|c sub]; [destruct b; reflexivity|].
  rewrite str_app_cons. cbn [PyStr.contains]. rewrite <- str_app_cons, prefix_app_self. reflexivity.
Qed.

(** ** Type mapper *)

(** C1 (as amended).  [remap_column_type] is a total function on strings:
    it never raises.  Its rules apply in the order STRING, NVARCHAR,
    DATETIME, BLOB and the first that matches wins: an input containing
    "STRING" maps to "TEXT"; one containing "NVARCHAR" and no "STRING" has
    every occurrence of "NVARCHAR" replaced by "VARCHAR", the text around it
    (a length qualifier) kept as it is; one containing "DATETIME" and
    neither of the former maps to "TIMESTAMP"; one containing "BLOB" and
    none of the other three maps to "BYTEA". *)
Theorem remap_column_type_first_match (s : string) :
  (PyStr.contains "STRING" s = true -> remap_column_type s = "TEXT")
  /\ (PyStr.contains "STRING" s = false ->
      PyStr.contains "NVARCHAR" s = true ->
      remap_column_type s = PyStr.replace "NVARCHAR" "VARCHAR" s
      /\ forall pre q,
           s = pre +:+ "NVARCHAR" +:+ q ->
           PyStr.contains "NVARCHAR" (pre +:+ "NVARCHA") = false ->
           PyStr.contains "NVARCHAR" q = false ->
           remap_column_type s = pre +:+ "VARCHAR" +:+ q)
  /\ (PyStr.contains "STRING" s = false ->
      PyStr.contains "NVARCHAR" s = false ->
      PyStr.contains "DATETIME" s = true ->
      remap_column_type s = "TIMESTAMP")
  /\ (PyStr.contains "STRING" s = false ->
      PyStr.contains "NVARCHAR" s = false ->
      PyStr.contains "DATETIME" s = false ->
      PyStr.contains "BLOB" s = true ->
      remap_column_type s = "BYTEA").
Proof.
  unfold remap_column_type. split; [|split; [|split]].
  - intros ->. reflexivity.
  - intros Hstring Hnvarchar. rewrite Hstring, Hnvarchar. split; [reflexivity|].
    intros pre q -> Hpre Hq.
    rewrite replace_nvarchar_first by exact Hpre.
    change (PyStr.replace "NVARCHAR" "VARCHAR" q)
      with (PyStr.replace_from "NVARCHAR" "VARCHAR" 0 q).
    rewrite replace_from_none by exact Hq. reflexivity.
  - intros -> -> ->. reflexivity.
  - intros -> -> -> ->. reflexivity.
Qed.

(** C1, as stated, fails: an input containing "BLOB" is not mapped to
    "BYTEA" when an earlier rule matches it too, and likewise for
    "DATETIME" and "NVARCHAR". *)
Lemma remap_column_type_later_rule_shadowed :
  (PyStr.contains "BLOB" "STRING BLOB" = true
   /\ remap_column_type "STRING BLOB" <> "BYTEA")
  /\ (PyStr.contains "DATETIME" "NVARCHAR DATETIME" = true
      /\ remap_column_type "NVARCHAR DATETIME" <> "TIMESTAMP")
  /\ (PyStr.contains "NVARCHAR" "NVARCHAR STRING" = true
      /\ remap_column_type "NVARCHAR STRING" <> "VARCHAR STRING").
Proof. repeat split; discriminate. Qed.

(** C8 (as amended).  An input matching none of the four rules is returned
    unchanged.  Mapping twice equals mapping once for every input that is
    not rewritten by the NVARCHAR rule (it contains "STRING" or no
    "NVARCHAR"); for any input, it does exactly when the mapped text itself
    matches none of the four rules. *)
Theorem remap_column_type_idempotence (s : string) :
  (matches_rule s = false -> remap_column_type s = s)
  /\ (PyStr.contains "STRING" s = true \/ PyStr.contains "NVARCHAR" s = false ->
      remap_column_type (remap_column_type s) = remap_column_type s)
  /\ (remap_column_type (remap_column_type s) = remap_column_type s
      <-> matches_rule (remap_column_type s) = false).
Proof.
  assert (Hnone : forall t, matches_rule t = false -> remap_column_type t = t).
  { intros t. unfold matches_rule, remap_column_type. intros H.
    repeat (apply orb_false_iff in H as [H ?]). rewrite H, H0, H1, H2. reflexivity. }
  assert (Hfix : forall t, remap_column_type t = t -> matches_rule t = false).
  { intros t. unfold matches_rule, remap_column_type.
    destruct (PyStr.contains "STRING" t) eqn:E1.
    { intros <-. discriminate E1. }
    destruct (PyStr.contains "NVARCHAR" t) eqn:E2.
    { intros H. exfalso. exact (replace_nvarchar_changes t E2 H). }
    destruct (PyStr.contains "DATETIME" t) eqn:E3.
    { intros <-. discriminate E3. }
    destruct (PyStr.contains "BLOB" t) eqn:E4.
    { intros <-. discriminate E4. }
    reflexivity. }
  split; [apply Hnone|]. split.
  - intros H. apply Hnone. unfold remap_column_type.
    destruct (PyStr.contains "STRING" s) eqn:E1; [reflexivity|].
    destruct H as [H|H]; [discriminate|]. rewrite H.
    destruct (PyStr.contains "DATETIME" s) eqn:E3; [reflexivity|].
    destruct (PyStr.contains "BLOB" s) eqn:E4; [reflexivity|].
    unfold matches_rule. rewrite E1, H, E3, E4. reflexivity.
  - split; [apply Hfix | apply Hnone].
Qed.

(** C8, as stated, fails: the text left by the NVARCHAR rule can match a
    rule again. *)
Lemma remap_column_type_not_idempotent :
  remap_column_type "NNVARCHAR" = "NVARCHAR"
  /\ remap_column_type (remap_column_type "NNVARCHAR") = "VARCHAR"
  /\ remap_column_type (remap_column_type "NNVARCHAR") <> remap_column_type "NNVARCHAR".
Proof. repeat split; discriminate. Qed.

(** ** Value transformer *)

(** C2.  The five test vectors of the boolean transformer: a nullable 0 and
    a nullable empty text give NULL, a required 0 raises (the exception the
    design calls InvariantViolation), and 1 and the text "true" give TRUE. *)
Theorem boolean_transformer_vectors :
  boolean_transformer (VInt 0) true = Ok VNone
  /\ boolean_transformer (VInt 0) false
     = Err (Exception "Value is None but column is not nullable")
  /\ boolean_transformer (VInt 1) false = Ok (VStr "TRUE")
  /\ boolean_transformer (VStr "true") true = Ok (VStr "TRUE")
  /\ boolean_transformer (VStr "") true = Ok VNone.
Proof. repeat split. Qed.

(** C3 fails on the code.  A truthy number other than 1 is compared with 1,
    and then asked for its [lower] method, which a number does not have:
    the transformer raises [AttributeError] instead of returning TRUE or
    FALSE.  So it does for 2, and for every integer other than 0 and 1. *)
Theorem boolean_transformer_number_raises :
  (forall nullable, boolean_transformer (VInt 2) nullable = Err AttributeError)
  /\ (forall z nullable, z <> 0%Z -> z <> 1%Z ->
      boolean_transformer (VInt z) nullable = Err AttributeError).
Proof.
  split; [intros []; reflexivity|].
  intros z nullable H0 H1. unfold boolean_transformer. cbn [truthy eq_one].
  apply Z.eqb_neq in H0, H1. rewrite H0, H1. cbn.
  rewrite !andb_false_r. reflexivity.
Qed.

(** ** Row transformation *)

Section TransformRow.

Variable transformers : gmap string (value -> bool -> res value).

Lemma apply_transformer_cell c i (row row1 : list value) :
  apply_transformer transformers c i row = Ok row1 ->
  length row1 = length row
  /\ (forall j, j <> i -> row1 !! j = row !! j)
  /\ (forall v, row !! i = Some v ->
      exists v', after_transformer transformers c v = Ok v' /\ row1 !! i = Some v').
Proof.
  unfold apply_transformer, after_transformer, getitem.
  destruct (transformers !! Column.type c) as [f|].
  - destruct (row !! i) as [v|] eqn:Hv; [|discriminate]. cbn.
    destruct (f v (negb (Column.notnull c))) as [v'|] eqn:Hf; [|discriminate]. cbn.
    intros [= <-]. split; [apply length_insert|]. split.
    + intros j Hj. apply list_lookup_insert_ne. congruence.
    + intros v0 [= <-]. exists v'. split; [exact Hf|].
      apply list_lookup_insert_eq. eapply lookup_lt_Some, Hv.
  - intros [= <-]. split; [reflexivity|]. split; [reflexivity|]. eauto.
Qed.

Lemma coerce_empty_cell c i (row row2 : list value) :
  coerce_empty c i row = Ok row2 ->
  length row2 = length row
  /\ (forall j, j <> i -> row2 !! j = row !! j)
  /\ (forall v, row !! i = Some v -> row2 !! i = Some (coerced c v)).
Proof.
  unfold coerce_empty, coerced, getitem.
  destruct (negb (Column.notnull c)); cbn [andb].
  - destruct (row !! i) as [v|] eqn:Hv; [|discriminate]. cbn.
    destruct (negb (eq_zero v) && negb (truthy v)) eqn:Hb; intros [= <-].
    + split; [apply length_insert|]. split.
      * intros j Hj. apply list_lookup_insert_ne. congruence.
      * intros v0 Hv0. assert (v0 = v) as -> by congruence. rewrite Hb.
        apply list_lookup_insert_eq. eapply lookup_lt_Some, Hv.
    + split; [reflexivity|]. split; [reflexivity|].
      intros v0 Hv0. assert (v0 = v) as -> by congruence. rewrite Hb. exact Hv.
  - intros [= <-]. auto.
Qed.

(** The loop from index [i] leaves the cells before [i] alone and puts
    into each later cell what its own column makes of it. *)
Lemma transform_row_cells columns : forall i (row row' : list value),
  transform_row transformers columns i row = Ok row' ->
  length row' = length row
  /\ (forall j, j < i -> row' !! j = row !! j)
  /\ (forall k c v, columns !! k = Some c -> row !! (i + k) = Some v ->
      exists v', after_transformer transformers c v = Ok v'
                 /\ row' !! (i + k) = Some (coerced c v')).
Proof.
  induction columns as [|c columns IH]; intros i row row' H.
  - injection H as <-. split; [reflexivity|]. split; [reflexivity|].
    intros k c v Hk. discriminate Hk.
  - cbn [transform_row] in H.
    destruct (apply_transformer transformers c i row) as [row1|] eqn:H1; [|discriminate].
    cbn [res_bind] in H.
    destruct (coerce_empty c i row1) as [row2|] eqn:H2; [|discriminate].
    cbn [res_bind] in H.
    apply apply_transformer_cell in H1 as (L1 & O1 & C1).
    apply coerce_empty_cell in H2 as (L2 & O2 & C2).
    apply IH in H as (L & B & A).
    split; [congruence|]. split.
    + intros j Hj. rewrite B by lia. rewrite O2 by lia. apply O1. lia.
    + intros [|k] c0 v Hk Hv.
      * injection Hk as <-. rewrite Nat.add_0_r in *.
        destruct (C1 v Hv) as (v' & Hv' & Hr1).
        exists v'. split; [exact Hv'|].
        rewrite B by lia. apply C2, Hr1.
      * cbn in Hk. replace (i + S k) with (S i + k) in * by lia.
        apply (A k c0 v Hk). rewrite O2 by lia. rewrite O1 by lia. exact Hv.
Qed.

(** The loop raises only where a cell is missing or a transformer raises. *)
Lemma transform_row_runs columns : forall i (row : list value),
  i + length columns <= length row ->
  (forall k c v, columns !! k = Some c -> row !! (i + k) = Some v ->
     is_ok (after_transformer transformers c v) = true) ->
  is_ok (transform_row transformers columns i row) = true.
Proof.
  induction columns as [|c columns IH]; intros i row Hlen Hok; [reflexivity|].
  cbn [length] in Hlen. cbn [transform_row].
  destruct (row !! i) as [v|] eqn:Hv;
    [|apply lookup_ge_None in Hv; lia].
  pose proof (Hok 0 c v eq_refl) as Hc. rewrite Nat.add_0_r in Hc.
  specialize (Hc Hv).
  destruct (apply_transformer transformers c i row) as [row1|] eqn:H1.
  2:{ unfold apply_transformer, after_transformer, getitem in *.
      destruct (transformers !! Column.type c) as [f|]; [|discriminate].
      rewrite Hv in H1. cbn in H1.
      destruct (f v (negb (Column.notnull c))); discriminate. }
  cbn [res_bind].
  pose proof (apply_transformer_cell _ _ _ _ H1) as (L1 & O1 & C1).
  destruct (C1 v Hv) as (v' & _ & Hr1).
  destruct (coerce_empty c i row1) as [row2|] eqn:H2.
  2:{ unfold coerce_empty, getitem in H2. rewrite Hr1 in H2. cbn in H2.
      destruct (negb (Column.notnull c)); [|discriminate].
      destruct (negb (eq_zero v') && negb (truthy v')); discriminate. }
  cbn [res_bind].
  pose proof (coerce_empty_cell _ _ _ _ H2) as (L2 & O2 & C2).
  apply IH; [lia|].
  intros k c0 v0 Hk Hv0. apply (Hok (S k) c0 v0 Hk).
  replace (i + S k) with (S i + k) by lia.
  rewrite <- O1 by lia. rewrite <- O2 by lia. exact Hv0.
Qed.

End TransformRow.

(** C4.  Whenever the column loop of the loader finishes on a row, each cell
    holds what the column's type transformer (if any) made of the value,
    after which: in a nullable column a falsy value other than the numeral
    zero has become null, a numeral zero is kept as it is (and so is every
    truthy value); in a non-nullable column the rule changes nothing.  The
    loop does finish when the row has a cell for every column and no
    transformer raises. *)
Theorem empty_coercion_rule
    (transformers : gmap string (value -> bool -> res value))
    (columns : list Column.t) (row : list value) :
  (length columns <= length row ->
   (forall idx c v, columns !! idx = Some c -> row !! idx = Some v ->
      is_ok (after_transformer transformers c v) = true) ->
   is_ok (transform_row transformers columns 0 row) = true)
  /\ forall row', transform_row transformers columns 0 row = Ok row' ->
     forall idx c v, columns !! idx = Some c -> row !! idx = Some v ->
     exists v',
       after_transformer transformers c v = Ok v'
       /\ (Column.notnull c = false -> truthy v' = false -> eq_zero v' = false ->
           row' !! idx = Some VNone)
       /\ (Column.notnull c = false -> eq_zero v' = true -> row' !! idx = Some v')
       /\ (Column.notnull c = false -> truthy v' = true -> row' !! idx = Some v')
       /\ (Column.notnull c = true -> row' !! idx = Some v').
Proof.
  split.
  - intros Hlen Hok. apply transform_row_runs; [exact Hlen | exact Hok].
  - intros row' H idx c v Hc Hv.
    destruct (transform_row_cells _ _ _ _ _ H) as (_ & _ & A).
    destruct (A idx c v Hc Hv) as (v' & Hv' & Hr). cbn in Hr.
    exists v'. split; [exact Hv'|]. unfold coerced in Hr.
    repeat split; intros Hn; rewrite Hn in Hr; cbn in Hr.
    + intros Ht Hz. rewrite Ht, Hz in Hr. exact Hr.
    + intros Hz. rewrite Hz in Hr. exact Hr.
    + intros Ht. rewrite Ht, andb_false_r in Hr. exact Hr.
    + exact Hr.
Qed.

(** ** DDL synthesizer *)

Section FormatFacts.

Variable kwargs : list (string * Composable).

Lemma rev_string_tail s : forall t, Sql.rev_string t s = Sql.unrev s +:+ t.
Proof.
  unfold Sql.unrev. induction s as [|c s IH]; intros t; [reflexivity|].
  cbn [Sql.rev_string]. rewrite IH, (IH (String c EmptyString)), str_app_assoc. reflexivity.
Qed.

Lemma unrev_rev_string s : forall acc,
  Sql.unrev (Sql.rev_string acc s) = Sql.unrev acc +:+ s.
Proof.
  induction s as [|c s IH]; intros acc; cbn [Sql.rev_string].
  - rewrite str_app_nil_r. reflexivity.
  - rewrite IH. unfold Sql.unrev at 1. cbn [Sql.rev_string].
    rewrite rev_string_tail, str_app_assoc. reflexivity.
Qed.

(** Plain text is passed through as one [SQL] piece. *)
Lemma format_from_plain s : forall lit,
  brace_free s = true ->
  Sql.format_from kwargs (Sql.InLit lit) s = Sql.finish (Sql.InLit (Sql.rev_string lit s)).
Proof.
  induction s as [|c s IH]; intros lit H; [reflexivity|].
  cbn in H. apply andb_true_iff in H as [Hc Hs]. apply andb_true_iff in Hc as [Ho Hcl].
  cbn [Sql.format_from Sql.step].
  destruct (Ascii.eqb c "{"); [discriminate|].
  destruct (Ascii.eqb c "}"); [discriminate|].
  rewrite IH by exact Hs. reflexivity.
Qed.

End FormatFacts.

(** The column template: the name comes first, whatever the type text. *)
Lemma column_template ty name :
  Sql.format ("    {name} " +:+ ty) [("name", Identifier name)]
  = let* more := Sql.format_from [("name", Identifier name)] (Sql.InLit " ") ty in
    Ok (Composed (SQL "    " :: Identifier name :: more)).
Proof.
  unfold Sql.format, String.append. cbn.
  destruct (Sql.format_from _ _ ty); reflexivity.
Qed.

Lemma column_template_plain ty name :
  brace_free ty = true ->
  Sql.format ("    {name} " +:+ ty) [("name", Identifier name)]
  = Ok (Composed [SQL "    "; Identifier name; SQL (" " +:+ ty)]).
Proof.
  intros H. rewrite column_template, format_from_plain by exact H.
  change (Sql.rev_string " " ty) with (Sql.rev_string (String " " EmptyString) ty).
  destruct (Sql.rev_string " " ty) as [|c r] eqn:E.
  - exfalso. pose proof (unrev_rev_string ty " ") as U. rewrite E in U.
    cbn in U. discriminate U.
  - cbn [Sql.finish res_bind]. rewrite <- E, unrev_rev_string. reflexivity.
Qed.

Lemma column_sql_names column clause :
  column_sql column = Ok clause -> clause_column clause = Some (Column.name column).
Proof.
  unfold column_sql. rewrite column_template.
  destruct (Sql.format_from _ _ _) as [more|]; [|discriminate]. cbn [res_bind].
  destruct (Column.notnull column), (Column.default_value column) as [[|a d]|];
    cbn; intros [= <-]; reflexivity.
Qed.

Lemma column_sql_not_pk column clause :
  column_sql column = Ok clause -> is_pk_clause clause = false.
Proof.
  unfold column_sql. rewrite column_template.
  destruct (Sql.format_from _ _ _) as [more|]; [|discriminate]. cbn [res_bind].
  destruct (Column.notnull column), (Column.default_value column) as [[|a d]|];
    cbn; intros [= <-]; reflexivity.
Qed.

Lemma column_sql_plain column :
  brace_free (remap_column_type (Column.type column)) = true ->
  is_ok (column_sql column) = true.
Proof.
  intros H. unfold column_sql. rewrite column_template_plain by exact H.
  cbn [res_bind].
  destruct (Column.notnull column), (Column.default_value column) as [[|a d]|]; reflexivity.
Qed.

Lemma pk_sql_clause table : pk_sql table = Ok (pk_clause table).
Proof. reflexivity. Qed.

Lemma mapM_Forall2 {A B} (f : A -> res B) l : forall l',
  mapM f l = Ok l' <-> Forall2 (fun x y => f x = Ok y) l l'.
Proof.
  induction l as [|x l IH]; intros l'; cbn [mapM].
  - split; [intros [= <-]; constructor | intros H; inversion H; reflexivity].
  - split.
    + destruct (f x) as [y|] eqn:Hx; [|discriminate]. cbn [res_bind].
      destruct (mapM f l) as [ys|]; [|discriminate]. cbn [res_bind].
      intros [= <-]. constructor; [exact Hx | apply IH; reflexivity].
    + intros H. inversion H as [|? y ? ys Hx Hl]; subst.
      rewrite Hx. cbn [res_bind]. apply IH in Hl. rewrite Hl. reflexivity.
Qed.

Lemma mapM_ok {A B} (f : A -> res B) l :
  Forall (fun x => is_ok (f x) = true) l -> is_ok (mapM f l) = true.
Proof.
  induction 1 as [|x l Hx _ IH]; [reflexivity|]. cbn [mapM].
  destruct (f x); [|discriminate]. cbn [res_bind].
  destruct (mapM f l); [reflexivity | discriminate].
Qed.

Lemma existsb_sep_by (p : Composable -> bool) sep l :
  p sep = false -> Forall (fun x => p x = false) l -> existsb p (Sql.sep_by sep l) = false.
Proof.
  intros Hs. induction 1 as [|x l Hx Hl IH]; [reflexivity|].
  destruct l as [|y l]; cbn [Sql.sep_by existsb]; [rewrite Hx; reflexivity|].
  rewrite Hx, Hs. exact IH.
Qed.

Lemma sorted_lookup (columns : list Column.t) :
  StronglySorted (fun a b => Column.cid a < Column.cid b) columns ->
  forall i j ci cj, columns !! i = Some ci -> columns !! j = Some cj -> i < j ->
  Column.cid ci < Column.cid cj.
Proof.
  induction 1 as [|c columns _ IH Hall]; intros i j ci cj Hi Hj Hij; [discriminate Hi|].
  destruct j as [|j]; [lia|]. cbn in Hj. destruct i as [|i].
  - injection Hi as <-. rewrite List.Forall_forall in Hall. apply Hall.
    apply list_elem_of_In, list_elem_of_lookup. eauto.
  - cbn in Hi. apply (IH i j); [exact Hi | exact Hj | lia].
Qed.

Lemma create_template name :
  Sql.format "CREATE TABLE {table_name} (" [("table_name", Identifier name)]
  = Ok (Composed [SQL "CREATE TABLE "; Identifier name; SQL " ("]).
Proof. reflexivity. Qed.

Lemma column_sql_composed column clause :
  column_sql column = Ok clause -> exists l, clause = Composed l.
Proof.
  unfold column_sql. rewrite column_template.
  destruct (Sql.format_from _ _ _) as [more|]; [|discriminate]. cbn [res_bind].
  destruct (Column.notnull column), (Column.default_value column) as [[|a d]|];
    cbn; intros [= <-]; eauto.
Qed.

(** What [get_table_sql] returns once the column clauses are there. *)
Lemma get_table_sql_unfold table self clauses :
  mapM column_sql (Table.columns table) = Ok clauses ->
  get_table_sql table self
  = match checks_sql_by_table self !! Table.name table with
    | None => Err (KeyError (Table.name table))
    | Some checks =>
        let body :=
          if nonempty (Table.pks table) && negb (Table.use_rowid table)
          then Composed [Composed (Sql.sep_by (SQL ("," +:+ PyStr.nl)) clauses
                                   ++ [SQL ("," +:+ PyStr.nl)]);
                         SQL "    "; pk_clause table]
          else Composed (Sql.sep_by (SQL ("," +:+ PyStr.nl)) clauses) in
        Ok (Composed [Composed [SQL "CREATE TABLE "; Identifier (Table.name table); SQL " ("];
                      SQL PyStr.nl; body; SQL PyStr.nl; SQL ");"],
            with_summary (Summary.with_checks
              (Summary.prepared (Table.name table) "IGNORED" "count" (length checks)))
              (with_summary (Summary.with_pks
                 (Summary.prepared (Table.name table) "PREPARED" "count"
                    (length (Table.pks table))))
                 (with_summary (Summary.with_columns
                    (Summary.prepared (Table.name table) "PREPARED" "count"
                       (length (Table.columns table)))) self)))
    end.
Proof.
  intros Hc. unfold get_table_sql. rewrite create_template, Hc. cbn [res_bind].
  destruct (nonempty (Table.pks table) && negb (Table.use_rowid table));
    rewrite ?pk_sql_clause; cbn [res_bind];
    cbn [checks_sql_by_table with_summary];
    destruct (checks_sql_by_table self !! Table.name table) as [checks|]; try reflexivity;
    unfold _IGNORE_CHECKS; rewrite andb_false_r; reflexivity.
Qed.

(** C5.  Whenever [get_table_sql] produces a statement, it is the CREATE
    TABLE header, a body and the closing line; the body holds one clause per
    column of [table.columns], in the order of that list (the catalog's
    ordinal order), each clause starting with its column's name; and the
    body holds a PRIMARY KEY constraint clause, named PK_ followed by the
    concatenated key columns, exactly when the table has a primary-key list
    and is not flagged as using the synthetic rowid.  A statement is
    produced when the table has an entry in the checks map and no mapped
    column type contains a brace. *)
Theorem get_table_sql_columns_and_pk (table : Table.t) (self : PGSqlite) :
  (is_Some (checks_sql_by_table self !! Table.name table) ->
   Forall (fun c => brace_free (remap_column_type (Column.type c)) = true)
     (Table.columns table) ->
   is_ok (get_table_sql table self) = true)
  /\ forall ddl self', get_table_sql table self = Ok (ddl, self') ->
     exists clauses body,
       ddl = Composed [Composed [SQL "CREATE TABLE "; Identifier (Table.name table); SQL " ("];
                       SQL PyStr.nl; body; SQL PyStr.nl; SQL ");"]
       /\ Forall2 (fun c clause => column_sql c = Ok clause) (Table.columns table) clauses
       /\ map clause_column clauses = map (fun c => Some (Column.name c)) (Table.columns table)
       /\ body
          = (if nonempty (Table.pks table) && negb (Table.use_rowid table)
             then Composed [Composed (Sql.sep_by (SQL ("," +:+ PyStr.nl)) clauses
                                      ++ [SQL ("," +:+ PyStr.nl)]);
                            SQL "    "; pk_clause table]
             else Composed (Sql.sep_by (SQL ("," +:+ PyStr.nl)) clauses))
       /\ existsb is_pk_clause (children body)
          = nonempty (Table.pks table) && negb (Table.use_rowid table)
       /\ (StronglySorted (fun a b => Column.cid a < Column.cid b) (Table.columns table) ->
           forall i j ci cj,
             Table.columns table !! i = Some ci -> Table.columns table !! j = Some cj ->
             Column.cid ci < Column.cid cj ->
             i < j
             /\ exists cli clj,
                  clauses !! i = Some cli /\ clauses !! j = Some clj
                  /\ column_sql ci = Ok cli /\ column_sql cj = Ok clj).
Proof.
  split.
  - intros [checks Hchecks] Hcols.
    assert (Hm : is_ok (mapM column_sql (Table.columns table)) = true).
    { apply mapM_ok. eapply Forall_impl; [exact Hcols|].
      intros c Hc. apply column_sql_plain, Hc. }
    destruct (mapM column_sql (Table.columns table)) as [clauses|] eqn:E; [|discriminate].
    rewrite (get_table_sql_unfold _ _ _ E), Hchecks. reflexivity.
  - intros ddl self' H.
    destruct (mapM column_sql (Table.columns table)) as [clauses|] eqn:E.
    2:{ unfold get_table_sql in H. rewrite create_template, E in H. discriminate H. }
    rewrite (get_table_sql_unfold _ _ _ E) in H.
    destruct (checks_sql_by_table self !! Table.name table) as [checks|]; [|discriminate].
    cbv zeta in H. injection H as <- _.
    apply mapM_Forall2 in E.
    assert (Hnames : map clause_column clauses
                     = map (fun c => Some (Column.name c)) (Table.columns table)).
    { clear -E. induction E as [|c cl cs cls Hc _ IH]; [reflexivity|].
      cbn [map]. rewrite IH, (column_sql_names _ _ Hc). reflexivity. }
    assert (Hnopk : Forall (fun cl => is_pk_clause cl = false) clauses).
    { clear -E. induction E as [|c cl cs cls Hc _ IH]; constructor;
        [exact (column_sql_not_pk _ _ Hc) | exact IH]. }
    eexists clauses, _. split; [reflexivity|]. split; [exact E|].
    split; [exact Hnames|]. split; [reflexivity|]. split.
    + destruct (nonempty (Table.pks table) && negb (Table.use_rowid table)).
      * cbn [children]. apply existsb_exists. exists (pk_clause table).
        split; [right; right; left; reflexivity | reflexivity].
      * cbn [children]. apply existsb_sep_by; [reflexivity | exact Hnopk].
    + intros Hsorted i j ci cj Hi Hj Hlt. split.
      * destruct (Nat.lt_trichotomy i j) as [Hij|[->|Hji]]; [exact Hij | |].
        -- rewrite Hi in Hj. injection Hj as ->. lia.
        -- pose proof (sorted_lookup _ Hsorted _ _ _ _ Hj Hi Hji). lia.
      * destruct (Forall2_lookup_l _ _ _ _ _ E Hi) as (cli & Hcli & Hsi).
        destruct (Forall2_lookup_l _ _ _ _ _ E Hj) as (clj & Hclj & Hsj).
        exists cli, clj. auto.
Qed.

(** C10 (as amended).  [get_table_sql] reads the table's entry of
    [checks_sql_by_table] although check emission is switched off: for a
    table with no entry (as on a fresh object, before
    [get_check_constraints] has run) it produces no statement.  What it
    raises is the [KeyError] of that lookup whenever all its column clauses
    can be formatted, and otherwise the exception of the first column
    clause that cannot, which comes before the lookup. *)
Theorem get_table_sql_needs_checks_entry (table : Table.t) (self : PGSqlite) :
  checks_sql_by_table self !! Table.name table = None ->
  _IGNORE_CHECKS = true
  /\ is_ok (get_table_sql table self) = false
  /\ (is_ok (mapM column_sql (Table.columns table)) = true ->
      get_table_sql table self = Err (KeyError (Table.name table)))
  /\ (forall e, mapM column_sql (Table.columns table) = Err e ->
      get_table_sql table self = Err e).
Proof.
  intros Hnone. split; [reflexivity|].
  destruct (mapM column_sql (Table.columns table)) as [clauses|x] eqn:E.
  - rewrite (get_table_sql_unfold _ _ _ E), Hnone.
    split; [reflexivity|]. split; [reflexivity | discriminate].
  - unfold get_table_sql. rewrite create_template, E.
    split; [reflexivity|]. split; [discriminate|]. intros e [= <-]. reflexivity.
Qed.

Lemma get_table_sql_needs_checks_entry_fresh :
  checks_sql_by_table (init false) !! Table.name users = None
  /\ get_table_sql users (init false) = Err (KeyError "Users").
Proof.
  split; [reflexivity|].
  exact (proj1 (proj2 (proj2 (get_table_sql_needs_checks_entry users (init false) eq_refl)))
           eq_refl).
Defined.

(** C10, as stated, fails: on a fresh object, a table with a column whose
    declared type is "INT}" makes [get_table_sql] raise [ValueError] from
    the formatting of the column clause, not a lookup error. *)
Lemma get_table_sql_format_error_first :
  checks_sql_by_table (init false) !! Table.name odd = None
  /\ get_table_sql odd (init false) = Err ValueError
  /\ get_table_sql odd (init false) <> Err (KeyError (Table.name odd)).
Proof. split; [reflexivity|]. split; [reflexivity | discriminate]. Qed.

(** *** Indexes *)

Lemma index_col_sql_named columns :
  index_col_sql columns = Ok (map sort_entry (named_columns columns)).
Proof.
  induction columns as [|col columns IH]; [reflexivity|].
  cbn [index_col_sql named_columns].
  destruct (XIndexColumn.name col) as [[|a n]|]; try exact IH.
  rewrite IH. destruct (XIndexColumn.desc col); reflexivity.
Qed.

Lemma named_columns_unnamed columns :
  forallb unnamed columns = true -> named_columns columns = [].
Proof.
  induction columns as [|col columns IH]; [reflexivity|].
  cbn [forallb named_columns]. unfold unnamed at 1.
  destruct (XIndexColumn.name col) as [[|a n]|]; cbn [andb]; try exact IH. discriminate.
Qed.

Lemma index_sql_statement table index :
  index_sql table index
  = Ok (Composed [SQL "CREATE INDEX "; Identifier (XIndex.name index);
                  SQL " ON "; Identifier (Table.name table); SQL " (";
                  Composed (Sql.sep_by (SQL ",")
                              (map sort_entry (named_columns (XIndex.columns index))));
                  SQL ")"]).
Proof. unfold index_sql. rewrite index_col_sql_named. reflexivity. Qed.

(** C6 (as amended).  Index synthesis has no error of its own: for every
    table [get_index_sql] returns one CREATE INDEX statement per index, over
    exactly the named entries of the index in their order; an index whose
    entries all lack a name gets a statement with an empty column list. *)
Theorem get_index_sql_never_raises (table : Table.t) (self : PGSqlite) :
  exists sql self',
    get_index_sql table self = Ok (sql, self')
    /\ sql = map (fun index =>
               Composed [SQL "CREATE INDEX "; Identifier (XIndex.name index);
                         SQL " ON "; Identifier (Table.name table); SQL " (";
                         Composed (Sql.sep_by (SQL ",")
                                     (map sort_entry (named_columns (XIndex.columns index))));
                         SQL ")"]) (Table.xindexes table)
    /\ forall i index,
         Table.xindexes table !! i = Some index ->
         forallb unnamed (XIndex.columns index) = true ->
         sql !! i = Some (Composed [SQL "CREATE INDEX "; Identifier (XIndex.name index);
                                    SQL " ON "; Identifier (Table.name table); SQL " (";
                                    Composed []; SQL ")"]).
Proof.
  assert (Hm : forall l, mapM (index_sql table) l
                         = Ok (map (fun index =>
               Composed [SQL "CREATE INDEX "; Identifier (XIndex.name index);
                         SQL " ON "; Identifier (Table.name table); SQL " (";
                         Composed (Sql.sep_by (SQL ",")
                                     (map sort_entry (named_columns (XIndex.columns index))));
                         SQL ")"]) l)).
  { induction l as [|index l IH]; [reflexivity|].
    cbn [mapM map]. rewrite index_sql_statement, IH. reflexivity. }
  unfold get_index_sql. rewrite Hm. cbn [res_bind].
  eexists _, _. split; [reflexivity|]. split; [reflexivity|].
  intros i index Hi Hun. rewrite list_lookup_fmap, Hi. cbn.
  rewrite (named_columns_unnamed _ Hun). reflexivity.
Qed.

(** C6, as stated, fails: for an index over one expression entry the
    synthesizer raises nothing and returns a CREATE INDEX statement whose
    column list is empty. *)
Lemma get_index_sql_empty_column_list :
  forallb unnamed [XIndexColumn.mk 0 None false] = true
  /\ (let* r := get_index_sql events (init false) in Ok (fst r))
     = Ok [Composed [SQL "CREATE INDEX "; Identifier "events_day"; SQL " ON ";
                     Identifier "events"; SQL " ("; Composed []; SQL ")"]].
Proof. split; reflexivity. Qed.

(** ** Check-constraint extractor *)

Lemma find_contains sub s :
  PyStr.contains sub s = true -> is_ok (index sub s) = true.
Proof.
  unfold index. induction s as [|c s IH]; cbn [PyStr.contains PyStr.find].
  - destruct (PyStr.prefix sub ""); [reflexivity | discriminate].
  - destruct (PyStr.prefix sub (String c s)); [reflexivity|]. cbn [orb].
    intros H. specialize (IH H). destruct (PyStr.find sub s); [reflexivity | discriminate].
Qed.

Lemma rfind_contains sub s :
  PyStr.contains sub s = true -> is_ok (rindex sub s) = true.
Proof.
  unfold rindex. induction s as [|c s IH]; cbn [PyStr.contains PyStr.rfind].
  - destruct (PyStr.prefix sub ""); [reflexivity | discriminate].
  - destruct (PyStr.rfind sub s); [reflexivity|].
    destruct (PyStr.prefix sub (String c s)); [reflexivity|]. cbn [orb].
    intros H. specialize (IH H). discriminate IH.
Qed.

Lemma scan_lines_collect lines : forall checks transpile,
  forallb (fun line =>
    implb (PyStr.contains "CHECK" line)
      (PyStr.contains "(" line && PyStr.contains ")" line)) lines = true ->
  scan_lines (checks, transpile) lines
  = Ok (checks ++ map (fun line => SQL ("    " +:+ PyStr.rstrip_with is_comma (PyStr.strip line)))
                    (List.filter (PyStr.contains "CHECK") lines),
        transpile +:+ String.concat EmptyString
                        (map (fun line => PyStr.nl +:+ line)
                           (List.filter (fun line => negb (PyStr.contains "CHECK" line)) lines))).
Proof.
  induction lines as [|line lines IH]; intros checks transpile H.
  - cbn. rewrite app_nil_r, str_app_nil_r. reflexivity.
  - cbn [forallb] in H. apply andb_true_iff in H as [Hl Hr].
    cbn [scan_lines scan_line List.filter].
    destruct (PyStr.contains "CHECK" line) eqn:Hc; cbn [negb].
    + cbn [implb] in Hl. apply andb_true_iff in Hl as [Ho Hcl].
      apply find_contains in Ho. apply rfind_contains in Hcl.
      destruct (index "(" line); [|discriminate]. cbn [res_bind].
      destruct (rindex ")" line); [|discriminate]. cbn [res_bind].
      rewrite IH by exact Hr. cbn [map]. rewrite <- app_assoc. reflexivity.
    + cbn [res_bind]. rewrite IH by exact Hr. cbn [map].
      f_equal. f_equal. rewrite str_app_assoc. f_equal.
      destruct (List.filter (fun line => negb (PyStr.contains "CHECK" line)) lines)
        as [|l ls]; cbn [map String.concat]; [apply str_app_nil_r | reflexivity].
Qed.

Lemma scan_table_sql_clauses sql :
  checks_parenthesised sql = true ->
  scan_table_sql sql = Ok (check_clauses sql, normalize_quotes (other_lines sql)).
Proof.
  intros H. unfold scan_table_sql, check_clauses, other_lines.
  rewrite scan_lines_collect by exact H. reflexivity.
Qed.

Lemma scan_master_fold master : forall checks,
  forallb (fun row => checks_parenthesised (snd row)) master = true ->
  scan_master checks master = Ok (fold_left record_checks master checks).
Proof.
  induction master as [|[name sql] master IH]; intros checks H; [reflexivity|].
  cbn [forallb snd] in H. apply andb_true_iff in H as [Hs Hm].
  cbn [scan_master fold_left]. rewrite scan_table_sql_clauses by exact Hs.
  cbn [res_bind]. apply IH, Hm.
Qed.

Lemma fold_record_other master : forall checks name,
  ~ In name (map fst master) ->
  fold_left record_checks master checks !! name = checks !! name.
Proof.
  induction master as [|[n sql] master IH]; intros checks name Hn; [reflexivity|].
  cbn [fold_left]. rewrite IH by (intros Hin; apply Hn; right; exact Hin).
  unfold record_checks. cbn [fst snd]. apply lookup_insert_ne.
  intros ->. apply Hn. left. reflexivity.
Qed.

Lemma fold_record_found master : forall checks name sql,
  List.NoDup (map fst master) -> In (name, sql) master ->
  fold_left record_checks master checks !! name = Some (check_clauses sql).
Proof.
  induction master as [|[n s] master IH]; intros checks name sql Hnd Hin; [destruct Hin|].
  cbn [map fst] in Hnd. inversion Hnd as [|? ? Hnotin Hnd']; subst.
  cbn [fold_left]. destruct Hin as [[= -> ->]|Hin].
  - rewrite fold_record_other by exact Hnotin. apply lookup_insert_eq.
  - apply IH; assumption.
Qed.

(** C7 (as amended).  On table definitions in which every line containing
    "CHECK" also has an opening and a closing parenthesis, the extractor
    returns for each table, in line order, one clause per line containing
    "CHECK": the line trimmed, its trailing commas removed, behind four
    blanks.  The rewriting of bracket and backtick quotes to double quotes
    is applied to the text of the other lines, which the extractor does not
    return; the clauses keep their identifiers as written. *)
Theorem get_check_constraints_clauses (db : Database.t) :
  forallb (fun st => checks_parenthesised (SourceTable.sql st)) (Database.tables db) = true ->
  (forall st, In st (Database.tables db) ->
     scan_table_sql (SourceTable.sql st)
     = Ok (check_clauses (SourceTable.sql st),
           normalize_quotes (other_lines (SourceTable.sql st))))
  /\ exists checks,
       get_check_constraints db = Ok checks
       /\ (forall name, ~ In name (map Table.name (db_tables db)) -> checks !! name = None)
       /\ (List.NoDup (map Table.name (db_tables db)) ->
           forall st, In st (Database.tables db) ->
             checks !! Table.name (SourceTable.table st)
             = Some (check_clauses (SourceTable.sql st))).
Proof.
  intros H.
  assert (Hnames : map fst (master_rows db) = map Table.name (db_tables db)).
  { unfold master_rows, db_tables. rewrite !map_map. reflexivity. }
  split.
  - intros st Hin. apply scan_table_sql_clauses.
    rewrite forallb_forall in H. apply H, Hin.
  - exists (fold_left record_checks (master_rows db) ∅). split; [|split].
    + apply scan_master_fold. unfold master_rows. rewrite forallb_forall in *.
      intros row Hrow. apply in_map_iff in Hrow as (st & <- & Hst). apply H, Hst.
    + intros name Hn. rewrite fold_record_other by (rewrite Hnames; exact Hn).
      apply lookup_empty.
    + intros Hnd st Hst. apply fold_record_found; [rewrite Hnames; exact Hnd|].
      unfold master_rows. apply in_map_iff. exists st. split; [reflexivity | exact Hst].
Qed.

Lemma get_check_constraints_clauses_measures :
  forallb (fun st => checks_parenthesised (SourceTable.sql st)) [measures] = true
  /\ scan_table_sql (SourceTable.sql measures)
     = Ok ([SQL "    CHECK ([level] > 0)"],
           PyStr.nl +:+ "CREATE TABLE measures (" +:+ PyStr.nl +:+
           "  " +:+ PyStr.dquote +:+ "level" +:+ PyStr.dquote +:+ " INTEGER," +:+ PyStr.nl +:+ ")").
Proof.
  split; [reflexivity|].
  apply (proj1 (get_check_constraints_clauses (Database.mk [measures] [] []) eq_refl)
           measures).
  left. reflexivity.
Defined.

(** C7, as stated, fails twice: the clause extracted for a check over a
    bracket-quoted column still has the brackets, and a definition whose
    line with "CHECK" has no closing parenthesis makes the extractor raise. *)
Lemma get_check_constraints_raw_and_raising :
  get_check_constraints (Database.mk [measures] [] [])
  = Ok {[ "measures" := [SQL "    CHECK ([level] > 0)"] ]}
  /\ PyStr.contains "CHECK" "CREATE TABLE CHECKLIST (" = true
  /\ get_check_constraints (Database.mk [checklist] [] []) = Err ValueError.
Proof. repeat split. Qed.

(** ** Connections *)

Section ConnectionFacts.

Variable ask : list pg_request -> pg_request -> option exn.

Lemma block_run {A} enter leave escape (body : conn A) sent self :
  block ask enter leave escape body sent self
  = match ask sent enter with
    | Some e => (sent ++ [enter], self, Err e)
    | None =>
        match body (sent ++ [enter]) self with
        | (sent', self', Ok a) =>
            (sent' ++ [leave], self',
             match ask sent' leave with Some e => Err e | None => Ok a end)
        | (sent', self', Err e) => (sent' ++ [escape], self', Err e)
        end
    end.
Proof.
  unfold block, conn_bind, call, ret.
  destruct (ask sent enter); [reflexivity|].
  destruct (body (sent ++ [enter]) self) as [[sent' self'] [a|e]]; [|reflexivity].
  destruct (ask sent' leave); reflexivity.
Qed.

Lemma accepted_app sent l1 l2 :
  accepted ask sent (l1 ++ l2) = accepted ask sent l1 && accepted ask (sent ++ l1) l2.
Proof.
  revert sent. induction l1 as [|r l1 IH]; intros sent; cbn [accepted app].
  - rewrite app_nil_r. reflexivity.
  - destruct (ask sent r); [reflexivity|]. rewrite IH, <- app_assoc. reflexivity.
Qed.

(** Executing statements leaves the object alone, and goes through exactly
    when the engine accepts each statement in turn. *)
Lemma execute_all_run statements : forall sent self,
  exists sent' r,
    execute_all ask statements sent self = (sent', self, r)
    /\ is_ok r = accepted ask sent (map PgExecute statements)
    /\ (is_ok r = true -> sent' = sent ++ map PgExecute statements).
Proof.
  induction statements as [|s statements IH]; intros sent self.
  - exists sent, (Ok tt). cbn. rewrite app_nil_r. auto.
  - cbn [execute_all map accepted]. unfold conn_bind, call.
    destruct (ask sent (PgExecute s)) as [e|].
    + exists (sent ++ [PgExecute s]), (Err e). split; [reflexivity|].
      split; [reflexivity | discriminate].
    + destruct (IH (sent ++ [PgExecute s]) self) as (sent' & r & E & Hok & Hsent).
      exists sent', r. split; [exact E|]. split; [exact Hok|].
      intros H. rewrite (Hsent H), <- app_assoc. reflexivity.
Qed.

Lemma drop_tables_execute tables : forall sent self,
  drop_tables ask tables sent self
  = execute_all ask (map drop_statement tables) sent self.
Proof.
  induction tables as [|t tables IH]; intros sent self; [reflexivity|].
  cbn [drop_tables map execute_all]. unfold drop_table, conn_bind, eval, call.
  change (Sql.format "DROP TABLE IF EXISTS {table_name} CASCADE;"
            [("table_name", Identifier (Table.name t))]) with (Ok (drop_statement t)).
  cbn iota. destruct (ask sent (PgExecute (drop_statement t))); [reflexivity|]. apply IH.
Qed.

End ConnectionFacts.

(** A session of the main program, case by case. *)
Lemma session_run env body self :
  session env body self
  = let ask := answer env (target self) Main in
    match ask [] PgConnect with
    | Some e => Raised e (with_target (fun log => log ++ [Session [PgConnect]]) self)
    | None =>
        match body ask [PgConnect] self with
        | (sent, self', Ok _) =>
            let self'' :=
              with_target (fun log => log ++ [Session (sent ++ [PgCommit])]) self' in
            match ask sent PgCommit with
            | Some e => Raised e self''
            | None => Returned self''
            end
        | (sent, self', Err e) =>
            Raised e (with_target (fun log => log ++ [Session (sent ++ [PgRollback])]) self')
        end
    end.
Proof.
  unfold session, connection. cbv zeta. rewrite block_run. cbn [app].
  destruct (answer env (target self) Main [] PgConnect); [reflexivity|].
  destruct (body _ [PgConnect] self) as [[sent self'] [u|e]]; [|reflexivity].
  destruct (answer env (target self) Main sent PgCommit); reflexivity.
Qed.

(** A session that only executes statements. *)
Lemma session_statements env statements self :
  is_returned (session env (fun ask => execute_all ask statements) self)
  = accepted (answer env (target self) Main) [] (statements_session statements)
  /\ (forall self',
        session env (fun ask => execute_all ask statements) self = Returned self' ->
        self' = with_target (fun log => log ++ [Session (statements_session statements)]) self)
  /\ exists sent,
       left_by (session env (fun ask => execute_all ask statements) self)
       = with_target (fun log => log ++ [Session sent]) self.
Proof.
  rewrite session_run. cbv zeta. unfold statements_session. cbn [accepted].
  destruct (answer env (target self) Main [] PgConnect) as [e|].
  { split; [reflexivity|]. split; [discriminate | eexists; reflexivity]. }
  cbn [app]. rewrite accepted_app.
  destruct (execute_all_run (answer env (target self) Main) statements [PgConnect] self)
    as (sent & r & E & Hok & Hsent).
  rewrite E, <- Hok. destruct r as [u|e]; cbn [is_ok andb].
  2:{ split; [reflexivity|]. split; [discriminate | eexists; reflexivity]. }
  rewrite (Hsent eq_refl). cbn [accepted app].
  destruct (answer env (target self) Main _ PgCommit) as [e|].
  - split; [reflexivity|]. split; [discriminate | eexists; reflexivity].
  - split; [reflexivity|]. split; [|eexists; reflexivity].
    intros self' [= <-]. reflexivity.
Qed.

(** ** Schema build *)

Lemma mapM_total {A B} (f : A -> res B) (g : A -> B) l :
  (forall x, f x = Ok (g x)) -> mapM f l = Ok (map g l).
Proof.
  intros H. induction l as [|x l IH]; [reflexivity|].
  cbn [mapM map]. rewrite H, IH. reflexivity.
Qed.

Lemma fk_sql_statements table fks :
  mapM (fun fk =>
      let* other_column :=
        match ForeignKey.other_column fk with
        | Some other_column => Ok other_column
        | None => Err TypeError
        end in
      let fk_name := "FK_" +:+ other_column in
      Sql.format
        "ALTER TABLE {table_name} ADD CONSTRAINT {key_name}  FOREIGN KEY ({column}) REFERENCES {other_table} ({other_column})"
        [("table_name", Identifier (Table.name table));
         ("column", Identifier (ForeignKey.column fk));
         ("key_name", Identifier fk_name);
         ("other_table", Identifier (ForeignKey.other_table fk));
         ("other_column", Identifier other_column)]) fks
  = if forallb (fun fk => bool_decide (is_Some (ForeignKey.other_column fk))) fks
    then Ok (omap (fun fk => fk_statement table fk <$> ForeignKey.other_column fk) fks)
    else Err TypeError.
Proof.
  cbv zeta. induction fks as [|fk fks IH]; [reflexivity|].
  cbn [mapM forallb omap list_omap]. destruct (ForeignKey.other_column fk) as [c|]; [|reflexivity].
  cbn [res_bind].
  assert (Hf : Sql.format
                 "ALTER TABLE {table_name} ADD CONSTRAINT {key_name}  FOREIGN KEY ({column}) REFERENCES {other_table} ({other_column})"
                 [("table_name", Identifier (Table.name table));
                  ("column", Identifier (ForeignKey.column fk));
                  ("key_name", Identifier ("FK_" +:+ c));
                  ("other_table", Identifier (ForeignKey.other_table fk));
                  ("other_column", Identifier c)]
               = Ok (fk_statement table fk c)) by reflexivity.
  rewrite Hf. cbn [res_bind]. rewrite IH.
  rewrite bool_decide_eq_true_2 by eauto. cbn [andb fmap option_fmap option_map].
  destruct (forallb _ fks); reflexivity.
Qed.

Lemma get_fk_sql_exact table self :
  get_fk_sql table self
  = if parents_named table
    then Ok (fk_statements table,
             with_summary (Summary.with_fks
               (insert (Table.name table)
                  (entry "PREPARED" "count" (length (Table.foreign_keys table))))) self)
    else Err TypeError.
Proof.
  unfold get_fk_sql, parents_named, fk_statements. rewrite fk_sql_statements.
  destruct (forallb _ (Table.foreign_keys table)); reflexivity.
Qed.

Lemma get_table_sql_exact table self :
  get_table_sql table self
  = let* ddl := table_statement table in
    match checks_sql_by_table self !! Table.name table with
    | None => Err (KeyError (Table.name table))
    | Some checks =>
        Ok (ddl,
            with_summary (fun s =>
              Summary.mk
                (<[Table.name table := entry "PREPARED" "count" (length (Table.columns table))]>
                   (Summary.columns s))
                (<[Table.name table := entry "PREPARED" "count" (length (Table.pks table))]>
                   (Summary.pks s))
                (Summary.fks s)
                (<[Table.name table := entry "IGNORED" "count" (length checks)]>
                   (Summary.checks s))
                (Summary.data s) (Summary.indexes s) (Summary.views s) (Summary.triggers s))
              self)
    end.
Proof.
  unfold table_statement.
  destruct (mapM column_sql (Table.columns table)) as [clauses|] eqn:E.
  - rewrite (get_table_sql_unfold _ _ _ E). cbn [res_bind].
    destruct (checks_sql_by_table self !! Table.name table); reflexivity.
  - unfold get_table_sql. rewrite create_template, E. reflexivity.
Qed.

Lemma get_index_sql_exact table self :
  get_index_sql table self
  = Ok (index_statements table,
        with_summary (Summary.with_indexes
          (insert (Table.name table)
             (entry "PREPARED" "count" (length (Table.xindexes table))))) self).
Proof.
  unfold get_index_sql.
  rewrite (mapM_total _ (index_statement table)) by (intros i; apply index_sql_statement).
  reflexivity.
Qed.

Lemma drop_tables_session env db self :
  _drop_tables env db self
  = session env (fun ask => execute_all ask (map drop_statement (db_tables db))) self.
Proof.
  unfold _drop_tables. rewrite !session_run. cbv zeta.
  rewrite drop_tables_execute. reflexivity.
Qed.

Lemma built_built d1 f1 i1 s1 d2 f2 i2 s2 self :
  built d2 f2 i2 s2 (built d1 f1 i1 s1 self) = built (d1 ++ d2) (f1 ++ f2) (i1 ++ i2) s2 self.
Proof. unfold built. cbn. rewrite !app_assoc. reflexivity. Qed.

Lemma built_nothing self : built [] [] [] (summary self) self = self.
Proof. destruct self. unfold built. cbn. rewrite !app_nil_r. reflexivity. Qed.

Lemma load_table_schema_exact self table ddl checks :
  kept table = true ->
  table_statement table = Ok ddl ->
  parents_named table = true ->
  checks_sql_by_table self !! Table.name table = Some checks ->
  load_table_schema self table
  = Returned (built [ddl] (fk_statements table) (index_statements table)
                (note_table (length checks) table (summary self)) self).
Proof.
  intros Hk Hd Hp Hc. unfold load_table_schema. unfold kept in Hk.
  destruct (String.eqb (Table.name table) "sqlite_sequence"); [discriminate Hk|].
  rewrite get_table_sql_exact, Hd. cbn [res_bind]. rewrite Hc. cbn [attempt].
  rewrite get_fk_sql_exact, Hp. cbn [attempt]. rewrite get_index_sql_exact. reflexivity.
Qed.

Lemma load_table_schema_skip self table :
  kept table = false -> load_table_schema self table = Returned self.
Proof.
  unfold load_table_schema, kept. intros H.
  destruct (String.eqb (Table.name table) "sqlite_sequence"); [reflexivity | discriminate H].
Qed.

Lemma load_tables_exact tables : forall self ddls,
  (forall t, In t tables -> is_Some (checks_sql_by_table self !! Table.name t)) ->
  mapM table_statement (List.filter kept tables) = Ok ddls ->
  forallb parents_named (List.filter kept tables) = true ->
  for_each load_table_schema tables self
  = Returned (built ddls
                (flat_map fk_statements (List.filter kept tables))
                (flat_map index_statements (List.filter kept tables))
                (note_tables (checks_sql_by_table self) (List.filter kept tables) (summary self))
                self).
Proof.
  induction tables as [|t tables IH]; intros self ddls Hchecks Hm Hp.
  - injection Hm as <-. cbn. rewrite built_nothing. reflexivity.
  - cbn [for_each List.filter]. cbn [List.filter] in Hm, Hp.
    destruct (kept t) eqn:Hk.
    + cbn [mapM] in Hm. destruct (table_statement t) as [ddl|] eqn:Hd; [|discriminate Hm].
      cbn [res_bind] in Hm.
      destruct (mapM table_statement (List.filter kept tables)) as [rest|] eqn:Hrest;
        [|discriminate Hm].
      injection Hm as <-. cbn [forallb] in Hp. apply andb_true_iff in Hp as [Hpt Hp].
      destruct (Hchecks t (or_introl eq_refl)) as [checks Hc].
      rewrite (load_table_schema_exact _ _ _ _ Hk Hd Hpt Hc). cbn [and_then].
      rewrite (IH _ rest); [|intros t' Ht'; apply Hchecks; right; exact Ht' | reflexivity
                            |exact Hp].
      rewrite built_built. cbn [flat_map]. unfold note_tables at 2. cbn [fold_left].
      rewrite Hc. reflexivity.
    + rewrite (load_table_schema_skip _ _ Hk). cbn [and_then].
      apply IH; [intros t' Ht'; apply Hchecks; right; exact Ht' | exact Hm | exact Hp].
Qed.

Lemma load_tables_raise tables : forall self,
  is_ok (mapM table_statement (List.filter kept tables))
  && forallb parents_named (List.filter kept tables) = false ->
  is_returned (for_each load_table_schema tables self) = false.
Proof.
  induction tables as [|t tables IH]; intros self Hm; [discriminate Hm|].
  cbn [for_each List.filter]. cbn [List.filter] in Hm.
  destruct (kept t) eqn:Hk.
  - cbn [mapM forallb] in Hm. unfold load_table_schema. unfold kept in Hk.
    destruct (String.eqb (Table.name t) "sqlite_sequence"); [discriminate Hk|].
    rewrite get_table_sql_exact.
    destruct (table_statement t) as [ddl|]; [|reflexivity]. cbn [res_bind] in *.
    destruct (checks_sql_by_table self !! Table.name t); [|reflexivity].
    cbn [attempt]. rewrite get_fk_sql_exact.
    destruct (parents_named t); [|reflexivity]. cbn [attempt andb] in *.
    rewrite get_index_sql_exact. cbn [attempt and_then].
    apply IH. destruct (mapM table_statement (List.filter kept tables)); exact Hm.
  - rewrite (load_table_schema_skip _ _ Hk). cbn [and_then]. apply IH, Hm.
Qed.

Lemma find_absent sub s :
  PyStr.contains sub s = false -> index sub s = Err ValueError.
Proof.
  unfold index. induction s as [|c s IH]; cbn [PyStr.contains PyStr.find].
  - destruct (PyStr.prefix sub ""); [discriminate | reflexivity].
  - destruct (PyStr.prefix sub (String c s)); [discriminate|]. cbn [orb].
    intros H. specialize (IH H). destruct (PyStr.find sub s); [discriminate IH | reflexivity].
Qed.

Lemma rfind_absent sub s :
  PyStr.contains sub s = false -> rindex sub s = Err ValueError.
Proof.
  unfold rindex. induction s as [|c s IH]; cbn [PyStr.contains PyStr.rfind].
  - destruct (PyStr.prefix sub ""); [discriminate | reflexivity].
  - destruct (PyStr.prefix sub (String c s)); [discriminate|]. cbn [orb].
    intros H. specialize (IH H). destruct (PyStr.rfind sub s); [discriminate IH | reflexivity].
Qed.

Lemma scan_lines_raise lines : forall acc,
  forallb (fun line =>
    implb (PyStr.contains "CHECK" line)
      (PyStr.contains "(" line && PyStr.contains ")" line)) lines = false ->
  scan_lines acc lines = Err ValueError.
Proof.
  induction lines as [|line lines IH]; intros [checks transpile] H; [discriminate H|].
  cbn [forallb] in H. cbn [scan_lines scan_line].
  destruct (PyStr.contains "CHECK" line) eqn:Hc; cbn [implb] in H.
  - destruct (PyStr.contains "(" line) eqn:Ho.
    + apply find_contains in Ho. destruct (index "(" line) as [start|]; [|discriminate Ho].
      cbn [res_bind]. destruct (PyStr.contains ")" line) eqn:Hcl.
      * apply rfind_contains in Hcl. destruct (rindex ")" line); [|discriminate Hcl].
        cbn [res_bind]. apply IH. exact H.
      * rewrite (rfind_absent _ _ Hcl). reflexivity.
    + rewrite (find_absent _ _ Ho). reflexivity.
  - cbn [res_bind]. apply IH. exact H.
Qed.

Lemma scan_master_raise master : forall checks,
  forallb (fun row => checks_parenthesised (snd row)) master = false ->
  scan_master checks master = Err ValueError.
Proof.
  induction master as [|[name sql] master IH]; intros checks H; [discriminate H|].
  cbn [forallb snd] in H. cbn [scan_master].
  destruct (checks_parenthesised sql) eqn:Hs.
  - rewrite scan_table_sql_clauses by exact Hs. cbn [res_bind]. apply IH. exact H.
  - unfold scan_table_sql. unfold checks_parenthesised in Hs.
    rewrite scan_lines_raise by exact Hs. reflexivity.
Qed.

Lemma master_parenthesised db :
  forallb (fun row => checks_parenthesised (snd row)) (master_rows db)
  = forallb (fun st => checks_parenthesised (SourceTable.sql st)) (Database.tables db).
Proof.
  unfold master_rows. induction (Database.tables db) as [|st l IH]; [reflexivity|].
  cbn [map forallb snd]. rewrite IH. reflexivity.
Qed.

Lemma get_check_constraints_exact (db : Database.t) :
  get_check_constraints db
  = if forallb (fun st => checks_parenthesised (SourceTable.sql st)) (Database.tables db)
    then Ok (fold_left record_checks (master_rows db) ∅)
    else Err ValueError.
Proof.
  unfold get_check_constraints. rewrite <- master_parenthesised.
  destruct (forallb _ (master_rows db)) eqn:H.
  - apply scan_master_fold, H.
  - apply scan_master_raise, H.
Qed.

Lemma master_names db : map fst (master_rows db) = map Table.name (db_tables db).
Proof. unfold master_rows, db_tables. rewrite !map_map. reflexivity. Qed.

Lemma fold_record_some master : forall checks name,
  In name (map fst master) \/ is_Some (checks !! name) ->
  is_Some (fold_left record_checks master checks !! name).
Proof.
  induction master as [|[n sql] master IH]; intros checks name H.
  - destruct H as [[]|H]. exact H.
  - cbn [fold_left]. apply IH. cbn [map fst] in H.
    destruct (String.eqb_spec n name) as [->|Hne].
    + right. unfold record_checks. cbn. rewrite lookup_insert_eq. eauto.
    + destruct H as [[H|H]|H]; [contradiction | left; exact H |].
      right. unfold record_checks. cbn. rewrite lookup_insert_ne by exact Hne. exact H.
Qed.

Lemma load_schema_undropped env db self :
  load_schema env db false self
  = if forallb (fun st => checks_parenthesised (SourceTable.sql st)) (Database.tables db)
    then for_each load_table_schema (db_tables db)
           (with_checks_sql_by_table (fun _ => fold_left record_checks (master_rows db) ∅) self)
    else Raised ValueError self.
Proof.
  unfold load_schema. cbn [and_then]. rewrite get_check_constraints_exact.
  destruct (forallb _ (Database.tables db)); [|reflexivity].
  destruct (for_each load_table_schema (db_tables db) _); reflexivity.
Qed.

Lemma load_schema_dropped env db self :
  load_schema env db true self
  = let+ self := _drop_tables env db self in load_schema env db false self.
Proof. reflexivity. Qed.

Lemma load_schema_spec (env : Env) (db : Database.t) (drop : bool) (self : PGSqlite) :
  is_returned (load_schema env db drop self)
  = (if drop
     then accepted (answer env (target self) Main) []
            (statements_session (map drop_statement (db_tables db)))
     else true)
    && forallb (fun st => checks_parenthesised (SourceTable.sql st)) (Database.tables db)
    && is_ok (mapM table_statement (List.filter kept (db_tables db)))
    && forallb parents_named (List.filter kept (db_tables db))
  /\ forall self',
       load_schema env db drop self = Returned self' ->
       exists ddls,
         mapM table_statement (List.filter kept (db_tables db)) = Ok ddls
         /\ tables_sql self' = tables_sql self ++ ddls
         /\ fks_sql self'
            = fks_sql self ++ flat_map fk_statements (List.filter kept (db_tables db))
         /\ indexes_sql self'
            = indexes_sql self ++ flat_map index_statements (List.filter kept (db_tables db))
         /\ get_check_constraints db = Ok (checks_sql_by_table self')
         /\ summary self'
            = note_tables (checks_sql_by_table self') (List.filter kept (db_tables db))
                (summary self)
         /\ target self'
            = target self
              ++ (if drop
                  then [Session (statements_session (map drop_statement (db_tables db)))]
                  else [])
         /\ transformers self' = transformers self
         /\ show_sample_data self' = show_sample_data self.
Proof.
  assert (Hpure : forall self0,
    is_returned (load_schema env db false self0)
    = forallb (fun st => checks_parenthesised (SourceTable.sql st)) (Database.tables db)
      && is_ok (mapM table_statement (List.filter kept (db_tables db)))
      && forallb parents_named (List.filter kept (db_tables db))
    /\ forall self',
         load_schema env db false self0 = Returned self' ->
         exists ddls,
           mapM table_statement (List.filter kept (db_tables db)) = Ok ddls
           /\ self' = built ddls
                        (flat_map fk_statements (List.filter kept (db_tables db)))
                        (flat_map index_statements (List.filter kept (db_tables db)))
                        (note_tables (fold_left record_checks (master_rows db) ∅)
                           (List.filter kept (db_tables db)) (summary self0))
                        (with_checks_sql_by_table
                           (fun _ => fold_left record_checks (master_rows db) ∅) self0)
           /\ get_check_constraints db = Ok (fold_left record_checks (master_rows db) ∅)).
  { intros self0. rewrite load_schema_undropped, get_check_constraints_exact.
    destruct (forallb _ (Database.tables db)) eqn:Hp; [|split; [reflexivity | discriminate]].
    cbn [andb]. set (self1 := with_checks_sql_by_table _ _).
    assert (Hchecks : forall t, In t (db_tables db) ->
                        is_Some (checks_sql_by_table self1 !! Table.name t)).
    { intros t Ht. subst self1. cbn. apply fold_record_some. left.
      rewrite master_names. apply in_map, Ht. }
    destruct (mapM table_statement (List.filter kept (db_tables db))) as [ddls|] eqn:Hm.
    - destruct (forallb parents_named (List.filter kept (db_tables db))) eqn:Hn.
      + rewrite (load_tables_exact _ _ ddls Hchecks Hm Hn). split; [reflexivity|].
        intros self' [= <-]. exists ddls. repeat split.
      + pose proof (load_tables_raise (db_tables db) self1) as Hr.
        rewrite Hm, Hn in Hr. specialize (Hr eq_refl).
        split; [exact Hr|]. intros self' H. rewrite H in Hr. discriminate Hr.
    - pose proof (load_tables_raise (db_tables db) self1) as Hr.
      rewrite Hm in Hr. specialize (Hr eq_refl).
      split; [exact Hr|]. intros self' H. rewrite H in Hr. discriminate Hr. }
  destruct drop.
  - rewrite load_schema_dropped, drop_tables_session.
    destruct (session_statements env (map drop_statement (db_tables db)) self)
      as (Hok & Hret & _).
    destruct (session env _ self) as [self0|e self0] eqn:E; cbn [and_then is_returned] in *.
    + rewrite <- Hok. cbn [andb]. destruct (Hpure self0) as [Hp Hf]. split; [exact Hp|].
      intros self' H. destruct (Hf self' H) as (ddls & Hd & -> & Hc). exists ddls.
      rewrite (Hret self0 eq_refl). split; [exact Hd|]. rewrite Hc. repeat split.
    + rewrite <- Hok. split; [reflexivity | discriminate].
  - destruct (Hpure self) as [Hp Hf]. split; [exact Hp|].
    intros self' H. destruct (Hf self' H) as (ddls & Hd & -> & Hc). exists ddls.
    split; [exact Hd|]. rewrite Hc. cbn. rewrite app_nil_r. repeat split.
Qed.

(** ** Data load *)

Lemma loading_self self : loading (target self) (Summary.data (summary self)) self = self.
Proof. destruct self as [? ? ? ? [] ? ? ?]. reflexivity. Qed.

Lemma set_data_status_loading name status log data self :
  set_data_status name status (loading log data self)
  = match data !! name with
    | Some e => Ok (loading log (<[name := <["status" := SStr status]> e]> data) self)
    | None => Err (KeyError name)
    end.
Proof.
  unfold set_data_status, Summary.set_status. cbn.
  destruct (data !! name); reflexivity.
Qed.

Section CopyRows.

Variables (ask : list pg_request -> pg_request -> option exn) (table : Table.t).

(** One turn of the row loop. *)
Lemma copy_rows_cons row rest n sent self :
  copy_rows ask table (row :: rest) n sent self
  = match transform_row (transformers self) (Table.columns table) 0 row with
    | Err e => (sent, self, Err e)
    | Ok r =>
        match ask sent (PgWriteRow r) with
        | Some e => (sent ++ [PgWriteRow r], self, Err e)
        | None =>
            if (S n mod 1000 =? 0)%nat then
              match set_data_status (Table.name table) (loaded (S n)) self with
              | Ok self1 => copy_rows ask table rest (S n) (sent ++ [PgWriteRow r]) self1
              | Err e => (sent ++ [PgWriteRow r], self, Err e)
              end
            else copy_rows ask table rest (S n) (sent ++ [PgWriteRow r]) self
        end
    end.
Proof.
  cbn [copy_rows]. unfold conn_bind at 1, eval.
  destruct (transform_row (transformers self) (Table.columns table) 0 row) as [r|e];
    [|reflexivity].
  unfold conn_bind at 1, call. destruct (ask sent (PgWriteRow r)); [reflexivity|].
  unfold conn_bind at 1. destruct (S n mod 1000 =? 0)%nat.
  - unfold assign. destruct (set_data_status _ _ self); reflexivity.
  - reflexivity.
Qed.

(** The whole of [write_table_data], case by case. *)
Lemma write_table_data_run rows self :
  write_table_data ask table rows [] self
  = match ask [] PgConnect with
    | Some e => ([PgConnect], self, Err e)
    | None =>
        match ask [PgConnect] (PgCopy (copy_command table)) with
        | Some e => ([PgConnect; PgCopy (copy_command table); PgRollback], self, Err e)
        | None =>
            match copy_rows ask table rows 0 [PgConnect; PgCopy (copy_command table)] self with
            | (sent, self1, Err e) => (sent ++ [PgCopyAbort; PgRollback], self1, Err e)
            | (sent, self1, Ok n) =>
                match set_data_status (Table.name table) (loaded n) self1 with
                | Err e => (sent ++ [PgCopyAbort; PgRollback], self1, Err e)
                | Ok self2 =>
                    match ask sent PgCopyEnd with
                    | Some e => (sent ++ [PgCopyEnd; PgRollback], self2, Err e)
                    | None =>
                        (sent ++ [PgCopyEnd; PgCommit], self2,
                         match ask (sent ++ [PgCopyEnd]) PgCommit with
                         | Some e => Err e
                         | None => Ok tt
                         end)
                    end
                end
            end
        end
    end.
Proof.
  unfold write_table_data, connection, copying. rewrite block_run. cbn [app].
  destruct (ask [] PgConnect); [reflexivity|]. rewrite block_run. cbn [app].
  destruct (ask [PgConnect] (PgCopy (copy_command table))); [reflexivity|].
  unfold conn_bind, assign.
  destruct (copy_rows ask table rows 0 _ self) as [[sent self1] [n|e]];
    [|rewrite <- app_assoc; reflexivity].
  destruct (set_data_status _ _ self1) as [self2|e]; [|rewrite <- app_assoc; reflexivity].
  destruct (ask sent PgCopyEnd); rewrite <- app_assoc; reflexivity.
Qed.

Variables (self : PGSqlite) (log : list activity).


(** A row loop that returns has transformed every row and has had every
    row accepted. *)
Lemma copy_rows_returned rows : forall n sent data sent' self' m,
  copy_rows ask table rows n sent (loading log data self) = (sent', self', Ok m) ->
  exists rows' data',
    copied_rows (transformers self) table rows = Ok rows'
    /\ accepted ask sent (map PgWriteRow rows') = true
    /\ sent' = sent ++ map PgWriteRow rows'
    /\ m = n + length rows
    /\ self' = loading log data' self
    /\ (data' = data
        \/ exists e s, data !! Table.name table = Some e
                       /\ data' = <[Table.name table := <["status" := SStr s]> e]> data).
Proof.
  unfold copied_rows.
  induction rows as [|row rows IH]; intros n sent data sent' self' m H.
  - injection H as <- <- <-. exists [], data. cbn. rewrite app_nil_r, Nat.add_0_r.
    repeat split. left. reflexivity.
  - rewrite copy_rows_cons in H.
    change (transformers (loading log data self)) with (transformers self) in H.
    cbn [mapM].
    destruct (transform_row _ _ 0 row) as [r|e]; [|discriminate H]. cbn [res_bind].
    destruct (ask sent (PgWriteRow r)) as [e|] eqn:Ha; [discriminate H|].
    assert (Hrest : forall data1,
              copy_rows ask table rows (S n) (sent ++ [PgWriteRow r]) (loading log data1 self)
              = (sent', self', Ok m) ->
              exists rows' data',
                (let* ys := mapM (transform_row (transformers self) (Table.columns table) 0) rows
                 in Ok (r :: ys)) = Ok rows'
                /\ accepted ask sent (map PgWriteRow rows') = true
                /\ sent' = sent ++ map PgWriteRow rows'
                /\ m = n + length (row :: rows)
                /\ self' = loading log data' self
                /\ (data' = data1
                    \/ exists e s, data1 !! Table.name table = Some e
                         /\ data' = <[Table.name table := <["status" := SStr s]> e]> data1)).
    { intros data1 H1. apply IH in H1 as (rows' & data' & Hm & Hacc & -> & -> & -> & Hd).
      exists (r :: rows'), data'. rewrite Hm. cbn [res_bind map accepted]. rewrite Ha.
      split; [reflexivity|]. split; [exact Hacc|].
      split; [rewrite <- app_assoc; reflexivity|].
      split; [cbn [length]; lia|]. split; [reflexivity | exact Hd]. }
    destruct (S n mod 1000 =? 0)%nat; [|apply Hrest, H].
    rewrite set_data_status_loading in H.
    destruct (data !! Table.name table) as [e|] eqn:He; [|discriminate H].
    apply Hrest in H as (rows' & data' & Hm & Hacc & Hs & Hn & Hself & Hd).
    exists rows', data'. split; [exact Hm|]. split; [exact Hacc|]. split; [exact Hs|].
    split; [exact Hn|]. split; [exact Hself|]. right. exists e.
    destruct Hd as [->|(e1 & s & He1 & ->)]; [eauto|].
    rewrite lookup_insert_eq in He1. injection He1 as <-.
    exists s. rewrite !insert_insert_eq. auto.
Qed.



(** [write_table_data] returns only when the table's data entry is there,
    every row has been transformed and the engine has accepted every request of
    the copy; the entry then says LOADED with the number of rows. *)
Lemma write_table_data_returned rows data sent self' u :
  write_table_data ask table rows [] (loading log data self) = (sent, self', Ok u) ->
  exists e rows',
    data !! Table.name table = Some e
    /\ copied_rows (transformers self) table rows = Ok rows'
    /\ sent = copy_session table rows'
    /\ accepted ask [] (copy_session table rows') = true
    /\ self' = loading log
                 (<[Table.name table := <["status" := SStr (loaded (length rows))]> e]> data)
                 self.
Proof.
  rewrite write_table_data_run. unfold copy_session. cbn [accepted app].
  destruct (ask [] PgConnect) as [|] eqn:A1; [discriminate|].
  destruct (ask [PgConnect] (PgCopy (copy_command table))) as [|] eqn:A2; [discriminate|].
  destruct (copy_rows ask table rows 0 _ _) as [[sent1 self1] [n|]] eqn:E; [|discriminate].
  apply copy_rows_returned in E as (rows' & data1 & Hm & Hacc & -> & -> & -> & Hd).
  cbn [Nat.add]. rewrite set_data_status_loading.
  destruct (data1 !! Table.name table) as [e1|] eqn:He1; [|discriminate].
  destruct (ask _ PgCopyEnd) as [|] eqn:A3; [discriminate|].
  destruct (ask _ PgCommit) as [|] eqn:A4; [discriminate|].
  intros [= <- <-].
  assert (He : exists e, data !! Table.name table = Some e
                 /\ <[Table.name table := <["status" := SStr (loaded (length rows))]> e1]>
                      data1
                    = <[Table.name table := <["status" := SStr (loaded (length rows))]> e]>
                        data).
  { destruct Hd as [->|(e & s & He & ->)].
    - exists e1. auto.
    - exists e. split; [exact He|]. rewrite lookup_insert_eq in He1. injection He1 as <-.
      rewrite !insert_insert_eq. reflexivity. }
  destruct He as (e & He & Hdata). exists e, rows'.
  split; [exact He|]. split; [exact Hm|].
  split; [reflexivity|].
  split; [|rewrite Hdata; reflexivity].
  rewrite accepted_app. cbn [app]. rewrite Hacc. cbn [accepted andb app].
  cbn [app] in A3, A4. rewrite A3, A4. reflexivity.
Qed.


End CopyRows.

(** The task of a source table. *)
Lemma load_tasks_map db :
  load_tasks db
  = map (fun st => mk_task (SourceTable.table st) (SourceTable.rows st)) (Database.tables db).
Proof. reflexivity. Qed.

Section RunTasks.

Variables (env : Env) (hist : list activity) (self : PGSqlite) (log : list activity).


(** When every task has returned: each session is the copy of its table's
    transformed rows, accepted by the engine request by request, and each
    table's data entry says LOADED with the number of its rows. *)
Lemma run_tasks_returned tables : forall n data sessions results self',
  run_tasks env hist n
    (map (fun st => mk_task (SourceTable.table st) (SourceTable.rows st)) tables)
    (loading log data self) = (sessions, results, self') ->
  Forall (fun r => r = None) results ->
  exists data',
    self' = loading log data' self
    /\ Forall2 (copies_table (transformers self)) tables sessions
    /\ (forall i st, tables !! i = Some st ->
        exists rows',
          copied_rows (transformers self) (SourceTable.table st) (SourceTable.rows st)
          = Ok rows'
          /\ accepted (answer env hist (Task (n + i))) []
               (copy_session (SourceTable.table st) rows') = true)
    /\ (forall k, ~ In k (map source_name tables) -> data' !! k = data !! k)
    /\ (forall st, In st tables -> is_Some (data !! source_name st))
    /\ (List.NoDup (map source_name tables) ->
        forall st e, In st tables -> data !! source_name st = Some e ->
        data' !! source_name st
        = Some (<["status" := SStr (loaded (length (SourceTable.rows st)))]> e)).
Proof.
  induction tables as [|st tables IH]; intros n data sessions results self' H Hnone.
  - injection H as <- <- <-. exists data. split; [reflexivity|]. split; [constructor|].
    split; [intros i st Hi; discriminate Hi|]. split; [auto|].
    split; [intros st []|]. intros _ st e [].
  - cbn [map run_tasks task_table task_rows] in H.
    destruct (write_table_data _ _ _ [] _) as [[sent self1] r] eqn:E1.
    destruct (run_tasks env hist (S n) _ self1) as [[sessions' results'] self2] eqn:E2.
    injection H as <- <- <-. inversion Hnone as [|? ? Hr Hrest]; subst.
    destruct r as [u|]; [|discriminate Hr]. clear Hr.
    apply write_table_data_returned in E1 as (e & rows' & He & Hm & -> & Hacc & ->).
    set (data1 := <[_ := _]> data) in *.
    apply IH in E2 as (data' & -> & F & A & O & Hs & N); [|exact Hrest].
    exists data'. split; [reflexivity|].
    split; [constructor; [exists rows'; auto | exact F]|].
    split; [|split; [|split]].
    + intros [|i] st' Hi.
      * injection Hi as <-. rewrite Nat.add_0_r. eauto.
      * replace (n + S i) with (S n + i) by lia. apply A. exact Hi.
    + intros k Hk. cbn [map] in Hk. rewrite O by (intros Hin; apply Hk; right; exact Hin).
      subst data1. apply lookup_insert_ne. intros Heq. apply Hk. left. exact Heq.
    + intros st' [<-|Hin]; [unfold source_name; rewrite He; eauto|].
      specialize (Hs st' Hin). subst data1.
      destruct (decide (Table.name (SourceTable.table st) = source_name st')) as [Heq|Hne].
      * rewrite <- Heq, He. eauto.
      * rewrite lookup_insert_ne in Hs by exact Hne. exact Hs.
    + intros Hnd st0 e0 Hin He0. cbn [map] in Hnd.
      inversion Hnd as [|? ? Hnotin Hnd']; subst.
      destruct Hin as [<-|Hin].
      * rewrite O by exact Hnotin. subst data1. unfold source_name in *.
        rewrite lookup_insert_eq. congruence.
      * apply N; [exact Hnd' | exact Hin |]. subst data1.
        rewrite lookup_insert_ne; [exact He0|].
        intros Heq. apply Hnotin. unfold source_name at 1. rewrite Heq.
        apply in_map, Hin.
Qed.


End RunTasks.

(** [gather] passes an exception on exactly when some task has raised. *)
Lemma raised_first_none env log results :
  raised_first env log results = None <-> Forall (fun r => r = None) results.
Proof.
  assert (Hhead : head (omap id results) = None <-> Forall (fun r => r = None) results).
  { induction results as [|[e|] results IH].
    - split; [constructor | reflexivity].
    - cbn. split; [discriminate | intros H; inversion H; discriminate].
    - cbn. rewrite IH. split; [intros H; constructor; [reflexivity | exact H]|].
      intros H. inversion H. assumption. }
  unfold raised_first.
  destruct (results !! earliest env log results) as [[e|]|] eqn:E; [|exact Hhead..].
  split; [discriminate|]. intros H. rewrite List.Forall_forall in H.
  apply list_elem_of_lookup_2, list_elem_of_In in E. apply H in E. discriminate E.
Qed.


Lemma gather_run env tasks self :
  gather env tasks self
  = match run_tasks env (target self) 0 tasks self with
    | (sessions, results, self') =>
        match raised_first env (target self) results with
        | Some e => Raised e (with_target (fun log => log ++ [Gathered sessions]) self')
        | None => Returned (with_target (fun log => log ++ [Gathered sessions]) self')
        end
    end.
Proof.
  unfold gather. destruct (run_tasks env (target self) 0 tasks self) as [[? ?] ?].
  reflexivity.
Qed.

Section FoldInsert.

Context {A V : Type} (key : A -> string) (val : A -> V).

Lemma fold_insert_other l : forall (m : gmap string V) k,
  ~ In k (map key l) ->
  fold_left (fun m x => <[key x := val x]> m) l m !! k = m !! k.
Proof.
  induction l as [|x l IH]; intros m k Hk; [reflexivity|].
  cbn [fold_left]. rewrite IH by (intros Hin; apply Hk; right; exact Hin).
  apply lookup_insert_ne. intros E. apply Hk. left. exact E.
Qed.

Lemma fold_insert_found l : forall (m : gmap string V) x,
  List.NoDup (map key l) -> In x l ->
  fold_left (fun m x => <[key x := val x]> m) l m !! key x = Some (val x).
Proof.
  induction l as [|y l IH]; intros m x Hnd Hin; [destruct Hin|].
  cbn [map] in Hnd. inversion Hnd as [|? ? Hnotin Hnd']; subst. cbn [fold_left].
  destruct Hin as [->|Hin]; [|apply IH; assumption].
  rewrite fold_insert_other by exact Hnotin. apply lookup_insert_eq.
Qed.


End FoldInsert.

Lemma prepare_data_exact tables : forall log data self,
  fold_left prepare_data tables (loading log data self)
  = loading log (prepared_data tables data) self.
Proof.
  induction tables as [|st tables IH]; intros log data self; [reflexivity|].
  cbn [fold_left]. unfold prepared_data. cbn [fold_left].
  change (prepare_data (loading log data self) st)
    with (loading log (<[source_name st := prepared_entry (length (SourceTable.rows st))]> data)
            self).
  apply IH.
Qed.

Lemma prepare_data_self tables self :
  fold_left prepare_data tables self
  = loading (target self) (prepared_data tables (Summary.data (summary self))) self.
Proof. rewrite <- (loading_self self) at 1. apply prepare_data_exact. Qed.

Lemma prepared_data_found tables data st :
  List.NoDup (map source_name tables) -> In st tables ->
  prepared_data tables data !! source_name st
  = Some (prepared_entry (length (SourceTable.rows st))).
Proof.
  intros Hnd Hin. unfold prepared_data.
  exact (fold_insert_found source_name
           (fun st => prepared_entry (length (SourceTable.rows st))) tables data st Hnd Hin).
Qed.

Lemma source_names db : map source_name (Database.tables db) = map Table.name (db_tables db).
Proof. unfold db_tables. rewrite map_map. reflexivity. Qed.

Lemma show_sample_statements env self table :
  show_sample env self table
  = session env (fun ask => execute_all ask [sample_query table]) self.
Proof.
  unfold show_sample. rewrite !session_run. cbv zeta. cbn [execute_all].
  unfold conn_bind, call, ret.
  destruct (answer env (target self) Main [] PgConnect); [reflexivity|].
  destruct (answer env (target self) Main [PgConnect] (PgExecute (sample_query table)));
    reflexivity.
Qed.

(** The sample queries: one session each, in catalog order; only the log
    changes. *)
Lemma show_samples_run env tables : forall log data self,
  exists more,
    left_by (for_each (show_sample env) tables (loading log data self))
    = loading (log ++ more) data self
    /\ (is_returned (for_each (show_sample env) tables (loading log data self)) = true ->
        more = map (fun t => Session (statements_session [sample_query t])) tables).
Proof.
  induction tables as [|t tables IH]; intros log data self.
  - exists []. cbn. rewrite app_nil_r. auto.
  - cbn [for_each]. rewrite show_sample_statements.
    destruct (session_statements env [sample_query t] (loading log data self))
      as (_ & Hret & sent & Hleft).
    destruct (session env _ (loading log data self)) as [self1|e self1] eqn:E.
    + cbn [and_then]. rewrite (Hret self1 eq_refl).
      change (with_target _ (loading log data self))
        with (loading (log ++ [Session (statements_session [sample_query t])]) data self).
      destruct (IH (log ++ [Session (statements_session [sample_query t])]) data self)
        as (more & Hm & Hr).
      exists (Session (statements_session [sample_query t]) :: more).
      rewrite Hm, <- app_assoc. split; [reflexivity|].
      intros H. rewrite (Hr H). reflexivity.
    + cbn [and_then left_by is_returned]. cbn [left_by] in Hleft. rewrite Hleft.
      exists [Session sent]. split; [reflexivity | discriminate].
Qed.



Section LoadData.

Variables (env : Env) (db : Database.t) (self : PGSqlite).


(** When the load returns. *)
Lemma load_data_to_postgres_returned self' :
  load_data_to_postgres env db self = Returned self' ->
  exists sessions data',
    self' = loading
              (target self ++ Gathered sessions
                 :: (if show_sample_data self
                     then map (fun t => Session (statements_session [sample_query t]))
                            (db_tables db)
                     else []))
              data' self
    /\ Forall2 (copies_table (transformers self)) (Database.tables db) sessions
    /\ (forall i st, Database.tables db !! i = Some st ->
        exists rows',
          copied_rows (transformers self) (SourceTable.table st) (SourceTable.rows st)
          = Ok rows'
          /\ accepted (answer env (target self) (Task i)) []
               (copy_session (SourceTable.table st) rows') = true)
    /\ (List.NoDup (map Table.name (db_tables db)) ->
        forall st, In st (Database.tables db) ->
        data' !! source_name st = Some (loaded_entry (length (SourceTable.rows st))))
    /\ (forall k, ~ In k (map Table.name (db_tables db)) ->
        data' !! k = Summary.data (summary self) !! k).
Proof.
  unfold load_data_to_postgres. rewrite prepare_data_self, gather_run. cbn [target loading].
  destruct (run_tasks env (target self) 0 (load_tasks db) _) as [[sessions results] self1] eqn:E.
  destruct (raised_first env (target self) results) as [e|] eqn:R; [discriminate|].
  apply raised_first_none in R. rewrite load_tasks_map in E.
  apply run_tasks_returned in E as (data' & -> & F & A & O & _ & N); [|exact R].
  change (with_target (fun log => log ++ [Gathered sessions]) (loading (target self) data' self))
    with (loading (target self ++ [Gathered sessions]) data' self).
  cbn [and_then]. cbn [show_sample_data loading].
  intros H.
  assert (Hself : self' = loading
              (target self ++ Gathered sessions
                 :: (if show_sample_data self
                     then map (fun t => Session (statements_session [sample_query t]))
                            (db_tables db)
                     else []))
              data' self).
  { destruct (show_sample_data self).
    - destruct (show_samples_run env (db_tables db) (target self ++ [Gathered sessions])
                  data' self) as (more & Hleft & Hmore).
      rewrite H in Hleft, Hmore. cbn [left_by is_returned] in Hleft, Hmore.
      rewrite Hleft, (Hmore eq_refl), <- app_assoc. reflexivity.
    - injection H as <-. reflexivity. }
  exists sessions, data'. split; [exact Hself|]. split; [exact F|]. split; [exact A|].
  split.
  - intros Hnd st Hst. rewrite <- source_names in Hnd.
    apply N; [exact Hnd | exact Hst |]. apply prepared_data_found; assumption.
  - intros k Hk. rewrite <- source_names in Hk. rewrite O by exact Hk.
    unfold prepared_data. apply (fold_insert_other source_name). exact Hk.
Qed.



End LoadData.

(** ** The table named sqlite_sequence *)








Example sample_script_undefined_table :
  main empty_target sample_db false false false
  = Raised (PsycopgError "UndefinedTable")
      (left_by (main empty_target sample_db false false false))
  /\ target (left_by (main empty_target sample_db false false false))
     = [Session [PgConnect;
                 PgExecute (match table_statement users with Ok ddl => ddl | Err _ => SQL "" end);
                 PgCommit];
        Gathered
          [[PgConnect; PgCopy (copy_command users); PgWriteRow [VInt 1; VStr "TRUE"; VNone];
            PgCopyEnd; PgCommit];
           [PgConnect; PgCopy (copy_command sqlite_sequence); PgRollback]]].
Proof. split; vm_compute; reflexivity. Qed.

(** * Further properties of the code *)

(** ** Type mapper: matching is case-sensitive *)

Lemma contains_needs_head a sub s :
  Sql.all_chars (fun c => negb (Ascii.eqb c a)) s = true ->
  PyStr.contains (String a sub) s = false.
Proof.
  induction s as [|b s IH]; [reflexivity|].
  cbn [Sql.all_chars PyStr.contains PyStr.prefix]. intros H.
  apply andb_true_iff in H as [Hb Hs]. rewrite (IH Hs), orb_false_r.
  rewrite Ascii.eqb_sym. destruct (Ascii.eqb b a); [discriminate | reflexivity].
Qed.

Lemma no_upper_no_letter a s :
  is_upper a = true ->
  Sql.all_chars (fun c => negb (is_upper c)) s = true ->
  Sql.all_chars (fun c => negb (Ascii.eqb c a)) s = true.
Proof.
  intros Ha. induction s as [|b s IH]; [reflexivity|].
  cbn [Sql.all_chars]. intros H. apply andb_true_iff in H as [Hb Hs].
  rewrite (IH Hs), andb_true_r.
  destruct (Ascii.eqb_spec b a) as [->|]; [|reflexivity].
  rewrite Ha in Hb. discriminate Hb.
Qed.

(** X1.  The rules look for their upper-case keywords only: a type text
    without any upper-case ASCII letter (such as "blob" or "datetime") is
    returned unchanged. *)
Theorem remap_column_type_case_sensitive (s : string) :
  Sql.all_chars (fun c => negb (is_upper c)) s = true ->
  remap_column_type s = s.
Proof.
  intros H. unfold remap_column_type.
  rewrite !contains_needs_head by (apply no_upper_no_letter; [reflexivity | exact H]).
  reflexivity.
Qed.

Lemma remap_column_type_case_sensitive_blob :
  remap_column_type "blob" = "blob" /\ remap_column_type "datetime" = "datetime".
Proof.
  split; apply remap_column_type_case_sensitive; reflexivity.
Defined.

(** ** Value transformer: every outcome *)

(** The transformer as a decision table. *)
Lemma boolean_transformer_cases (val : value) (nullable : bool) :
  boolean_transformer val nullable
  = if negb (truthy val) then
      if nullable then Ok VNone
      else Err (Exception "Value is None but column is not nullable")
    else if eq_one val then Ok (VStr "TRUE")
    else match val with
         | VStr s => Ok (VStr (if String.eqb (PyStr.lower s) "true" then "TRUE" else "FALSE"))
         | VBytes _ => Ok (VStr "FALSE")
         | _ => Err AttributeError
         end.
Proof.
  unfold boolean_transformer.
  destruct (truthy val) eqn:Ht; cbn [negb andb]; rewrite ?andb_false_r, ?andb_true_r.
  - destruct (eq_one val) eqn:H1; [reflexivity|].
    destruct val as [|z|f|s|b]; cbn [lower_eq res_bind]; try reflexivity.
    destruct (String.eqb (PyStr.lower s) "true"); reflexivity.
  - destruct nullable; reflexivity.
Qed.

Lemma boolean_transformer_result val nullable v :
  boolean_transformer val nullable = Ok v ->
  (v = VNone /\ nullable = true /\ truthy val = false)
  \/ (v = VStr "TRUE" /\ truthy val = true)
  \/ (v = VStr "FALSE" /\ truthy val = true).
Proof.
  rewrite boolean_transformer_cases.
  destruct (truthy val); cbn [negb].
  - destruct (eq_one val); [intros [= <-]; auto|].
    destruct val as [|z|f|s|b]; try discriminate.
    + destruct (String.eqb (PyStr.lower s) "true"); intros [= <-]; auto.
    + intros [= <-]. auto.
  - destruct nullable; [intros [= <-]; auto | discriminate].
Qed.

(** X2.  The outcomes of the boolean transformer.  A result is NULL, TRUE
    or FALSE, and NULL only for a falsy value of a nullable column.  The
    transformer raises in two ways only: the "not nullable" exception for a
    falsy value of a required column, and [AttributeError] for a truthy
    number other than 1.  Nullability does not matter for a truthy value.
    A non-empty text never raises: it gives TRUE when it lower-cases to
    "true" and FALSE otherwise. *)
Theorem boolean_transformer_outcomes (val : value) (nullable : bool) :
  (forall v, boolean_transformer val nullable = Ok v ->
     (v = VNone /\ nullable = true /\ truthy val = false)
     \/ (v = VStr "TRUE" /\ truthy val = true)
     \/ (v = VStr "FALSE" /\ truthy val = true))
  /\ (forall e, boolean_transformer val nullable = Err e ->
       (e = Exception "Value is None but column is not nullable"
        /\ nullable = false /\ truthy val = false)
       \/ (e = AttributeError /\ truthy val = true
           /\ is_number val = true /\ eq_one val = false))
  /\ (truthy val = true -> boolean_transformer val true = boolean_transformer val false)
  /\ (forall s, val = VStr s -> s <> EmptyString ->
       boolean_transformer val nullable
       = Ok (VStr (if String.eqb (PyStr.lower s) "true" then "TRUE" else "FALSE"))).
Proof.
  split; [intros v; apply boolean_transformer_result|]. split; [|split].
  - intros e. rewrite boolean_transformer_cases.
    destruct (truthy val) eqn:Ht; cbn [negb].
    + destruct (eq_one val) eqn:H1; [discriminate|].
      destruct val as [|z|f|s|b]; try discriminate; intros [= <-]; right; auto.
    + destruct nullable; [discriminate|]. intros [= <-]. left. auto.
  - intros Ht. rewrite !boolean_transformer_cases, Ht. reflexivity.
  - intros s -> Hs. rewrite boolean_transformer_cases. cbn [truthy eq_one].
    destruct (String.eqb_spec s EmptyString) as [->|_]; [contradiction | reflexivity].
Qed.

(** ** Row transformation *)

Section TransformRowMore.

Variable transformers : gmap string (value -> bool -> res value).

(** The loop reads a cell only where the column has a transformer or is
    nullable, and it never adds, drops or moves a cell. *)
Lemma transform_row_frame columns : forall i (row row' : list value),
  transform_row transformers columns i row = Ok row' ->
  length row' = length row
  /\ (forall j, j < i \/ i + length columns <= j -> row' !! j = row !! j)
  /\ (forall k c, columns !! k = Some c -> row !! (i + k) = None ->
      transformers !! Column.type c = None /\ Column.notnull c = true).
Proof.
  induction columns as [|c columns IH]; intros i row row' H.
  - injection H as <-. split; [reflexivity|]. split; [reflexivity|].
    intros k c Hk. discriminate Hk.
  - cbn [transform_row] in H.
    destruct (apply_transformer transformers c i row) as [row1|] eqn:H1; [|discriminate].
    cbn [res_bind] in H.
    destruct (coerce_empty c i row1) as [row2|] eqn:H2; [|discriminate].
    cbn [res_bind] in H.
    pose proof (apply_transformer_cell _ _ _ _ _ H1) as (L1 & O1 & _).
    pose proof (coerce_empty_cell _ _ _ _ H2) as (L2 & O2 & _).
    apply IH in H as (L & B & A).
    split; [congruence|]. split.
    + intros j Hj. cbn [length] in Hj. rewrite B by lia. rewrite O2 by lia. apply O1. lia.
    + intros [|k] c0 Hk Hn.
      * injection Hk as <-. rewrite Nat.add_0_r in Hn.
        unfold apply_transformer, getitem in H1. unfold coerce_empty, getitem in H2.
        destruct (transformers !! Column.type c).
        { rewrite Hn in H1. discriminate H1. }
        injection H1 as <-. rewrite Hn in H2.
        destruct (Column.notnull c); [auto | discriminate H2].
      * cbn in Hk. apply (A k c0 Hk). replace (S i + k) with (i + S k) by lia.
        rewrite O2 by lia. rewrite O1 by lia. exact Hn.
Qed.

Lemma transform_row_fixed columns : forall i (row : list value),
  (forall k c, columns !! k = Some c ->
     apply_transformer transformers c (i + k) row = Ok row
     /\ coerce_empty c (i + k) row = Ok row) ->
  transform_row transformers columns i row = Ok row.
Proof.
  induction columns as [|c columns IH]; intros i row H; [reflexivity|].
  cbn [transform_row]. destruct (H 0 c eq_refl) as [H1 H2].
  rewrite Nat.add_0_r in H1, H2. rewrite H1. cbn [res_bind]. rewrite H2. cbn [res_bind].
  apply IH. intros k c0 Hk. replace (S i + k) with (i + S k) by lia. apply H. exact Hk.
Qed.

End TransformRowMore.

(** X3.  The column loop keeps the number of cells of a row, leaves every
    cell beyond the table's last column as it is, and fails with
    [IndexError] on no missing cell other than one it has to read: a cell
    may be missing only under a non-nullable column without transformer. *)
Theorem transform_row_keeps_arity
    (transformers : gmap string (value -> bool -> res value))
    (columns : list Column.t) (row row' : list value) :
  transform_row transformers columns 0 row = Ok row' ->
  length row' = length row
  /\ (forall j, length columns <= j -> row' !! j = row !! j)
  /\ (forall k c, columns !! k = Some c -> row !! k = None ->
      transformers !! Column.type c = None /\ Column.notnull c = true).
Proof.
  intros H. apply transform_row_frame in H as (L & F & A).
  split; [exact L|]. split; [intros j Hj; apply F; right; exact Hj | exact A].
Qed.

Lemma transform_row_keeps_arity_users :
  transform_row (transformers (init false)) (Table.columns users) 0
    [VInt 1; VInt 1; VStr ""; VStr "extra"]
  = Ok [VInt 1; VStr "TRUE"; VNone; VStr "extra"]
  /\ length [VInt 1; VStr "TRUE"; VNone; VStr "extra"]
     = length [VInt 1; VInt 1; VStr ""; VStr "extra"].
Proof.
  assert (H : transform_row (transformers (init false)) (Table.columns users) 0
                [VInt 1; VInt 1; VStr ""; VStr "extra"]
              = Ok [VInt 1; VStr "TRUE"; VNone; VStr "extra"]) by reflexivity.
  split; [exact H|].
  exact (proj1 (transform_row_keeps_arity _ _ _ _ H)).
Defined.

Lemma default_transformers b ty f :
  transformers (init b) !! ty = Some f -> ty = "BOOLEAN" /\ f = boolean_transformer.
Proof.
  cbn [transformers init]. intros H. apply lookup_singleton_Some in H as [<- <-]. auto.
Qed.

Lemma coerced_boolean c v nullable w :
  boolean_transformer v nullable = Ok w ->
  coerced c w = w /\ boolean_transformer w nullable = Ok w.
Proof.
  intros H. apply boolean_transformer_result in H as [(-> & -> & _)|[(-> & _)|(-> & _)]].
  - split; [unfold coerced; destruct (Column.notnull c) | ]; reflexivity.
  - split; [unfold coerced; destruct (Column.notnull c) | destruct nullable]; reflexivity.
  - split; [unfold coerced; destruct (Column.notnull c) | destruct nullable]; reflexivity.
Qed.

(** X4.  In a column of type BOOLEAN, under the transformers a new object
    starts with, what is transmitted is NULL, TRUE or FALSE.  A falsy value
    of a nullable BOOLEAN column, the numeral zero included, is transmitted
    as NULL: the transformer has replaced it before the zero-sparing
    empty-to-null rule looks at the cell.  A required BOOLEAN column never
    transmits NULL. *)
Theorem boolean_column_cells (show : bool)
    (columns : list Column.t) (row row' : list value) (idx : nat) (c : Column.t) (v : value) :
  transform_row (transformers (init show)) columns 0 row = Ok row' ->
  columns !! idx = Some c ->
  Column.type c = "BOOLEAN" ->
  row !! idx = Some v ->
  (row' !! idx = Some VNone \/ row' !! idx = Some (VStr "TRUE")
   \/ row' !! idx = Some (VStr "FALSE"))
  /\ (Column.notnull c = false -> truthy v = false -> row' !! idx = Some VNone)
  /\ (Column.notnull c = true -> truthy v = true /\ row' !! idx <> Some VNone).
Proof.
  intros H Hc Hty Hv.
  destruct (transform_row_cells _ _ _ _ _ H) as (_ & _ & A).
  destruct (A idx c v Hc Hv) as (w & Hw & Hr). cbn in Hr.
  unfold after_transformer in Hw. rewrite Hty in Hw. cbn in Hw.
  destruct (coerced_boolean c _ _ _ Hw) as [Hco _]. rewrite Hco in Hr.
  pose proof (boolean_transformer_result _ _ _ Hw) as Hcases.
  split; [|split].
  - destruct Hcases as [(-> & _)|[(-> & _)|(-> & _)]]; auto.
  - intros Hn Ht. destruct Hcases as [(-> & _)|[(_ & Ht')|(_ & Ht')]];
      [exact Hr | congruence | congruence].
  - intros Hn. rewrite Hn in Hcases. cbn in Hcases.
    destruct Hcases as [(_ & Hf & _)|[(-> & Ht)|(-> & Ht)]]; [discriminate Hf | |];
      (split; [exact Ht | rewrite Hr; discriminate]).
Qed.

Lemma boolean_column_cells_zero :
  transform_row (transformers (init false))
    [Column.mk 0 "flag" "BOOLEAN" false None false] 0 [VInt 0] = Ok [VNone]
  /\ [VNone] !! 0 = Some VNone.
Proof.
  assert (H : transform_row (transformers (init false))
                [Column.mk 0 "flag" "BOOLEAN" false None false] 0 [VInt 0] = Ok [VNone])
    by reflexivity.
  split; [exact H|].
  exact (proj1 (proj2 (boolean_column_cells false _ _ _ 0 _ (VInt 0) H eq_refl eq_refl eq_refl))
           eq_refl eq_refl).
Defined.

(** X5.  Under the transformers a new object starts with, transforming a
    row that has already been transformed changes nothing and raises
    nothing. *)
Theorem transform_row_idempotent (show : bool)
    (columns : list Column.t) (row row' : list value) :
  transform_row (transformers (init show)) columns 0 row = Ok row' ->
  transform_row (transformers (init show)) columns 0 row' = Ok row'.
Proof.
  intros H. apply transform_row_fixed. intros k c Hc. cbn [Nat.add].
  pose proof (transform_row_cells _ _ _ _ _ H) as (_ & _ & A).
  pose proof (transform_row_frame _ _ _ _ _ H) as (L & _ & M).
  destruct (row !! k) as [v|] eqn:Hv.
  - destruct (A k c v Hc Hv) as (w & Hw & Hr). cbn [Nat.add] in Hr.
    assert (Hco : coerce_empty c k row' = Ok row').
    { unfold coerce_empty, getitem. rewrite Hr. cbn [res_bind].
      unfold coerced in *.
      destruct (Column.notnull c); cbn [negb andb] in *; [reflexivity|].
      destruct (negb (eq_zero w) && negb (truthy w)) eqn:Hf.
      - cbn. rewrite list_insert_id; [reflexivity | exact Hr].
      - rewrite Hf. reflexivity. }
    split; [|exact Hco].
    unfold apply_transformer, getitem. unfold after_transformer in Hw.
    destruct (transformers (init show) !! Column.type c) as [f|] eqn:Hf; [|reflexivity].
    apply default_transformers in Hf as [_ ->].
    destruct (coerced_boolean c _ _ _ Hw) as [Hcw Hbw].
    rewrite Hr, Hcw. cbn [res_bind]. rewrite Hbw. cbn [res_bind].
    rewrite list_insert_id; [reflexivity|]. rewrite Hr, Hcw. reflexivity.
  - destruct (M k c Hc Hv) as [Hnone Hnn].
    unfold apply_transformer, coerce_empty. rewrite Hnone, Hnn. auto.
Qed.

Lemma transform_row_idempotent_users :
  transform_row (transformers (init false)) (Table.columns users) 0 [VInt 1; VInt 1; VStr ""]
  = Ok [VInt 1; VStr "TRUE"; VNone]
  /\ transform_row (transformers (init false)) (Table.columns users) 0
       [VInt 1; VStr "TRUE"; VNone]
     = Ok [VInt 1; VStr "TRUE"; VNone].
Proof.
  assert (H : transform_row (transformers (init false)) (Table.columns users) 0
                [VInt 1; VInt 1; VStr ""] = Ok [VInt 1; VStr "TRUE"; VNone]) by reflexivity.
  split; [exact H|]. exact (transform_row_idempotent false _ _ _ H).
Defined.

(** ** Foreign keys *)

Lemma fk_statements_all table fks :
  forallb (fun fk => bool_decide (is_Some (ForeignKey.other_column fk))) fks = true ->
  Forall2 (fun fk statement =>
             exists c, ForeignKey.other_column fk = Some c
                       /\ statement = fk_statement table fk c)
    fks (omap (fun fk => fk_statement table fk <$> ForeignKey.other_column fk) fks).
Proof.
  induction fks as [|fk fks IH]; intros H; [constructor|].
  cbn [forallb] in H. apply andb_true_iff in H as [Hfk H].
  cbn [omap list_omap]. destruct (ForeignKey.other_column fk) as [c|] eqn:Hc;
    [|discriminate Hfk].
  cbn. constructor; [eauto | apply IH, H].
Qed.

Lemma fk_without_parent fks :
  forallb (fun fk => bool_decide (is_Some (ForeignKey.other_column fk))) fks = false ->
  exists fk, In fk fks /\ ForeignKey.other_column fk = None.
Proof.
  induction fks as [|fk fks IH]; intros H; [discriminate H|].
  cbn [forallb] in H. destruct (ForeignKey.other_column fk) as [c|] eqn:Hc.
  - rewrite bool_decide_eq_true_2 in H by eauto.
    destruct (IH H) as (fk' & Hin & Hn). exists fk'. split; [right; exact Hin | exact Hn].
  - exists fk. split; [left; reflexivity | exact Hc].
Qed.

(** X6.  [get_fk_sql] raises exactly when some foreign key of the table
    has no parent column in the catalog (a key declared as
    [REFERENCES parent]); it raises [TypeError] then.  Otherwise it returns
    one ALTER TABLE statement per foreign key, in the catalog's order, and
    records their number in the summary, touching nothing else of the
    object.  Each constraint is named FK_ followed by the referenced
    column's name only: two foreign keys that reference equally named
    columns get the same constraint name. *)
Theorem get_fk_sql_statements (table : Table.t) (self : PGSqlite) :
  is_ok (get_fk_sql table self) = parents_named table
  /\ (forall e, get_fk_sql table self = Err e ->
        e = TypeError
        /\ exists fk, In fk (Table.foreign_keys table) /\ ForeignKey.other_column fk = None)
  /\ (forall sql self', get_fk_sql table self = Ok (sql, self') ->
        Forall2 (fun fk statement =>
                   exists c, ForeignKey.other_column fk = Some c
                             /\ statement = fk_statement table fk c)
          (Table.foreign_keys table) sql
        /\ Summary.fks (summary self') !! Table.name table
           = Some (entry "PREPARED" "count" (length (Table.foreign_keys table)))
        /\ (tables_sql self' = tables_sql self /\ fks_sql self' = fks_sql self
            /\ indexes_sql self' = indexes_sql self /\ target self' = target self
            /\ checks_sql_by_table self' = checks_sql_by_table self))
  /\ forall fk1 fk2 c,
       constraint_name (fk_statement table fk1 c) = Some ("FK_" +:+ c)
       /\ constraint_name (fk_statement table fk1 c)
          = constraint_name (fk_statement table fk2 c).
Proof.
  rewrite get_fk_sql_exact. unfold parents_named, fk_statements.
  destruct (forallb _ (Table.foreign_keys table)) eqn:H.
  - split; [reflexivity|]. split; [discriminate|]. split; [|intros; split; reflexivity].
    intros sql self' [= <- <-]. split; [apply fk_statements_all, H|].
    split; [apply lookup_insert_eq | repeat split].
  - split; [reflexivity|]. split; [|split; [discriminate | intros; split; reflexivity]].
    intros e [= <-]. split; [reflexivity | apply fk_without_parent, H].
Qed.

Example orders_fk_names_collide :
  map constraint_name (fk_statements orders) = [Some "FK_id"; Some "FK_id"].
Proof. reflexivity. Qed.

Example child_fk_raises :
  get_fk_sql child (init false) = Err TypeError
  /\ is_returned (load_schema accepting (Database.mk [child_source] [] []) false (init false))
     = false.
Proof. split; reflexivity. Qed.

(** ** Table statements *)

(** X7.  When [get_table_sql] returns, its statement is a function of the
    table alone: the extracted check clauses are counted in the summary,
    with status IGNORED, and never put into the statement.  The object
    changes in the table's columns, pks and checks summary entries only. *)
Theorem get_table_sql_effect (table : Table.t) (self self' : PGSqlite) (ddl : Composable) :
  get_table_sql table self = Ok (ddl, self') ->
  table_statement table = Ok ddl
  /\ (exists checks,
        checks_sql_by_table self !! Table.name table = Some checks
        /\ Summary.checks (summary self')
           = <[Table.name table := entry "IGNORED" "count" (length checks)]>
               (Summary.checks (summary self)))
  /\ Summary.columns (summary self')
     = <[Table.name table := entry "PREPARED" "count" (length (Table.columns table))]>
         (Summary.columns (summary self))
  /\ Summary.pks (summary self')
     = <[Table.name table := entry "PREPARED" "count" (length (Table.pks table))]>
         (Summary.pks (summary self))
  /\ (Summary.fks (summary self') = Summary.fks (summary self)
      /\ Summary.indexes (summary self') = Summary.indexes (summary self)
      /\ Summary.data (summary self') = Summary.data (summary self))
  /\ (tables_sql self' = tables_sql self /\ fks_sql self' = fks_sql self
      /\ indexes_sql self' = indexes_sql self /\ target self' = target self
      /\ checks_sql_by_table self' = checks_sql_by_table self
      /\ transformers self' = transformers self).
Proof.
  rewrite get_table_sql_exact.
  destruct (table_statement table) as [ddl0|]; [|discriminate]. cbn [res_bind].
  destruct (checks_sql_by_table self !! Table.name table) as [checks|]; [|discriminate].
  intros [= <- <-]. split; [reflexivity|]. split; [exists checks; split; reflexivity|].
  repeat split.
Qed.

Lemma get_table_sql_effect_users :
  (let* r := get_table_sql users
               (with_checks_sql_by_table (fun _ => {[ "Users" := [SQL "    CHECK (id > 0)"] ]})
                  (init false)) in Ok (fst r))
  = table_statement users.
Proof.
  destruct (get_table_sql users
              (with_checks_sql_by_table (fun _ => {[ "Users" := [SQL "    CHECK (id > 0)"] ]})
                 (init false))) as [[ddl self']|] eqn:H; [|discriminate H].
  cbn [res_bind fst]. symmetry. exact (proj1 (get_table_sql_effect _ _ _ _ H)).
Defined.

Lemma format_from_plain_then (kwargs : list (string * Composable)) s rest : forall lit,
  brace_free s = true ->
  Sql.format_from kwargs (Sql.InLit lit) (s +:+ rest)
  = Sql.format_from kwargs (Sql.InLit (Sql.rev_string lit s)) rest.
Proof.
  induction s as [|c s IH]; intros lit H; [reflexivity|].
  cbn in H. apply andb_true_iff in H as [Hc Hs]. apply andb_true_iff in Hc as [Ho Hcl].
  rewrite str_app_cons. cbn [Sql.format_from Sql.step Sql.rev_string].
  destruct (Ascii.eqb c "{"); [discriminate|].
  destruct (Ascii.eqb c "}"); [discriminate|].
  apply IH, Hs.
Qed.

(** X8.  The column clause.  For a mapped type text without braces the
    clause is the column's identifier, a blank and the type text, then NOT
    NULL for a required column, then DEFAULT with the default value as an
    escaped literal when the catalog has a non-empty one.  The type text is
    spliced into the format template: a mapped type that ends in an
    unpaired brace makes the clause, and with it [get_table_sql], raise
    [ValueError]. *)
Theorem column_sql_clause (column : Column.t) :
  (brace_free (remap_column_type (Column.type column)) = true ->
   column_sql column = Ok (plain_column_clause column))
  /\ (forall t brace,
        remap_column_type (Column.type column) = t +:+ brace ->
        brace_free t = true -> brace = "{" \/ brace = "}" ->
        column_sql column = Err ValueError
        /\ forall table self,
             In column (Table.columns table) -> is_ok (get_table_sql table self) = false).
Proof.
  split.
  - intros H. unfold column_sql, plain_column_clause.
    rewrite column_template_plain by exact H. cbn [res_bind].
    destruct (Column.notnull column), (Column.default_value column) as [[|a d]|]; reflexivity.
  - intros t brace Ht Hfree Hbrace.
    assert (Hc : column_sql column = Err ValueError).
    { unfold column_sql. rewrite column_template, Ht, format_from_plain_then by exact Hfree.
      destruct Hbrace as [-> | ->]; reflexivity. }
    split; [exact Hc|]. intros table self Hin.
    rewrite get_table_sql_exact. unfold table_statement.
    assert (Hm : is_ok (mapM column_sql (Table.columns table)) = false).
    { induction (Table.columns table) as [|c cs IH]; [destruct Hin|].
      cbn [mapM]. destruct Hin as [->|Hin].
      - rewrite Hc. reflexivity.
      - destruct (column_sql c); [|reflexivity]. cbn [res_bind].
        specialize (IH Hin). destruct (mapM column_sql cs); [discriminate IH | reflexivity]. }
    destruct (mapM column_sql (Table.columns table)); [discriminate Hm | reflexivity].
Qed.

Example orders_note_clause :
  column_sql (Column.mk 3 "note" "STRING" false (Some "none") false)
  = Ok (Composed [Composed [SQL "    "; Identifier "note"; SQL " TEXT"];
                  SQL " "; Composed [SQL "DEFAULT "; Literal (VStr "none")]]).
Proof. reflexivity. Qed.

(** ** Check extraction: when it raises *)

(** X9.  [get_check_constraints] raises exactly when some table definition
    has a line that contains "CHECK" but lacks an opening or a closing
    parenthesis, and what it raises then is [ValueError]: one such line in
    any table loses the checks of all tables.  When it returns, the map has
    an entry for every table of the source, also for a table without any
    check, and for no other name. *)
Theorem get_check_constraints_outcome (db : Database.t) :
  is_ok (get_check_constraints db)
  = forallb (fun st => checks_parenthesised (SourceTable.sql st)) (Database.tables db)
  /\ (forall e, get_check_constraints db = Err e -> e = ValueError)
  /\ (forall checks, get_check_constraints db = Ok checks ->
       forall name, is_Some (checks !! name) <-> In name (map Table.name (db_tables db))).
Proof.
  rewrite get_check_constraints_exact.
  destruct (forallb _ (Database.tables db)).
  - split; [reflexivity|]. split; [discriminate|].
    intros checks [= <-] name. rewrite <- master_names. split.
    + intros Hsome. destruct (in_dec string_dec name (map fst (master_rows db))) as [|Hn];
        [assumption|].
      rewrite fold_record_other in Hsome by exact Hn.
      rewrite lookup_empty in Hsome. destruct Hsome as [? Hx]. discriminate Hx.
    + intros Hin. apply fold_record_some. left. exact Hin.
  - split; [reflexivity|]. split; [intros e [= <-]; reflexivity | discriminate].
Qed.

Example checklist_loses_all_checks :
  get_check_constraints (Database.mk [measures; checklist] [] []) = Err ValueError.
Proof. reflexivity. Qed.

(** ** Schema build: the whole of [load_schema] *)

(** X10.  [load_schema] as a whole.  It returns exactly when the target
    accepts the session of DROP statements, if dropping was asked for, the
    check extraction does not raise, and for every table other than
    sqlite_sequence the statement can be built and every foreign key has a
    parent column; the lookup in the checks map never fails inside it,
    because the extraction has an entry for every table.  When it returns,
    the object has, appended in catalog order: the CREATE TABLE statement
    of every such table, their foreign-key statements and their index
    statements; it holds the extracted checks map; the summary has the
    schema entries of these tables; and the log has one more session, that
    of the DROP statements, one per source table, only if dropping was
    asked for. *)
Theorem load_schema_outcome (env : Env) (db : Database.t) (drop : bool) (self : PGSqlite) :
  is_returned (load_schema env db drop self)
  = (if drop
     then accepted (answer env (target self) Main) []
            (statements_session (map drop_statement (db_tables db)))
     else true)
    && forallb (fun st => checks_parenthesised (SourceTable.sql st)) (Database.tables db)
    && is_ok (mapM table_statement (List.filter kept (db_tables db)))
    && forallb parents_named (List.filter kept (db_tables db))
  /\ forall self',
       load_schema env db drop self = Returned self' ->
       exists ddls,
         mapM table_statement (List.filter kept (db_tables db)) = Ok ddls
         /\ tables_sql self' = tables_sql self ++ ddls
         /\ fks_sql self'
            = fks_sql self ++ flat_map fk_statements (List.filter kept (db_tables db))
         /\ indexes_sql self'
            = indexes_sql self ++ flat_map index_statements (List.filter kept (db_tables db))
         /\ get_check_constraints db = Ok (checks_sql_by_table self')
         /\ summary self'
            = note_tables (checks_sql_by_table self') (List.filter kept (db_tables db))
                (summary self)
         /\ target self'
            = target self
              ++ (if drop
                  then [Session (statements_session (map drop_statement (db_tables db)))]
                  else [])
         /\ transformers self' = transformers self
         /\ show_sample_data self' = show_sample_data self.
Proof.
  destruct (load_schema_spec env db drop self) as [Hok Hfields].
  split; [exact Hok | exact Hfields].
Qed.

Example sample_schema_built :
  (let self := left_by (load_schema accepting sample_db true (init false)) in
   (length (tables_sql self), length (fks_sql self), target self))
  = (1, 0, [Session [PgConnect; PgExecute (drop_statement users);
                     PgExecute (drop_statement sqlite_sequence); PgCommit]]).
Proof. vm_compute. reflexivity. Qed.

Lemma note_tables_cons checks t tables s :
  note_tables checks (t :: tables) s
  = note_tables checks tables
      (note_table (length (default [] (checks !! Table.name t))) t s).
Proof. reflexivity. Qed.

Lemma note_tables_other checks tables : forall s name,
  ~ In name (map Table.name tables) ->
  Summary.columns (note_tables checks tables s) !! name = Summary.columns s !! name
  /\ Summary.pks (note_tables checks tables s) !! name = Summary.pks s !! name
  /\ Summary.fks (note_tables checks tables s) !! name = Summary.fks s !! name
  /\ Summary.checks (note_tables checks tables s) !! name = Summary.checks s !! name
  /\ Summary.indexes (note_tables checks tables s) !! name = Summary.indexes s !! name.
Proof.
  induction tables as [|t tables IH]; intros s name Hn; [repeat split|].
  rewrite note_tables_cons. cbn [map] in Hn.
  assert (Hne : Table.name t <> name) by (intros E; apply Hn; left; exact E).
  destruct (IH (note_table (length (default [] (checks !! Table.name t))) t s) name)
    as (H1 & H2 & H3 & H4 & H5); [intros Hin; apply Hn; right; exact Hin|].
  rewrite H1, H2, H3, H4, H5. cbn.
  rewrite !lookup_insert_ne by exact Hne. repeat split.
Qed.

Lemma note_tables_data checks tables : forall s,
  Summary.data (note_tables checks tables s) = Summary.data s.
Proof.
  induction tables as [|t tables IH]; intros s; [reflexivity|].
  rewrite note_tables_cons, IH. reflexivity.
Qed.

Lemma note_tables_found checks tables : forall s t,
  List.NoDup (map Table.name tables) -> In t tables ->
  Summary.columns (note_tables checks tables s) !! Table.name t
  = Some (entry "PREPARED" "count" (length (Table.columns t)))
  /\ Summary.pks (note_tables checks tables s) !! Table.name t
     = Some (entry "PREPARED" "count" (length (Table.pks t)))
  /\ Summary.fks (note_tables checks tables s) !! Table.name t
     = Some (entry "PREPARED" "count" (length (Table.foreign_keys t)))
  /\ Summary.checks (note_tables checks tables s) !! Table.name t
     = Some (entry "IGNORED" "count" (length (default [] (checks !! Table.name t))))
  /\ Summary.indexes (note_tables checks tables s) !! Table.name t
     = Some (entry "PREPARED" "count" (length (Table.xindexes t))).
Proof.
  induction tables as [|t0 tables IH]; intros s t Hnd Hin; [destruct Hin|].
  cbn [map] in Hnd. inversion Hnd as [|? ? Hnotin Hnd']; subst.
  rewrite note_tables_cons.
  destruct Hin as [->|Hin]; [|apply IH; assumption].
  destruct (note_tables_other checks tables
              (note_table (length (default [] (checks !! Table.name t))) t s)
              (Table.name t) Hnotin) as (H1 & H2 & H3 & H4 & H5).
  rewrite H1, H2, H3, H4, H5. cbn. rewrite !lookup_insert_eq. repeat split.
Qed.

Lemma NoDup_kept_names tables :
  List.NoDup (map Table.name tables) ->
  List.NoDup (map Table.name (List.filter kept tables)).
Proof.
  induction tables as [|t tables IH]; intros H; [constructor|].
  cbn [map] in H. inversion H as [|? ? Hnotin Hnd]; subst. cbn [List.filter].
  destruct (kept t); [|apply IH, Hnd]. cbn [map]. constructor; [|apply IH, Hnd].
  intros Hin. apply Hnotin. apply in_map_iff in Hin as (t' & E & Ht').
  apply filter_In in Ht' as [Ht' _]. rewrite <- E. apply in_map, Ht'.
Qed.

Lemma load_schema_summary_spec (env : Env) (db : Database.t) (drop : bool)
    (self self' : PGSqlite) :
  load_schema env db drop self = Returned self' ->
  List.NoDup (map Table.name (db_tables db)) ->
  (forall st, In st (Database.tables db) -> kept (SourceTable.table st) = true ->
     let t := SourceTable.table st in
     Summary.columns (summary self') !! Table.name t
     = Some (entry "PREPARED" "count" (length (Table.columns t)))
     /\ Summary.pks (summary self') !! Table.name t
        = Some (entry "PREPARED" "count" (length (Table.pks t)))
     /\ Summary.fks (summary self') !! Table.name t
        = Some (entry "PREPARED" "count" (length (Table.foreign_keys t)))
     /\ Summary.checks (summary self') !! Table.name t
        = Some (entry "IGNORED" "count" (length (check_clauses (SourceTable.sql st))))
     /\ Summary.indexes (summary self') !! Table.name t
        = Some (entry "PREPARED" "count" (length (Table.xindexes t))))
  /\ (forall name, ~ In name (map Table.name (List.filter kept (db_tables db))) ->
      Summary.columns (summary self') !! name = Summary.columns (summary self) !! name
      /\ Summary.pks (summary self') !! name = Summary.pks (summary self) !! name
      /\ Summary.fks (summary self') !! name = Summary.fks (summary self) !! name
      /\ Summary.checks (summary self') !! name = Summary.checks (summary self) !! name
      /\ Summary.indexes (summary self') !! name = Summary.indexes (summary self) !! name)
  /\ Summary.data (summary self') = Summary.data (summary self).
Proof.
  intros H Hnd.
  destruct (proj2 (load_schema_spec env db drop self) self' H)
    as (ddls & _ & _ & _ & _ & Hchecks & Hsum & _).
  rewrite Hsum. split; [|split].
  - intros st Hst Hk t.
    assert (Hin : In t (List.filter kept (db_tables db))).
    { apply filter_In. split; [apply in_map, Hst | exact Hk]. }
    destruct (note_tables_found (checks_sql_by_table self') _ (summary self) t
                (NoDup_kept_names _ Hnd) Hin) as (H1 & H2 & H3 & H4 & H5).
    rewrite H1, H2, H3, H4, H5. repeat split.
    rewrite get_check_constraints_exact in Hchecks.
    destruct (forallb _ (Database.tables db)); [|discriminate Hchecks].
    injection Hchecks as <-.
    rewrite (fold_record_found _ ∅ (Table.name t) (SourceTable.sql st)); [reflexivity | |].
    + rewrite master_names. exact Hnd.
    + unfold master_rows. apply in_map_iff. exists st. split; [reflexivity | exact Hst].
  - intros name Hn. apply note_tables_other, Hn.
  - apply note_tables_data.
Qed.

(** X11.  The summary after [load_schema], for a source whose table names
    are distinct.  Every table other than sqlite_sequence has the entries
    columns, pks, fks and indexes with status PREPARED and the number of
    its columns, key columns, foreign keys and indexes, and the entry checks
    with status IGNORED and the number of check clauses found in its
    definition.  A name that is not such a table's (sqlite_sequence, for
    one) has the schema entries it had before, and no data entry changes. *)
Theorem load_schema_summary (env : Env) (db : Database.t) (drop : bool)
    (self self' : PGSqlite) :
  load_schema env db drop self = Returned self' ->
  List.NoDup (map Table.name (db_tables db)) ->
  (forall st, In st (Database.tables db) -> kept (SourceTable.table st) = true ->
     let t := SourceTable.table st in
     Summary.columns (summary self') !! Table.name t
     = Some (entry "PREPARED" "count" (length (Table.columns t)))
     /\ Summary.pks (summary self') !! Table.name t
        = Some (entry "PREPARED" "count" (length (Table.pks t)))
     /\ Summary.fks (summary self') !! Table.name t
        = Some (entry "PREPARED" "count" (length (Table.foreign_keys t)))
     /\ Summary.checks (summary self') !! Table.name t
        = Some (entry "IGNORED" "count" (length (check_clauses (SourceTable.sql st))))
     /\ Summary.indexes (summary self') !! Table.name t
        = Some (entry "PREPARED" "count" (length (Table.xindexes t))))
  /\ (forall name, ~ In name (map Table.name (List.filter kept (db_tables db))) ->
      Summary.columns (summary self') !! name = Summary.columns (summary self) !! name
      /\ Summary.pks (summary self') !! name = Summary.pks (summary self) !! name
      /\ Summary.fks (summary self') !! name = Summary.fks (summary self) !! name
      /\ Summary.checks (summary self') !! name = Summary.checks (summary self) !! name
      /\ Summary.indexes (summary self') !! name = Summary.indexes (summary self) !! name)
  /\ Summary.data (summary self') = Summary.data (summary self).
Proof.
  intros H Hnd.
  destruct (load_schema_summary_spec env db drop self self' H Hnd) as (Hkept & Hrest).
  split; [exact Hkept | exact Hrest].
Qed.

Lemma load_schema_summary_sample :
  Summary.columns
    (summary (left_by (load_schema accepting sample_db false (init false)))) !! "Users"
  = Some (entry "PREPARED" "count" 3).
Proof.
  destruct (load_schema accepting sample_db false (init false)) as [self'|] eqn:H;
    [|vm_compute in H; discriminate H].
  assert (Hnd : List.NoDup (map Table.name (db_tables sample_db))).
  { repeat constructor; cbn; intuition discriminate. }
  exact (proj1 (proj1 (load_schema_summary _ _ _ _ _ H Hnd) users_source
                  (or_introl eq_refl) eq_refl)).
Defined.
(** ** Bulk load *)


Example write_table_data_unprepared :
  write_table_data (answer accepting [] (Task 0)) users [[VInt 1; VInt 1; VStr ""]] []
    (init false)
  = ([PgConnect; PgCopy (copy_command users); PgWriteRow [VInt 1; VStr "TRUE"; VNone];
      PgCopyAbort; PgRollback],
     init false, Err (KeyError "Users")).
Proof. reflexivity. Qed.

(** ** The data load as a whole *)


Example sample_load_statuses :
  (let self := left_by (load_data_to_postgres accepting sample_db (init false)) in
   (Summary.data (summary self) !! "Users", Summary.data (summary self) !! "sqlite_sequence"))
  = (Some (loaded_entry 1), Some (loaded_entry 1)).
Proof. vm_compute. reflexivity. Qed.

(** ** Applying the schema and loading: [populate_postgres] *)

(** A session that executes statements and then assigns to the object. *)
Lemma session_then_update env statements f self :
  is_returned (session env (fun ask => let! _ := execute_all ask statements in update f) self)
  = accepted (answer env (target self) Main) [] (statements_session statements)
  /\ forall self',
       session env (fun ask => let! _ := execute_all ask statements in update f) self
       = Returned self' ->
       self' = with_target (fun log => log ++ [Session (statements_session statements)]) (f self).
Proof.
  rewrite session_run. cbv zeta. unfold statements_session. cbn [accepted].
  destruct (answer env (target self) Main [] PgConnect) as [e|];
    [split; [reflexivity | discriminate]|].
  cbn [app]. rewrite accepted_app. unfold conn_bind, update.
  destruct (execute_all_run (answer env (target self) Main) statements [PgConnect] self)
    as (sent & r & E & Hok & Hsent).
  rewrite E, <- Hok. destruct r as [u|e]; cbn [is_ok andb];
    [|split; [reflexivity | discriminate]].
  rewrite (Hsent eq_refl). cbn [accepted app].
  destruct (answer env (target self) Main _ PgCommit) as [e|];
    [split; [reflexivity | discriminate]|].
  split; [reflexivity|]. intros self' [= <-]. reflexivity.
Qed.

(** The first session of [populate_postgres]. *)
Lemma create_session env self :
  let o :=
    session env (fun ask =>
      let! _ := execute_all ask (tables_sql self) in
      let! _ := update (with_summary (Summary.with_columns mark_created)) in
      update (with_summary (Summary.with_pks mark_created))) self in
  is_returned o
  = accepted (answer env (target self) Main) [] (statements_session (tables_sql self))
  /\ forall self',
       o = Returned self' ->
       self' = with_target (fun log => log ++ [Session (statements_session (tables_sql self))])
                 (with_summary (Summary.with_pks mark_created)
                    (with_summary (Summary.with_columns mark_created) self)).
Proof.
  cbv zeta.
  pose proof (session_then_update env (tables_sql self)
                (fun s => with_summary (Summary.with_pks mark_created)
                            (with_summary (Summary.with_columns mark_created) s)) self) as H.
  rewrite !session_run in *. cbv zeta in *. unfold conn_bind, update in *.
  destruct (answer env (target self) Main [] PgConnect); [exact H|].
  destruct (execute_all _ (tables_sql self) [PgConnect] self) as [[sent self1] [u|e]];
    exact H.
Qed.

(** The last session of [populate_postgres]. *)
Lemma finish_session env self :
  let o :=
    session env (fun ask =>
      let! _ := execute_all ask (fks_sql self) in
      let! _ := update (with_summary (Summary.with_fks mark_created)) in
      let! _ := execute_all ask (indexes_sql self) in
      update (with_summary (Summary.with_indexes mark_created))) self in
  is_returned o
  = accepted (answer env (target self) Main) []
      (statements_session (fks_sql self ++ indexes_sql self))
  /\ forall self',
       o = Returned self' ->
       self' = with_target
                 (fun log => log ++ [Session (statements_session
                                                (fks_sql self ++ indexes_sql self))])
                 (with_summary (Summary.with_indexes mark_created)
                    (with_summary (Summary.with_fks mark_created) self)).
Proof.
  cbv zeta. rewrite session_run. cbv zeta. unfold statements_session. cbn [accepted].
  destruct (answer env (target self) Main [] PgConnect) as [e|];
    [split; [reflexivity | discriminate]|].
  cbn [app]. rewrite map_app, <- app_assoc, !accepted_app. unfold conn_bind, update.
  destruct (execute_all_run (answer env (target self) Main) (fks_sql self) [PgConnect] self)
    as (sent & r & E & Hok & Hsent).
  rewrite E, <- Hok. destruct r as [u|e]; cbn [is_ok andb];
    [|split; [reflexivity | discriminate]].
  rewrite (Hsent eq_refl).
  destruct (execute_all_run (answer env (target self) Main) (indexes_sql self)
              ([PgConnect] ++ map PgExecute (fks_sql self))
              (with_summary (Summary.with_fks mark_created) self))
    as (sent2 & r2 & E2 & Hok2 & Hsent2).
  rewrite E2, <- Hok2. destruct r2 as [u2|e]; cbn [is_ok andb];
    [|split; [reflexivity | discriminate]].
  rewrite (Hsent2 eq_refl). cbn [accepted app].
  destruct (answer env (target self) Main _ PgCommit) as [e|];
    [split; [reflexivity | discriminate]|].
  split; [reflexivity|]. intros self' [= <-].
  cbn [app]. rewrite <- !app_assoc. reflexivity.
Qed.

Section Populate.

Variables (env : Env) (db : Database.t) (self : PGSqlite).

Lemma populate_postgres_returned self' :
  populate_postgres env db self = Returned self' ->
  exists sessions,
    Forall2 (copies_table (transformers self)) (Database.tables db) sessions
    /\ (forall i st, Database.tables db !! i = Some st ->
        exists rows',
          copied_rows (transformers self) (SourceTable.table st) (SourceTable.rows st)
          = Ok rows'
          /\ accepted
               (answer env (target self ++ [Session (statements_session (tables_sql self))])
                  (Task i)) []
               (copy_session (SourceTable.table st) rows') = true)
    /\ target self'
       = target self
         ++ [Session (statements_session (tables_sql self)); Gathered sessions]
         ++ (if show_sample_data self
             then map (fun t => Session (statements_session [sample_query t])) (db_tables db)
             else [])
         ++ [Session (statements_session (fks_sql self ++ indexes_sql self))]
    /\ (Summary.columns (summary self') = mark_created (Summary.columns (summary self))
        /\ Summary.pks (summary self') = mark_created (Summary.pks (summary self))
        /\ Summary.fks (summary self') = mark_created (Summary.fks (summary self))
        /\ Summary.indexes (summary self') = mark_created (Summary.indexes (summary self))
        /\ Summary.checks (summary self') = Summary.checks (summary self))
    /\ (List.NoDup (map Table.name (db_tables db)) ->
        forall st, In st (Database.tables db) ->
        Summary.data (summary self') !! source_name st
        = Some (loaded_entry (length (SourceTable.rows st))))
    /\ (tables_sql self' = tables_sql self /\ fks_sql self' = fks_sql self
        /\ indexes_sql self' = indexes_sql self
        /\ checks_sql_by_table self' = checks_sql_by_table self).
Proof.
  unfold populate_postgres. destruct (create_session env self) as [_ Hcreate].
  cbv zeta in Hcreate.
  destruct (session env _ self) as [self1|] eqn:E1; [|discriminate]. cbn [and_then].
  rewrite (Hcreate self1 eq_refl). clear Hcreate E1 self1.
  set (self1 := with_target _ _).
  destruct (load_data_to_postgres env db self1) as [self2|] eqn:E2; [|discriminate].
  cbn [and_then].
  apply load_data_to_postgres_returned in E2 as (sessions & data' & -> & F & A & N & _).
  set (self2 := loading _ data' self1).
  destruct (finish_session env self2) as [_ Hfinish]. cbv zeta in Hfinish.
  intros H. rewrite (Hfinish self' H). clear Hfinish H.
  exists sessions. split; [exact F|]. split; [exact A|]. split.
  - subst self2 self1. cbn. rewrite <- !app_assoc. reflexivity.
  - split; [subst self2 self1; cbn; repeat split|]. split; [exact N|].
    subst self2 self1. cbn. repeat split.
Qed.



End Populate.

Lemma mark_created_entry category name status field n :
  category !! name = Some (entry status field n) ->
  field <> "status" ->
  mark_created category !! name = Some (entry "CREATED" field n).
Proof.
  intros H Hf. unfold mark_created. rewrite lookup_fmap, H. cbn. f_equal.
  unfold entry. rewrite insert_insert_ne by (intros E; apply Hf; symmetry; exact E).
  rewrite insert_insert_eq. reflexivity.
Qed.


(** ** The script as a whole: [main] *)

Section Main.

Variables (env : Env) (db : Database.t) (show drop drop_after : bool).

Lemma main_returned loader :
  main env db show drop drop_after = Returned loader ->
  exists self1 self2,
    load_schema env db drop (init show) = Returned self1
    /\ populate_postgres env db self1 = Returned self2
    /\ summary loader = summary self2
    /\ target loader
       = target self2
         ++ (if drop_after
             then [Session (statements_session (map drop_statement (db_tables db)))]
             else []).
Proof.
  unfold main.
  destruct (load_schema env db drop (init show)) as [self1|] eqn:E1; [|discriminate].
  cbn [and_then].
  destruct (populate_postgres env db self1) as [self2|] eqn:E2; [|discriminate].
  cbn [and_then]. intros H. exists self1, self2. split; [reflexivity|]. split; [exact E2|].
  destruct drop_after.
  - rewrite drop_tables_session in H.
    destruct (session_statements env (map drop_statement (db_tables db)) self2)
      as (_ & Hret & _).
    rewrite (Hret loader H). split; reflexivity.
  - injection H as <-. rewrite app_nil_r. split; reflexivity.
Qed.


End Main.


Example sample_main_log :
  target (left_by (main accepting sample_db false true true))
  = [Session [PgConnect; PgExecute (drop_statement users);
              PgExecute (drop_statement sqlite_sequence); PgCommit];
     Session [PgConnect;
              PgExecute (match table_statement users with Ok ddl => ddl | Err _ => SQL "" end);
              PgCommit];
     Gathered [copy_session users [[VInt 1; VStr "TRUE"; VNone]];
               copy_session sqlite_sequence [[VStr "Users"; VInt 1]]];
     Session [PgConnect; PgCommit];
     Session [PgConnect; PgExecute (drop_statement users);
              PgExecute (drop_statement sqlite_sequence); PgCommit]].
Proof. vm_compute. reflexivity. Qed.

Lemma mark_created_none category name :
  category !! name = None -> mark_created category !! name = None.
Proof. intros H. unfold mark_created. rewrite lookup_fmap, H. reflexivity. Qed.

Lemma not_kept_name tables t :
  kept t = false -> ~ In (Table.name t) (map Table.name (List.filter kept tables)).
Proof.
  intros Hk Hin. apply in_map_iff in Hin as (t' & E & Ht').
  apply filter_In in Ht' as [_ Hk']. unfold kept in *. rewrite E in Hk'. congruence.
Qed.

(** X16.  The summary the script ends with, for a source whose table names
    are distinct.  Every table other than sqlite_sequence has the entries
    columns, pks, fks and indexes with status CREATED and its numbers of
    columns, key columns, foreign keys and indexes; its checks entry still
    says IGNORED, with the number of check clauses found; its data entry
    says LOADED with the number of its rows, which is also its row count.
    A table named sqlite_sequence has a data entry of that kind and no
    columns entry. *)
Theorem main_summary (env : Env) (db : Database.t) (show drop drop_after : bool)
    (loader : PGSqlite) :
  main env db show drop drop_after = Returned loader ->
  List.NoDup (map Table.name (db_tables db)) ->
  (forall st, In st (Database.tables db) -> kept (SourceTable.table st) = true ->
     let t := SourceTable.table st in
     let s := get_summary loader in
     Summary.columns s !! Table.name t
     = Some (entry "CREATED" "count" (length (Table.columns t)))
     /\ Summary.pks s !! Table.name t = Some (entry "CREATED" "count" (length (Table.pks t)))
     /\ Summary.fks s !! Table.name t
        = Some (entry "CREATED" "count" (length (Table.foreign_keys t)))
     /\ Summary.indexes s !! Table.name t
        = Some (entry "CREATED" "count" (length (Table.xindexes t)))
     /\ Summary.checks s !! Table.name t
        = Some (entry "IGNORED" "count" (length (check_clauses (SourceTable.sql st))))
     /\ Summary.data s !! Table.name t = Some (loaded_entry (length (SourceTable.rows st))))
  /\ (forall st, In st (Database.tables db) -> kept (SourceTable.table st) = false ->
      Summary.columns (get_summary loader) !! source_name st = None
      /\ Summary.data (get_summary loader) !! source_name st
         = Some (loaded_entry (length (SourceTable.rows st)))).
Proof.
  unfold get_summary. intros H Hnd.
  apply main_returned in H as (self1 & self2 & E1 & E2 & Hsum & _).
  rewrite Hsum. clear Hsum.
  destruct (load_schema_summary_spec _ _ _ _ _ E1 Hnd) as (Hkept & Hother & _).
  destruct (populate_postgres_returned env db self1 self2 E2)
    as (sessions & _ & _ & _ & (Hc & Hp & Hf & Hi & Hch) & Hdata & _).
  rewrite Hc, Hp, Hf, Hi, Hch. split.
  - intros st Hst Hk. cbv zeta. destruct (Hkept st Hst Hk) as (K1 & K2 & K3 & K4 & K5).
    split; [eapply mark_created_entry; [exact K1 | discriminate]|].
    split; [eapply mark_created_entry; [exact K2 | discriminate]|].
    split; [eapply mark_created_entry; [exact K3 | discriminate]|].
    split; [eapply mark_created_entry; [exact K5 | discriminate]|].
    split; [exact K4 | exact (Hdata Hnd st Hst)].
  - intros st Hst Hk. split; [|exact (Hdata Hnd st Hst)].
    apply mark_created_none.
    destruct (Hother (source_name st) (not_kept_name _ _ Hk)) as (O1 & _).
    rewrite O1. reflexivity.
Qed.

Lemma main_summary_sample :
  Summary.columns
    (get_summary (left_by (main accepting sample_db false false false))) !! "sqlite_sequence"
  = None
  /\ Summary.data
       (get_summary (left_by (main accepting sample_db false false false)))
       !! "sqlite_sequence"
     = Some (loaded_entry 1).
Proof.
  destruct (main accepting sample_db false false false) as [loader|] eqn:H;
    [|vm_compute in H; discriminate H].
  assert (Hnd : List.NoDup (map Table.name (db_tables sample_db))).
  { repeat constructor; cbn; intuition discriminate. }
  exact (proj2 (main_summary _ _ _ _ _ _ H Hnd) sequence_source
           (or_intror (or_introl eq_refl)) eq_refl).
Defined.

(** ** Calling [load_schema] again *)

(** X17.  [load_schema] only ever appends: it does not clear the statement
    lists it fills.  After a call that returned, a second call on the same
    source returns too, unless the target refuses the DROP statements it
    is asked to send first, and the object then holds every CREATE TABLE,
    foreign-key and index statement of the source twice. *)
Theorem load_schema_accumulates (env : Env) (db : Database.t) (drop1 drop2 : bool)
    (self self1 : PGSqlite) :
  load_schema env db drop1 self = Returned self1 ->
  is_returned (load_schema env db drop2 self1)
  = (if drop2
     then accepted (answer env (target self1) Main) []
            (statements_session (map drop_statement (db_tables db)))
     else true)
  /\ forall self2,
       load_schema env db drop2 self1 = Returned self2 ->
       exists ddls,
         mapM table_statement (List.filter kept (db_tables db)) = Ok ddls
         /\ tables_sql self2 = tables_sql self ++ ddls ++ ddls
         /\ fks_sql self2
            = fks_sql self ++ flat_map fk_statements (List.filter kept (db_tables db))
              ++ flat_map fk_statements (List.filter kept (db_tables db))
         /\ indexes_sql self2
            = indexes_sql self ++ flat_map index_statements (List.filter kept (db_tables db))
              ++ flat_map index_statements (List.filter kept (db_tables db)).
Proof.
  intros H1.
  destruct (load_schema_spec env db drop1 self) as [Hok1 Hf1].
  destruct (load_schema_spec env db drop2 self1) as [Hok2 Hf2].
  rewrite H1 in Hok1. cbn [is_returned] in Hok1. symmetry in Hok1.
  apply andb_true_iff in Hok1 as [Hok1 Hp]. apply andb_true_iff in Hok1 as [Hok1 Hs].
  apply andb_true_iff in Hok1 as [_ Hc].
  rewrite Hc, Hs, Hp, !andb_true_r in Hok2. split; [exact Hok2|].
  intros self2 H2.
  destruct (Hf1 self1 H1) as (ddls & Hd & T1 & F1 & I1 & _).
  destruct (Hf2 self2 H2) as (ddls' & Hd' & T2 & F2 & I2 & _).
  rewrite Hd in Hd'. injection Hd' as <-.
  exists ddls. split; [exact Hd|].
  rewrite T2, T1, F2, F1, I2, I1, <- !app_assoc. repeat split.
Qed.

Lemma load_schema_accumulates_sample :
  exists self2,
    (let+ self1 := load_schema accepting sample_db false (init false) in
     load_schema accepting sample_db false self1) = Returned self2
    /\ length (tables_sql self2) = 2.
Proof.
  destruct (load_schema accepting sample_db false (init false)) as [self1|] eqn:H1;
    [|vm_compute in H1; discriminate H1].
  destruct (load_schema_accumulates accepting sample_db false false _ _ H1) as (Hret & Hlists).
  cbn [and_then].
  destruct (load_schema accepting sample_db false self1) as [self2|] eqn:H2;
    [|discriminate Hret].
  destruct (Hlists self2 eq_refl) as (ddls & Hd & T & _).
  exists self2. split; [reflexivity|].
  rewrite T. vm_compute in Hd. injection Hd as <-. reflexivity.
Defined.

(** ** The text of an extracted clause *)

Section Stripping.

Variables (p : ascii -> bool) (sub : string).
Hypothesis sub_clean : Sql.all_chars (fun c => negb (p c)) sub = true.

Lemma rstrip_with_nonempty_prefix : forall q s,
  Sql.all_chars (fun c => negb (p c)) q = true ->
  PyStr.prefix q s = true ->
  PyStr.prefix q (PyStr.rstrip_with p s) = true.
Proof.
  induction q as [|a q IH]; intros s Hq Hp; [reflexivity|].
  destruct s as [|b s]; [discriminate Hp|].
  cbn [Sql.all_chars] in Hq. apply andb_true_iff in Hq as [Ha Hq].
  cbn [PyStr.prefix] in Hp. apply andb_true_iff in Hp as [Hab Hp].
  apply Ascii.eqb_eq in Hab as <-.
  specialize (IH s Hq Hp). cbn [PyStr.rstrip_with].
  destruct (PyStr.rstrip_with p s) as [|c r] eqn:E.
  - destruct (p a); [discriminate Ha|]. cbn. rewrite Ascii.eqb_refl.
    destruct q; [reflexivity | discriminate IH].
  - cbn [PyStr.prefix]. rewrite Ascii.eqb_refl. exact IH.
Qed.

Lemma rstrip_with_cons_nonempty c s :
  PyStr.rstrip_with p s <> EmptyString ->
  PyStr.rstrip_with p (String c s) = String c (PyStr.rstrip_with p s).
Proof.
  intros H. cbn [PyStr.rstrip_with]. destruct (PyStr.rstrip_with p s); [contradiction|].
  reflexivity.
Qed.

Lemma contains_rstrip_with a rest s :
  sub = String a rest ->
  PyStr.contains sub s = true -> PyStr.contains sub (PyStr.rstrip_with p s) = true.
Proof.
  intros Hsub. induction s as [|c s IH]; intros H.
  - subst sub. discriminate H.
  - cbn [PyStr.contains] in H. apply orb_true_iff in H as [H|H].
    + apply (rstrip_with_nonempty_prefix _ _ sub_clean) in H.
      destruct (PyStr.rstrip_with p (String c s)); cbn [PyStr.contains]; rewrite H; reflexivity.
    + specialize (IH H).
      assert (Hne : PyStr.rstrip_with p s <> EmptyString).
      { intros E. rewrite E in IH. subst sub. discriminate IH. }
      rewrite (rstrip_with_cons_nonempty _ _ Hne). cbn [PyStr.contains].
      rewrite IH. apply orb_true_r.
Qed.

Lemma rstrip_with_idempotent s :
  PyStr.rstrip_with p (PyStr.rstrip_with p s) = PyStr.rstrip_with p s.
Proof.
  induction s as [|c s IH]; [reflexivity|].
  cbn [PyStr.rstrip_with].
  destruct (PyStr.rstrip_with p s) as [|d r] eqn:E.
  - destruct (p c) eqn:Hc; [reflexivity|]. cbn. rewrite Hc. reflexivity.
  - cbn [PyStr.rstrip_with] in *. rewrite IH. reflexivity.
Qed.

End Stripping.

Lemma contains_lstrip a rest s :
  PyStr.is_space a = false ->
  PyStr.contains (String a rest) s = true ->
  PyStr.contains (String a rest) (PyStr.lstrip s) = true.
Proof.
  intros Ha. induction s as [|c s IH]; intros H; [exact H|].
  cbn [PyStr.lstrip]. destruct (PyStr.is_space c) eqn:Hc; [|exact H].
  apply IH. cbn [PyStr.contains PyStr.prefix] in H.
  destruct (Ascii.eqb_spec a c) as [->|_]; [congruence|]. exact H.
Qed.

(** X18.  Every clause the extractor keeps is four blanks followed by a
    text that still contains "CHECK" and does not end in a comma.  (It can
    end in a blank: the commas are removed after the trimming, as in the
    example below.) *)
Theorem check_clauses_text (sql : string) :
  Forall (fun clause =>
            exists text,
              clause = SQL ("    " +:+ text)
              /\ PyStr.contains "CHECK" text = true
              /\ PyStr.rstrip_with is_comma text = text)
    (check_clauses sql).
Proof.
  unfold check_clauses. apply List.Forall_forall. intros clause Hin.
  apply in_map_iff in Hin as (line & <- & Hline).
  apply filter_In in Hline as [_ Hcheck].
  eexists. split; [reflexivity|]. split.
  - apply (contains_rstrip_with is_comma "CHECK" eq_refl "C" "HECK" _ eq_refl).
    unfold PyStr.strip.
    apply (contains_rstrip_with PyStr.is_space "CHECK" eq_refl "C" "HECK" _ eq_refl).
    apply contains_lstrip; [reflexivity | exact Hcheck].
  - apply rstrip_with_idempotent.
Qed.

Example clause_keeps_inner_blank :
  check_clauses "  CHECK (level > 0) , " = [SQL "    CHECK (level > 0) "].
Proof. reflexivity. Qed.
